(** * VozactAI: the API gateway client and its error taxonomy

    A shallow embedding of [src/app/services/api.ts] (token store,
    [parseApiError], [apiCall] and its upload/download variants, the
    [auth.login] method) and of [src/app/utils/errorHandling.ts]
    (message extraction, category predicates, severity), followed by the
    properties the specification states about them.

    Modelling conventions.
    - A value decoded by [response.json()] is a [JsValue].  JSON numbers are
      taken to be integers in the safe range and print in decimal.
    - [localStorage] is a finite map from keys to strings whose operations
      never fail.
    - An asynchronous function is a state-passing computation over a
      [World]; it either returns a value or throws an [ErrorValue].
    - The network is an oracle [fetch] from requests to fetch results.
    - The time value of [new Date(s)] is a parameter [Date_parse]. *)

From Stdlib Require Import ZArith Ascii String List Bool DecimalString.
From stdpp Require Import base option gmap strings list.

Set Warnings "-register-all".
Local Open Scope string_scope.
Local Open Scope Z_scope.

(** ** JavaScript values *)

Inductive JsValue : Type :=
| JUndefined
| JNull
| JBool (b : bool)
| JNum (n : Z)
| JStr (s : string)
| JArr (elems : list JsValue)
| JObj (props : list (string * JsValue)).

(** Error types from the OpenAPI schema ([interface ValidationError]). *)
Record ValidationError : Type := {
  loc : list (string + Z);
  msg : string;
  type : string
}.

(** [class VoizmaticApiError extends Error]: the fields an instance carries.
    At run time [validationErrors] holds whatever array the body's [detail]
    was, hence a list of [JsValue]. *)
Record VoizmaticApiError : Type := {
  this_message : string;
  this_status : option Z;
  this_statusText : option string;
  this_validationErrors : option (list JsValue)
}.

(** Anything that can be thrown or handed to the error utilities
    ([error: unknown]): an instance of [VoizmaticApiError], another instance
    of [Error] (with whether it is [instanceof TypeError], its [name] and its
    [message]), or a value that is not an [Error]. *)
Inductive ErrorValue : Type :=
| VoizmaticApiErrorOf (e : VoizmaticApiError)
| ErrorOf (isTypeError : bool) (name message : string)
| PlainValue (v : JsValue).

(** [interface ApiError], the argument of the constructor. *)
Record ApiError : Type := {
  message : string;
  status : option Z;
  statusText : option string;
  validationErrors : option (list JsValue);
  originalError : option ErrorValue
}.

(** [constructor(apiError)]: copies message, status, statusText and
    validationErrors. *)
Definition new_VoizmaticApiError (apiError : ApiError) : VoizmaticApiError :=
  {| this_message := message apiError;
     this_status := status apiError;
     this_statusText := statusText apiError;
     this_validationErrors := validationErrors apiError |}.

(** ** Completions: a value or a thrown error *)

Inductive Outcome (A : Type) : Type :=
| Returned (a : A)
| Thrown (e : ErrorValue).
Arguments Returned {A} a.
Arguments Thrown {A} e.

Definition obind {A B} (o : Outcome A) (k : A -> Outcome B) : Outcome B :=
  match o with
  | Returned a => k a
  | Thrown e => Thrown e
  end.

Notation "'let!' x ':=' c 'in' k" := (obind c (fun x => k))
  (at level 10, x name, c at level 100, k at level 200).

(** The [TypeError] raised by the engine on a bad property access or call. *)
Definition TypeError (m : string) : ErrorValue := ErrorOf true "TypeError" m.

(** ** String primitives *)

(** [hay.includes(needle)] *)
Fixpoint includes (needle hay : string) : bool :=
  String.prefix needle hay ||
  match hay with
  | EmptyString => false
  | String _ rest => includes needle rest
  end.

Definition lower_ascii (c : ascii) : ascii :=
  let n := N_of_ascii c in
  if ((65 <=? n) && (n <=? 90))%N then ascii_of_N (n + 32) else c.

(** [s.toLowerCase()] on the ASCII letters. *)
Fixpoint toLowerCase (s : string) : string :=
  match s with
  | EmptyString => EmptyString
  | String c rest => String (lower_ascii c) (toLowerCase rest)
  end.

(** Decimal rendering of an integer, as [String(n)] gives it. *)
Definition string_of_Z (n : Z) : string := NilZero.string_of_int (Z.to_int n).

Definition nonempty (s : string) : bool :=
  match s with EmptyString => false | String _ _ => true end.

(** ** Operations on values *)

(** Truthiness, as tested by [if (v)], [!v] and [a || b]. *)
Definition truthy (v : JsValue) : bool :=
  match v with
  | JUndefined | JNull => false
  | JBool b => b
  | JNum n => negb (n =? 0)
  | JStr s => nonempty s
  | JArr _ | JObj _ => true
  end.

Fixpoint own_property (k : string) (props : list (string * JsValue)) : option JsValue :=
  match props with
  | [] => None
  | (k', v) :: rest => if String.eqb k k' then Some v else own_property k rest
  end.

(** [v.k] for the property names this module reads ([detail], [message],
    [loc], [msg], [access_token], [expires_at]); none of them is inherited
    from a prototype, so only an object's own properties can supply them. *)
Definition js_get (v : JsValue) (k : string) : Outcome JsValue :=
  match v with
  | JUndefined | JNull =>
      Thrown (TypeError ("Cannot read properties of undefined (reading '" ++ k ++ "')"))
  | JObj props => Returned (default JUndefined (own_property k props))
  | _ => Returned JUndefined
  end.

Definition Array_isArray (v : JsValue) : bool :=
  match v with JArr _ => true | _ => false end.

Definition typeof_string (v : JsValue) : bool :=
  match v with JStr _ => true | _ => false end.

(** String conversion, as a template literal or [String(v)] performs it.
    An array prints its elements separated by commas, [null] and
    [undefined] elements printing as nothing; an object prints as
    [[object Object]], unless an own [toString] property (never callable in
    decoded JSON) shadows the inherited method, in which case the conversion
    throws. *)
Fixpoint ToString (v : JsValue) : Outcome string :=
  match v with
  | JUndefined => Returned "undefined"
  | JNull => Returned "null"
  | JBool true => Returned "true"
  | JBool false => Returned "false"
  | JNum n => Returned (string_of_Z n)
  | JStr s => Returned s
  | JArr elems =>
      let! parts :=
        (fix each (l : list JsValue) : Outcome (list string) :=
           match l with
           | [] => Returned []
           | x :: rest =>
               let! s := match x with
                         | JUndefined | JNull => Returned ""
                         | _ => ToString x
                         end in
               let! ss := each rest in
               Returned (s :: ss)
           end) elems in
      Returned (String.concat "," parts)
  | JObj props =>
      match own_property "toString" props with
      | Some _ => Thrown (TypeError "Cannot convert object to primitive value")
      | None => Returned "[object Object]"
      end
  end.

(** The string an element contributes to [Array.prototype.join]. *)
Definition join_part (x : JsValue) : Outcome string :=
  match x with
  | JUndefined | JNull => Returned ""
  | _ => ToString x
  end.

Fixpoint join_parts (l : list JsValue) : Outcome (list string) :=
  match l with
  | [] => Returned []
  | x :: rest =>
      let! s := join_part x in
      let! ss := join_parts rest in
      Returned (s :: ss)
  end.

(** [arr.join(sep)] *)
Definition Array_join (sep : string) (l : list JsValue) : Outcome string :=
  let! parts := join_parts l in
  Returned (String.concat sep parts).

(** [loc.slice(1).join('.')]: only an array has both methods; on a string
    [slice] succeeds and [join] is missing, on anything else [slice] is. *)
Definition slice1_join (locv : JsValue) : Outcome string :=
  match locv with
  | JArr elems => Array_join "." (tail elems)
  | JStr _ => Thrown (TypeError "err.loc.slice(...).join is not a function")
  | JUndefined | JNull =>
      Thrown (TypeError "Cannot read properties of undefined (reading 'slice')")
  | _ => Thrown (TypeError "err.loc.slice is not a function")
  end.

(** The arrow function shared by [parseApiError],
    [getValidationErrorMessage] and [ErrorAlert]:
    [err => { const field = err.loc.slice(1).join('.') || 'field';
              return `${field}: ${err.msg}` }]. *)
Definition field_of (err : JsValue) : Outcome string :=
  let! locv := js_get err "loc" in
  let! joined := slice1_join locv in
  Returned (if nonempty joined then joined else "field").

Definition render_entry (err : JsValue) : Outcome string :=
  let! field := field_of err in
  let! m := js_get err "msg" in
  let! ms := ToString m in
  Returned (field ++ ": " ++ ms).

(** [arr.map(f)], stopping at the first element on which [f] throws. *)
Fixpoint Array_map {A} (f : JsValue -> Outcome A) (l : list JsValue) : Outcome (list A) :=
  match l with
  | [] => Returned []
  | x :: rest =>
      let! y := f x in
      let! ys := Array_map f rest in
      Returned (y :: ys)
  end.

(** A typed [ValidationError] as the value [JSON.parse] yields for it. *)
Definition json_of_segment (s : string + Z) : JsValue :=
  match s with inl str => JStr str | inr n => JNum n end.

Definition json_of_ValidationError (ve : ValidationError) : JsValue :=
  JObj [("loc", JArr (map json_of_segment (loc ve)));
        ("msg", JStr (msg ve));
        ("type", JStr (type ve))].

(** ** The environment: storage, clock, timers, console, network *)

Definition Blob : Type := string.
Definition FormData : Type := list (string * string).

Inductive RequestBody : Type :=
| JsonText (v : JsValue)          (* [JSON.stringify(v)] *)
| Multipart (formData : FormData).

(** [RequestInit], the fields the callers set. *)
Record RequestInit : Type := {
  init_method : option string;
  init_headers : option (gmap string string);
  init_body : option RequestBody
}.

(** One call of [fetch(url, init)]. *)
Record Request : Type := {
  url : string;
  method : option string;
  headers : gmap string string;
  body : option RequestBody
}.

(** What the module reads from a [Response]: the status line, the
    [content-type] header, and what [json()] and [blob()] would settle to. *)
Record Response : Type := {
  resp_status : Z;
  resp_statusText : string;
  content_type : option string;
  json : Outcome JsValue;
  blob : Outcome Blob
}.

(** [response.ok] *)
Definition ok (response : Response) : bool :=
  (200 <=? resp_status response) && (resp_status response <=? 299).

Record World : Type := {
  localStorage : gmap string string;
  clock : Z;                                  (* [new Date()], in milliseconds *)
  timers : list (Z * string);                 (* [setTimeout(() => location.href = target, delay)] *)
  console : list (string * ErrorValue);       (* [console.warn(text, error)] *)
  requests : list Request;                    (* calls of [fetch], oldest first *)
  downloads : list (string * Blob)            (* files offered through a temporary anchor *)
}.

Definition with_localStorage (f : gmap string string -> gmap string string) (w : World) : World :=
  {| localStorage := f (localStorage w); clock := clock w; timers := timers w;
     console := console w; requests := requests w; downloads := downloads w |}.

(** Computations that read and change the world and may throw. *)
Definition M (A : Type) : Type := World -> Outcome A * World.

Definition ret {A} (a : A) : M A := fun w => (Returned a, w).
Definition throw {A} (e : ErrorValue) : M A := fun w => (Thrown e, w).
Definition bind {A B} (m : M A) (k : A -> M B) : M B :=
  fun w => match m w with
           | (Returned a, w') => k a w'
           | (Thrown e, w') => (Thrown e, w')
           end.
(** [try { m } catch (error) { handler error }] *)
Definition try_catch {A} (m : M A) (handler : ErrorValue -> M A) : M A :=
  fun w => match m w with
           | (Returned a, w') => (Returned a, w')
           | (Thrown e, w') => handler e w'
           end.
Definition lift {A} (o : Outcome A) : M A := fun w => (o, w).

Notation "'do' x <- c ; k" := (bind c (fun x => k))
  (at level 10, x name, c at level 100, k at level 200).
Notation "'run' c ; k" := (bind c (fun _ => k))
  (at level 10, c at level 100, k at level 200).

Definition getItem (k : string) : M (option string) :=
  fun w => (Returned (localStorage w !! k), w).
(** [localStorage.setItem(k, v)] stores the string conversion of [v]. *)
Definition setItem (k : string) (v : JsValue) : M unit :=
  do s <- lift (ToString v);
  fun w => (Returned tt, with_localStorage (insert k s) w).
Definition removeItem (k : string) : M unit :=
  fun w => (Returned tt, with_localStorage (delete k) w).
Definition now : M Z := fun w => (Returned (clock w), w).

(** [setTimeout(() => { window.location.href = target }, delay)]: the
    callback is queued and the caller goes on. *)
Definition setTimeout_redirect (target : string) (delay : Z) : M unit :=
  fun w => (Returned tt,
            {| localStorage := localStorage w; clock := clock w;
               timers := timers w ++ [(delay, target)];
               console := console w; requests := requests w; downloads := downloads w |}).

Definition console_warn (text : string) (e : ErrorValue) : M unit :=
  fun w => (Returned tt,
            {| localStorage := localStorage w; clock := clock w; timers := timers w;
               console := console w ++ [(text, e)];
               requests := requests w; downloads := downloads w |}).

(** The anchor dance of [apiDownload]: object URL, click, revoke. *)
Definition save_as (filename : string) (b : Blob) : M unit :=
  fun w => (Returned tt,
            {| localStorage := localStorage w; clock := clock w; timers := timers w;
               console := console w; requests := requests w;
               downloads := downloads w ++ [(filename, b)] |}).

(** ** Token management *)

Definition API_BASE_URL : string := "https://api.voizmatic.com".
Definition TOKEN_KEY : string := "voizmatic_access_token".
Definition TOKEN_EXPIRY_KEY : string := "voizmatic_token_expiry".

(** A stored string is falsy when absent or empty ([!token]). *)
Definition present (o : option string) : bool :=
  match o with Some s => nonempty s | None => false end.

Module tokenManager.

Definition getToken : M (option string) := getItem TOKEN_KEY.

Definition setToken (token expiresAt : JsValue) : M unit :=
  run setItem TOKEN_KEY token;
  setItem TOKEN_EXPIRY_KEY expiresAt.

Definition clearToken : M unit :=
  run removeItem TOKEN_KEY;
  removeItem TOKEN_EXPIRY_KEY.

(** [Date_parse] is the time value [new Date(expiry)] holds, [None] for an
    invalid date, which compares false against everything. *)
Definition isTokenValid (Date_parse : string -> option Z) : M bool :=
  do token <- getItem TOKEN_KEY;
  do expiry <- getItem TOKEN_EXPIRY_KEY;
  if negb (present token) || negb (present expiry) then ret false
  else
    let expiryDate := Date_parse (default "" expiry) in
    do t <- now;
    ret (match expiryDate with Some ms => t <? ms | None => false end).

End tokenManager.

(** ** API call handler *)

Definition newline : string := String (ascii_of_nat 10) EmptyString.

(** The [switch (status)] of [parseApiError] ("Status-specific error
    messages"), applied to the message and the validation errors found so
    far. *)
Definition status_specific (status : Z) (message : string)
    (validationErrors : option (list JsValue)) : string :=
  match status with
  | 400 => if nonempty message then message else "Bad request. Please check your input."
  | 401 => "Session expired or invalid. Please login again."
  | 403 => "Access forbidden. You do not have permission to perform this action."
  | 404 => "Resource not found."
  | 422 =>
      match validationErrors with
      | Some _ => message
      | None => "Validation failed. Please check your input."
      end
  | 429 => "Too many requests. Please try again later."
  | 500 => "Internal server error. Please try again later."
  | 502 => "Bad gateway. The server is temporarily unavailable."
  | 503 => "Service unavailable. Please try again later."
  | 504 => "Gateway timeout. The request took too long."
  | _ => message
  end.

(** Helper function to parse API errors.  [errorData] is [JUndefined] when
    the caller passes none. *)
Definition parseApiError (response : Response) (errorData : JsValue) : Outcome ApiError :=
  let status := resp_status response in
  let statusText := resp_statusText response in
  let message0 := "Request failed with status " ++ string_of_Z status in
  let! parsed :=
    if truthy errorData then
      let! detail := js_get errorData "detail" in
      match detail with
      | JArr entries =>
          let! parts := Array_map render_entry entries in
          Returned (String.concat "; " parts, Some entries)
      | JStr s => Returned (s, None)
      | _ =>
          let! m := js_get errorData "message" in
          match m with
          | JStr s => Returned (s, None)
          | _ => Returned (message0, None)
          end
      end
    else Returned (message0, None) in
  Returned {| message := status_specific status (fst parsed) (snd parsed);
              status := Some status;
              statusText := Some statusText;
              validationErrors := snd parsed;
              originalError := None |}.

(** [contentType && contentType.includes('application/json')] *)
Definition declares_json (response : Response) : bool :=
  match content_type response with
  | Some ct => nonempty ct && includes "application/json" ct
  | None => false
  end.

Section Client.

(** The remote service: what [fetch] settles to for each request. *)
Variable fetch : Request -> Outcome Response.

Definition do_fetch (request : Request) : M Response :=
  fun w => (fetch request,
            {| localStorage := localStorage w; clock := clock w; timers := timers w;
               console := console w; requests := requests w ++ [request];
               downloads := downloads w |}).

Definition apiCall (endpoint : string) (options : option RequestInit)
    (requiresAuth : bool) : M JsValue :=
  let headers0 : gmap string string :=
    default ∅ (options ≫= init_headers) ∪ {[ "Content-Type" := "application/json" ]} in
  do headers <-
    (if requiresAuth then
       do token <- tokenManager.getToken;
       if present token
       then ret (<[ "Authorization" := "Bearer " ++ default "" token ]> headers0)
       else ret headers0
     else ret headers0);
  try_catch
    (do response <- do_fetch {| url := API_BASE_URL ++ endpoint;
                                method := options ≫= init_method;
                                headers := headers;
                                body := options ≫= init_body |};
     if resp_status response =? 401 then
       run tokenManager.clearToken;
       run setTimeout_redirect "/" 100;
       throw (VoizmaticApiErrorOf (new_VoizmaticApiError
         {| message := "Session expired. Please login again.";
            status := Some 401;
            statusText := Some (resp_statusText response);
            validationErrors := None; originalError := None |}))
     else if negb (ok response) then
       do errorData <-
         try_catch
           (if declares_json response then lift (json response) else ret JUndefined)
           (fun parseError =>
              run console_warn "Failed to parse error response:" parseError;
              ret JUndefined);
       do apiError <- lift (parseApiError response errorData);
       throw (VoizmaticApiErrorOf (new_VoizmaticApiError apiError))
     else if declares_json response then lift (json response)
     else ret (JObj []))
    (fun error =>
       match error with
       | VoizmaticApiErrorOf _ => throw error
       | ErrorOf true _ _ =>
           throw (VoizmaticApiErrorOf (new_VoizmaticApiError
             {| message := "Network error. Please check your internet connection.";
                status := None; statusText := None; validationErrors := None;
                originalError := Some error |}))
       | ErrorOf false _ m =>
           throw (VoizmaticApiErrorOf (new_VoizmaticApiError
             {| message := m;
                status := None; statusText := None; validationErrors := None;
                originalError := Some error |}))
       | PlainValue _ =>
           throw (VoizmaticApiErrorOf (new_VoizmaticApiError
             {| message := "An unexpected error occurred";
                status := None; statusText := None; validationErrors := None;
                originalError := Some error |}))
       end).

(** File upload helper (multipart/form-data) *)
Definition apiUpload (endpoint : string) (formData : FormData) (requiresAuth : bool) : M JsValue :=
  let headers0 : gmap string string := ∅ in
  do headers <-
    (if requiresAuth then
       do token <- tokenManager.getToken;
       if present token
       then ret (<[ "Authorization" := "Bearer " ++ default "" token ]> headers0)
       else ret headers0
     else ret headers0);
  try_catch
    (do response <- do_fetch {| url := API_BASE_URL ++ endpoint;
                                method := Some "POST";
                                headers := headers;
                                body := Some (Multipart formData) |};
     if resp_status response =? 401 then
       run tokenManager.clearToken;
       run setTimeout_redirect "/" 100;
       throw (VoizmaticApiErrorOf (new_VoizmaticApiError
         {| message := "Session expired. Please login again.";
            status := Some 401;
            statusText := Some (resp_statusText response);
            validationErrors := None; originalError := None |}))
     else if negb (ok response) then
       do errorData <-
         try_catch
           (if declares_json response then lift (json response) else ret JUndefined)
           (fun parseError =>
              run console_warn "Failed to parse upload error response:" parseError;
              ret JUndefined);
       do apiError <- lift (parseApiError response errorData);
       throw (VoizmaticApiErrorOf (new_VoizmaticApiError apiError))
     else lift (json response))
    (fun error =>
       match error with
       | VoizmaticApiErrorOf _ => throw error
       | ErrorOf true _ _ =>
           throw (VoizmaticApiErrorOf (new_VoizmaticApiError
             {| message := "Network error during upload. Please check your internet connection.";
                status := None; statusText := None; validationErrors := None;
                originalError := Some error |}))
       | ErrorOf false _ m =>
           throw (VoizmaticApiErrorOf (new_VoizmaticApiError
             {| message := m;
                status := None; statusText := None; validationErrors := None;
                originalError := Some error |}))
       | PlainValue _ =>
           throw (VoizmaticApiErrorOf (new_VoizmaticApiError
             {| message := "Upload failed";
                status := None; statusText := None; validationErrors := None;
                originalError := Some error |}))
       end).

(** File download helper *)
Definition apiDownload (endpoint filename : string) (requiresAuth : bool) : M unit :=
  let headers0 : gmap string string := ∅ in
  do headers <-
    (if requiresAuth then
       do token <- tokenManager.getToken;
       if present token
       then ret (<[ "Authorization" := "Bearer " ++ default "" token ]> headers0)
       else ret headers0
     else ret headers0);
  try_catch
    (do response <- do_fetch {| url := API_BASE_URL ++ endpoint;
                                method := Some "GET";
                                headers := headers;
                                body := None |};
     if resp_status response =? 401 then
       run tokenManager.clearToken;
       run setTimeout_redirect "/" 100;
       throw (VoizmaticApiErrorOf (new_VoizmaticApiError
         {| message := "Session expired. Please login again.";
            status := Some 401;
            statusText := Some (resp_statusText response);
            validationErrors := None; originalError := None |}))
     else if negb (ok response) then
       do errorData <-
         try_catch
           (if declares_json response then lift (json response) else ret JUndefined)
           (fun parseError =>
              run console_warn "Failed to parse download error response:" parseError;
              ret JUndefined);
       do apiError <- lift (parseApiError response errorData);
       throw (VoizmaticApiErrorOf (new_VoizmaticApiError apiError))
     else (do b <- lift (blob response);
           save_as filename b))
    (fun error =>
       match error with
       | VoizmaticApiErrorOf _ => throw error
       | ErrorOf true _ _ =>
           throw (VoizmaticApiErrorOf (new_VoizmaticApiError
             {| message := "Network error during download. Please check your internet connection.";
                status := None; statusText := None; validationErrors := None;
                originalError := Some error |}))
       | ErrorOf false _ m =>
           throw (VoizmaticApiErrorOf (new_VoizmaticApiError
             {| message := m;
                status := None; statusText := None; validationErrors := None;
                originalError := Some error |}))
       | PlainValue _ =>
           throw (VoizmaticApiErrorOf (new_VoizmaticApiError
             {| message := "Download failed";
                status := None; statusText := None; validationErrors := None;
                originalError := Some error |}))
       end).

(** File download helper that returns blob *)
Definition apiDownloadBlob (endpoint : string) (requiresAuth : bool) : M Blob :=
  let headers0 : gmap string string := ∅ in
  do headers <-
    (if requiresAuth then
       do token <- tokenManager.getToken;
       if present token
       then ret (<[ "Authorization" := "Bearer " ++ default "" token ]> headers0)
       else ret headers0
     else ret headers0);
  try_catch
    (do response <- do_fetch {| url := API_BASE_URL ++ endpoint;
                                method := Some "GET";
                                headers := headers;
                                body := None |};
     if resp_status response =? 401 then
       run tokenManager.clearToken;
       run setTimeout_redirect "/" 100;
       throw (VoizmaticApiErrorOf (new_VoizmaticApiError
         {| message := "Session expired. Please login again.";
            status := Some 401;
            statusText := Some (resp_statusText response);
            validationErrors := None; originalError := None |}))
     else if negb (ok response) then
       do errorData <-
         try_catch
           (if declares_json response then lift (json response) else ret JUndefined)
           (fun parseError =>
              run console_warn "Failed to parse download error response:" parseError;
              ret JUndefined);
       do apiError <- lift (parseApiError response errorData);
       throw (VoizmaticApiErrorOf (new_VoizmaticApiError apiError))
     else lift (blob response))
    (fun error =>
       match error with
       | VoizmaticApiErrorOf _ => throw error
       | ErrorOf true _ _ =>
           throw (VoizmaticApiErrorOf (new_VoizmaticApiError
             {| message := "Network error during download. Please check your internet connection.";
                status := None; statusText := None; validationErrors := None;
                originalError := Some error |}))
       | ErrorOf false _ m =>
           throw (VoizmaticApiErrorOf (new_VoizmaticApiError
             {| message := m;
                status := None; statusText := None; validationErrors := None;
                originalError := Some error |}))
       | PlainValue _ =>
           throw (VoizmaticApiErrorOf (new_VoizmaticApiError
             {| message := "Download failed";
                status := None; statusText := None; validationErrors := None;
                originalError := Some error |}))
       end).

(** [api.auth.login] *)
Definition login (credentials : JsValue) : M JsValue :=
  do response <- apiCall "/api/auth/login"
                   (Some {| init_method := Some "POST"; init_headers := None;
                            init_body := Some (JsonText credentials) |})
                   false;
  do access_token <- lift (js_get response "access_token");
  do expires_at <- lift (js_get response "expires_at");
  run tokenManager.setToken access_token expires_at;
  ret response.

End Client.

(** ** Error handling utilities *)

(** Format validation errors into a readable string. *)
Definition getValidationErrorMessage (this : VoizmaticApiError) : Outcome string :=
  match this_validationErrors this with
  | None | Some [] => Returned (this_message this)
  | Some entries =>
      let! parts := Array_map render_entry entries in
      Returned (String.concat newline parts)
  end.

(** Extract user-friendly error message from any error type. *)
Definition getErrorMessage (error : ErrorValue) : Outcome string :=
  match error with
  | VoizmaticApiErrorOf e =>
      match this_validationErrors e with
      | Some (_ :: _) => getValidationErrorMessage e
      | _ => Returned (this_message e)
      end
  | ErrorOf _ _ m => Returned m
  | PlainValue (JStr s) => Returned s
  | PlainValue (JObj props) =>
      match own_property "message" props with
      | Some m => ToString m
      | None => Returned "An unexpected error occurred"
      end
  | PlainValue _ => Returned "An unexpected error occurred"
  end.

Definition isNetworkError (error : ErrorValue) : bool :=
  match error with
  | VoizmaticApiErrorOf e => includes "network" (toLowerCase (this_message e))
  | ErrorOf _ name m =>
      includes "network" (toLowerCase m) || includes "fetch" (toLowerCase m)
      || String.eqb name "TypeError"
  | PlainValue _ => false
  end.

Definition isAuthError (error : ErrorValue) : bool :=
  match error with
  | VoizmaticApiErrorOf e => bool_decide (this_status e = Some 401)
  | _ => false
  end.

Definition isValidationError (error : ErrorValue) : bool :=
  match error with
  | VoizmaticApiErrorOf e =>
      bool_decide (this_status e = Some 422)
      && match this_validationErrors e with
         | Some entries => (0 <? Z.of_nat (length entries))
         | None => false
         end
  | _ => false
  end.

Definition isPermissionError (error : ErrorValue) : bool :=
  match error with
  | VoizmaticApiErrorOf e => bool_decide (this_status e = Some 403)
  | _ => false
  end.

Definition isNotFoundError (error : ErrorValue) : bool :=
  match error with
  | VoizmaticApiErrorOf e => bool_decide (this_status e = Some 404)
  | _ => false
  end.

Definition isServerError (error : ErrorValue) : bool :=
  match error with
  | VoizmaticApiErrorOf e =>
      match this_status e with
      | Some st => 500 <=? st
      | None => false
      end
  | _ => false
  end.

Inductive ErrorSeverity : Type := Info | Warning | Error | Critical.

(** Get error severity level for UI display. *)
Definition getErrorSeverity (error : ErrorValue) : ErrorSeverity :=
  if isValidationError error then Warning
  else if isNotFoundError error then Info
  else if isAuthError error || isPermissionError error then Warning
  else if isServerError error then Critical
  else if isNetworkError error then Error
  else Error.

(** * Vocabulary of the statements *)

(** The request that produced the completion was answered with a 2xx
    response satisfying [P]. *)
Definition answered_ok (fetch : Request -> Outcome Response) (w' : World)
    (P : Response -> Prop) : Prop :=
  exists rq resp,
    last (requests w') = Some rq /\ fetch rq = Returned resp /\
    ok resp = true /\ resp_status resp <> 401 /\ P resp.

(** What a completion of one of the four wrappers must look like: a thrown
    value is a [VoizmaticApiError], and a normal return happens only after a
    2xx answer whose body was read as [P] says. *)
Definition normalized {A} (fetch : Request -> Outcome Response)
    (P : Response -> A -> World -> Prop) (res : Outcome A * World) : Prop :=
  match fst res with
  | Thrown e => exists v, e = VoizmaticApiErrorOf v
  | Returned a => answered_ok fetch (snd res) (fun resp => P resp a (snd res))
  end.

(** The headers after "add authorization header if required and token
    exists". *)
Definition bearer (w : World) (requiresAuth : bool) (h : gmap string string)
    : gmap string string :=
  if requiresAuth && present (localStorage w !! TOKEN_KEY)
  then <[ "Authorization" := "Bearer " ++ default "" (localStorage w !! TOKEN_KEY) ]> h
  else h.

(** The request [apiCall] hands to [fetch]. *)
Definition apiCall_request (w : World) (endpoint : string)
    (options : option RequestInit) (requiresAuth : bool) : Request :=
  {| url := API_BASE_URL ++ endpoint;
     method := options ≫= init_method;
     headers := bearer w requiresAuth
                  (default ∅ (options ≫= init_headers)
                   ∪ {[ "Content-Type" := "application/json" ]});
     body := options ≫= init_body |}.

(** The world once [rq] has gone out. *)
Definition sent (rq : Request) (w : World) : World :=
  {| localStorage := localStorage w; clock := clock w; timers := timers w;
     console := console w; requests := requests w ++ [rq];
     downloads := downloads w |}.

(** The body handed to [parseApiError]: the decoded JSON when the response
    declares JSON and decodes, [undefined] otherwise. *)
Definition error_data (resp : Response) : JsValue :=
  if declares_json resp then
    match json resp with
    | Returned v => v
    | Thrown _ => JUndefined
    end
  else JUndefined.

(** A fresh world: nothing stored, nothing sent, the clock at zero. *)
Definition empty_world : World :=
  {| localStorage := ∅; clock := 0; timers := []; console := [];
     requests := []; downloads := [] |}.

(** A world whose storage holds a token and its expiry. *)
Definition logged_in_world : World :=
  {| localStorage := {[ TOKEN_KEY := "tok"; TOKEN_EXPIRY_KEY := "2030-01-01T00:00:00Z" ]};
     clock := 0; timers := []; console := []; requests := []; downloads := [] |}.

(** A response with the given status, content type and JSON body. *)
Definition response_of (st : Z) (ct : option string) (j : Outcome JsValue) : Response :=
  {| resp_status := st; resp_statusText := ""; content_type := ct;
     json := j; blob := Returned "" |}.

(** What [json()] throws on a body that is an HTML page. *)
Definition not_json : Outcome JsValue :=
  Thrown (ErrorOf false "SyntaxError" "Unexpected token < in JSON at position 0").

(** A segment of a location as [join] prints it. *)
Definition segment_string (s : string + Z) : string :=
  match s with inl str => str | inr n => string_of_Z n end.

(** The field name the code shows for a location. *)
Definition field_name (l : list (string + Z)) : string :=
  let joined := String.concat "." (map segment_string (tail l)) in
  if nonempty joined then joined else "field".

(** One field error as the code renders it. *)
Definition entry_text (ve : ValidationError) : string :=
  field_name (loc ve) ++ ": " ++ msg ve.



(** The status codes the [switch] of [parseApiError] lists. *)
Definition status_table : list Z := [400; 401; 403; 404; 422; 429; 500; 502; 503; 504].

(** The codes whose message the [switch] sets without looking at what the
    body gave. *)
Definition fixed_message (st : Z) : option string :=
  if st =? 401 then Some "Session expired or invalid. Please login again."
  else if st =? 403 then
    Some "Access forbidden. You do not have permission to perform this action."
  else if st =? 404 then Some "Resource not found."
  else if st =? 429 then Some "Too many requests. Please try again later."
  else if st =? 500 then Some "Internal server error. Please try again later."
  else if st =? 502 then Some "Bad gateway. The server is temporarily unavailable."
  else if st =? 503 then Some "Service unavailable. Please try again later."
  else if st =? 504 then Some "Gateway timeout. The request took too long."
  else None.

(** The message the table gives when the body supplied no text. *)
Definition fallback_message (st : Z) : string :=
  status_specific st ("Request failed with status " ++ string_of_Z st) None.

(** The field error of the 422 example. *)
Definition phone_error : ValidationError :=
  {| loc := [inl "body"; inl "phone"]; msg := "required"; type := "missing" |}.

(** [{"detail":[{"loc":["body","phone"],"msg":"required","type":"missing"}]}] *)
Definition phone_body : JsValue :=
  JObj [("detail", JArr [json_of_ValidationError phone_error])].

(** A response that declares JSON and whose body decodes to [d]. *)
Definition json_response (st : Z) (d : JsValue) : Response :=
  response_of st (Some "application/json") (Returned d).

(** [{"detail": []}] *)
Definition empty_detail_body : JsValue := JObj [("detail", JArr [])].

(** The world after the inner [catch] has logged a failed read. *)
Definition logged (resp : Response) (w : World) : World :=
  match declares_json resp, json resp with
  | true, Thrown parseError =>
      {| localStorage := localStorage w; clock := clock w; timers := timers w;
         console := console w ++ [("Failed to parse error response:", parseError)];
         requests := requests w; downloads := downloads w |}
  | _, _ => w
  end.

(** The same world at time [t]. *)
Definition advance_clock (t : Z) (w : World) : World :=
  {| localStorage := localStorage w; clock := t; timers := timers w;
     console := console w; requests := requests w; downloads := downloads w |}.

(** The request [api.auth.login] sends. *)
Definition login_request (w : World) (credentials : JsValue) : Request :=
  apiCall_request w "/api/auth/login"
    (Some {| init_method := Some "POST"; init_headers := None;
             init_body := Some (JsonText credentials) |})
    false.

(** [Date.parse] on the one timestamp the examples use. *)
Definition parse_2030 (s : string) : option Z :=
  if String.eqb s "2030-01-01T00:00:00Z" then Some 1893456000000 else None.

(** An [AuthResponse] expiring at the start of 2030. *)
Definition login_payload : JsValue :=
  JObj [("access_token", JStr "tok"); ("token_type", JStr "bearer");
        ("expires_at", JStr "2030-01-01T00:00:00Z")].

(** A [LoginRequest]. *)
Definition credentials_example : JsValue :=
  JObj [("username", JStr "agent"); ("password", JStr "secret")].

(** A second field error. *)
Definition name_error : ValidationError :=
  {| loc := [inl "body"; inl "name"]; msg := "too short"; type := "value_error" |}.

(** The typed error of a 422 answer listing [phone_error] and [name_error]. *)
Definition two_field_error : VoizmaticApiError :=
  {| this_message := "phone: required; name: too short";
     this_status := Some 422;
     this_statusText := Some "";
     this_validationErrors :=
       Some (map json_of_ValidationError [phone_error; name_error]) |}.

(** * The rest of the client and its callers *)

(** ** The other methods of [api.auth] *)

Section Api.

(** The remote service, as in [Client]. *)
Variable fetch : Request -> Outcome Response.

(** [api.auth.register] *)
Definition register (data : JsValue) : M JsValue :=
  do response <- apiCall fetch "/api/auth/register"
                   (Some {| init_method := Some "POST"; init_headers := None;
                            init_body := Some (JsonText data) |})
                   false;
  do access_token <- lift (js_get response "access_token");
  do expires_at <- lift (js_get response "expires_at");
  run tokenManager.setToken access_token expires_at;
  ret response.

(** [api.auth.logout] *)
Definition auth_logout : M JsValue :=
  do response <- apiCall fetch "/api/auth/logout"
                   (Some {| init_method := Some "POST"; init_headers := None;
                            init_body := None |})
                   true;
  run tokenManager.clearToken;
  ret response.

(** [api.auth.getProfile] *)
Definition getProfile : M JsValue :=
  apiCall fetch "/api/auth/profile"
    (Some {| init_method := Some "GET"; init_headers := None; init_body := None |})
    true.

End Api.

(** ** More error handling utilities *)

(** Get recommended action message for user. *)
Definition getErrorActionMessage (error : ErrorValue) : string :=
  if isNetworkError error then
    "Please check your internet connection and try again."
  else if isAuthError error then
    "Please log in again to continue."
  else if isPermissionError error then
    "You do not have permission to perform this action. Contact your administrator if you believe this is a mistake."
  else if isValidationError error then
    "Please review your input and try again."
  else if isServerError error then
    "The server is experiencing issues. Please try again later or contact support if the problem persists."
  else if isNotFoundError error then
    "The requested resource was not found."
  else
    "Please try again or contact support if the problem persists.".

(** [e => `  - ${e.loc.join('.')}: ${e.msg} (${e.type})`]: only an array
    has [join]. *)
Definition log_entry (e : JsValue) : Outcome string :=
  let! locv := js_get e "loc" in
  let! joined :=
    match locv with
    | JArr elems => Array_join "." elems
    | JUndefined | JNull =>
        Thrown (TypeError "Cannot read properties of undefined (reading 'join')")
    | _ => Thrown (TypeError "e.loc.join is not a function")
    end in
  let! m := js_get e "msg" in
  let! ms := ToString m in
  let! t := js_get e "type" in
  let! ts := ToString t in
  Returned ("  - " ++ joined ++ ": " ++ ms ++ " (" ++ ts ++ ")").

(** [parts.filter(Boolean)]: drops [null] and the empty string. *)
Fixpoint filter_Boolean (parts : list (option string)) : list string :=
  match parts with
  | [] => []
  | Some s :: rest => if nonempty s then s :: filter_Boolean rest else filter_Boolean rest
  | None :: rest => filter_Boolean rest
  end.

(** Format error for logging/debugging.  [stack] is the value of
    [error.stack], read only for an [Error] that is not a
    [VoizmaticApiError]. *)
Definition formatErrorForLogging (stack : JsValue) (error : ErrorValue) : Outcome string :=
  match error with
  | VoizmaticApiErrorOf e =>
      let p1 := Some ("VoizmaticApiError: " ++ this_message e) in
      let p2 := match this_status e with
                | Some st => if st =? 0 then None else Some ("Status: " ++ string_of_Z st)
                | None => None
                end in
      let p3 := match this_statusText e with
                | Some t => if nonempty t then Some ("Status Text: " ++ t) else None
                | None => None
                end in
      let! p4 := match this_validationErrors e with
                 | Some entries =>
                     let! lines := Array_map log_entry entries in
                     Returned (Some ("Validation Errors:" ++ newline
                                     ++ String.concat newline lines))
                 | None => Returned None
                 end in
      Returned (String.concat newline (filter_Boolean [p1; p2; p3; p4]))
  | ErrorOf _ name m =>
      let! st := ToString stack in
      Returned (name ++ ": " ++ m ++ newline ++ "Stack: " ++ st)
  | PlainValue v => ToString v
  end.

(** [console.error(text, value)], on the same console as the warnings. *)
Definition console_error (text : string) (e : ErrorValue) : M unit :=
  console_warn text e.

(** Show error in console with proper formatting. *)
Definition logError (stack : JsValue) (error : ErrorValue) (context : option string) : M unit :=
  let prefix := if present context then "[" ++ default "" context ++ "]" else "[Error]" in
  do text <- lift (formatErrorForLogging stack error);
  console_error prefix (PlainValue (JStr text)).

(** ** [ErrorAlert] *)

(** [getTitle] of [ErrorAlert], with [severity = getErrorSeverity(error)]. *)
Definition getTitle (error : ErrorValue) : string :=
  let severity := getErrorSeverity error in
  if isNetworkError error then "Connection Error"
  else if isAuthError error then "Authentication Required"
  else if isValidationError error then "Validation Error"
  else match severity with
       | Critical => "Server Error"
       | Warning => "Warning"
       | Info => "Notice"
       | Error => "Error"
       end.

(** The [<li>] items of [getErrorContent]: the field shown in bold and the
    message beside it, one pair per validation error. *)
Definition field_items (entries : list JsValue) : Outcome (list (string * JsValue)) :=
  Array_map (fun ve =>
               let! field := field_of ve in
               let! m := js_get ve "msg" in
               Returned (field, m)) entries.

(** ** [AuthContext] *)

(** The state hooks of [AuthProvider]; [auth_user] is [JNull] for [null]. *)
Record AuthState : Type := {
  auth_user : JsValue;
  auth_isLoading : bool;
  auth_error : option string
}.

(** [isAuthenticated: !!user] *)
Definition isAuthenticated (st : AuthState) : bool := truthy (auth_user st).

(** [s.split('@')[0]] *)
Fixpoint before_at (s : string) : string :=
  match s with
  | EmptyString => EmptyString
  | String c rest => if Ascii.eqb c "@" then EmptyString else String c (before_at rest)
  end.

(** [email.split('@')[0]]: only a string has [split]. *)
Definition email_prefix (email : JsValue) : Outcome JsValue :=
  match email with
  | JStr s => Returned (JStr (before_at s))
  | JUndefined | JNull =>
      Thrown (TypeError "Cannot read properties of undefined (reading 'split')")
  | _ => Thrown (TypeError "profile.user.email.split is not a function")
  end.

(** Convert API profile response to User type.  The names read here
    ([user], [id], [email], [full_name], [credits]) are own properties or
    absent, as those [js_get] was written for. *)
Definition profileToUser (profile : JsValue) : Outcome JsValue :=
  let! u1 := js_get profile "user" in
  let! id := js_get u1 "id" in
  let! u2 := js_get profile "user" in
  let! email := js_get u2 "email" in
  let! u3 := js_get profile "user" in
  let! full_name := js_get u3 "full_name" in
  let! credits := js_get profile "credits" in
  let! u4 := js_get profile "user" in
  let! email' := js_get u4 "email" in
  let! username := email_prefix email' in
  Returned (JObj [("id", id); ("email", email); ("full_name", full_name);
                  ("credits", credits); ("username", username);
                  ("role", JStr "user")]).

(** [err instanceof Error ? err.message : fallback] *)
Definition message_or (fallback : string) (err : ErrorValue) : string :=
  match err with
  | VoizmaticApiErrorOf e => this_message e
  | ErrorOf _ _ m => m
  | PlainValue _ => fallback
  end.

Section AuthContext.

Variable fetch : Request -> Outcome Response.
(** [Date_parse] as in [tokenManager.isTokenValid]; [JSON_stringify] and
    [JSON_parse] are the engine's serializer and parser. *)
Variable Date_parse : string -> option Z.
Variable JSON_stringify : JsValue -> string.
Variable JSON_parse : string -> Outcome JsValue.

(** The shared tail of the session functions: fetch the profile, convert
    it, set the user and persist it under ['currentUser']. *)
Definition load_profile (st : AuthState) : M AuthState :=
  do profile <- getProfile fetch;
  do userData <- lift (profileToUser profile);
  run setItem "currentUser" (JStr (JSON_stringify userData));
  ret {| auth_user := userData; auth_isLoading := auth_isLoading st;
         auth_error := auth_error st |}.

(** Check for existing session on mount. *)
Definition checkExistingSession (st : AuthState) : M AuthState :=
  do valid <- tokenManager.isTokenValid Date_parse;
  do st' <-
    (if valid then
       try_catch (load_profile st)
         (fun err =>
            run tokenManager.clearToken;
            run removeItem "currentUser";
            ret st)
     else
       do storedUser <- getItem "currentUser";
       do token <- tokenManager.getToken;
       if present storedUser && present token then
         do u <- lift (JSON_parse (default "" storedUser));
         ret {| auth_user := u; auth_isLoading := auth_isLoading st;
                auth_error := auth_error st |}
       else ret st);
  ret {| auth_user := auth_user st'; auth_isLoading := false;
         auth_error := auth_error st' |}.

(** [login] of the context: the result and the state once the [finally]
    has run. *)
Definition AuthContext_login (username password : string) (st : AuthState)
    : M (bool * AuthState) :=
  let st1 := {| auth_user := auth_user st; auth_isLoading := true; auth_error := None |} in
  try_catch
    (run login fetch (JObj [("username", JStr username); ("password", JStr password)]);
     do st2 <- load_profile st1;
     ret (true, {| auth_user := auth_user st2; auth_isLoading := false;
                   auth_error := auth_error st2 |}))
    (fun err =>
       ret (false, {| auth_user := auth_user st1; auth_isLoading := false;
                      auth_error := Some (message_or "Login failed" err) |})).

(** [register] of the context; [fullName] is [JUndefined] when omitted. *)
Definition AuthContext_register (username password : string) (fullName : JsValue)
    (st : AuthState) : M (bool * AuthState) :=
  let st1 := {| auth_user := auth_user st; auth_isLoading := true; auth_error := None |} in
  try_catch
    (run register fetch (JObj [("username", JStr username); ("password", JStr password);
                               ("full_name", fullName)]);
     do st2 <- load_profile st1;
     ret (true, {| auth_user := auth_user st2; auth_isLoading := false;
                   auth_error := auth_error st2 |}))
    (fun err =>
       ret (false, {| auth_user := auth_user st1; auth_isLoading := false;
                      auth_error := Some (message_or "Registration failed" err) |})).

(** [logout] of the context. *)
Definition AuthContext_logout (st : AuthState) : M AuthState :=
  run try_catch
        (run auth_logout fetch; ret tt)
        (fun err => console_error "Logout API error:" err);
  run tokenManager.clearToken;
  run removeItem "currentUser";
  ret {| auth_user := JNull; auth_isLoading := auth_isLoading st;
         auth_error := auth_error st |}.

(** [refreshProfile] *)
Definition refreshProfile (st : AuthState) : M AuthState :=
  do valid <- tokenManager.isTokenValid Date_parse;
  if negb valid then ret st
  else
    try_catch (load_profile st)
      (fun err =>
         run console_error "Failed to refresh profile:" err;
         ret st).

End AuthContext.

(** ** Vocabulary of the further properties *)

(** The storage once both token keys are gone. *)
Definition without_token (m : gmap string string) : gmap string string :=
  delete TOKEN_EXPIRY_KEY (delete TOKEN_KEY m).

(** The request the upload and download helpers hand to [fetch]. *)
Definition transfer_request (w : World) (endpoint verb : string)
    (payload : option RequestBody) (requiresAuth : bool) : Request :=
  {| url := API_BASE_URL ++ endpoint;
     method := Some verb;
     headers := bearer w requiresAuth ∅;
     body := payload |}.

(** The error thrown on a 401 answer. *)
Definition session_expired (resp : Response) : VoizmaticApiError :=
  {| this_message := "Session expired. Please login again.";
     this_status := Some 401;
     this_statusText := Some (resp_statusText resp);
     this_validationErrors := None |}.

(** The world after the 401 branch: request sent, token forgotten, redirect
    queued. *)
Definition logged_out (rq : Request) (w : World) : World :=
  {| localStorage := without_token (localStorage w);
     clock := clock w;
     timers := timers w ++ [(100, "/")];
     console := console w;
     requests := requests w ++ [rq];
     downloads := downloads w |}.

(** A typed error that carries a message and nothing else. *)
Definition bare_error (m : string) : VoizmaticApiError :=
  {| this_message := m; this_status := None; this_statusText := None;
     this_validationErrors := None |}.

(** What the outer [catch] of a wrapper rethrows, given the wrapper's text
    for a [TypeError] and its text for a thrown value that is no [Error]. *)
Definition normalize (network fallback : string) (err : ErrorValue) : ErrorValue :=
  match err with
  | VoizmaticApiErrorOf _ => err
  | ErrorOf true _ _ => VoizmaticApiErrorOf (bare_error network)
  | ErrorOf false _ m => VoizmaticApiErrorOf (bare_error m)
  | PlainValue _ => VoizmaticApiErrorOf (bare_error fallback)
  end.

Definition apiCall_network : string :=
  "Network error. Please check your internet connection.".
Definition apiUpload_network : string :=
  "Network error during upload. Please check your internet connection.".
Definition apiDownload_network : string :=
  "Network error during download. Please check your internet connection.".

(** The completion of a wrapper once the body of its [try] has completed
    with [o]. *)
Definition caught {A} (network fallback : string) (o : Outcome A) : Outcome A :=
  match o with
  | Returned a => Returned a
  | Thrown err => Thrown (normalize network fallback err)
  end.

(** The world after the inner [catch] of a wrapper has logged a failed
    read under [label]. *)
Definition logged_as (label : string) (resp : Response) (w : World) : World :=
  match declares_json resp, json resp with
  | true, Thrown parseError =>
      {| localStorage := localStorage w; clock := clock w; timers := timers w;
         console := console w ++ [(label, parseError)];
         requests := requests w; downloads := downloads w |}
  | _, _ => w
  end.

(** The typed error for a non-2xx answer other than 401, or what the outer
    [catch] makes of a failure of [parseApiError]. *)
Definition rejected {A} (network fallback : string) (resp : Response) : Outcome A :=
  match parseApiError resp (error_data resp) with
  | Returned a => Thrown (VoizmaticApiErrorOf (new_VoizmaticApiError a))
  | Thrown err => Thrown (normalize network fallback err)
  end.

(** What a wrapper may have changed besides its result: one request more,
    and either nothing else in storage and timers, or, on a 401 answer, the
    token forgotten and one redirect queued. *)
Definition footprint {A} (fetch : Request -> Outcome Response) (w : World)
    (rq : Request) (res : Outcome A * World) : Prop :=
  requests (snd res) = (requests w ++ [rq])%list /\
  clock (snd res) = clock w /\
  match fetch rq with
  | Returned resp =>
      if resp_status resp =? 401 then
        localStorage (snd res) = without_token (localStorage w) /\
        timers (snd res) = (timers w ++ [(100, "/")])%list /\
        fst res = Thrown (VoizmaticApiErrorOf (session_expired resp))
      else
        localStorage (snd res) = localStorage w /\ timers (snd res) = timers w
  | Thrown _ =>
      localStorage (snd res) = localStorage w /\ timers (snd res) = timers w
  end.

(** The engine's own exception, the only kind the value operations raise. *)
Definition is_TypeError (err : ErrorValue) : Prop := exists m, err = TypeError m.

(** The environment raises its own exceptions, never a [VoizmaticApiError]:
    neither [fetch] for this request nor [json()] on its answer. *)
Definition foreign_failures (fetch : Request -> Outcome Response) (rq : Request) : Prop :=
  (forall e, fetch rq <> Thrown (VoizmaticApiErrorOf e)) /\
  (forall resp e, fetch rq = Returned resp -> json resp <> Thrown (VoizmaticApiErrorOf e)).

(** The typed error of the 422 example. *)
Definition phone_typed_error : VoizmaticApiError :=
  {| this_message := "phone: required";
     this_status := Some 422;
     this_statusText := Some "";
     this_validationErrors := Some [json_of_ValidationError phone_error] |}.

(** The request [api.auth.register] sends. *)
Definition register_request (w : World) (data : JsValue) : Request :=
  apiCall_request w "/api/auth/register"
    (Some {| init_method := Some "POST"; init_headers := None;
             init_body := Some (JsonText data) |})
    false.

(** The request [api.auth.logout] sends. *)
Definition logout_request (w : World) : Request :=
  apiCall_request w "/api/auth/logout"
    (Some {| init_method := Some "POST"; init_headers := None; init_body := None |})
    true.

(** The request [api.auth.getProfile] sends. *)
Definition profile_request (w : World) : Request :=
  apiCall_request w "/api/auth/profile"
    (Some {| init_method := Some "GET"; init_headers := None; init_body := None |})
    true.

(** What [isTokenValid] answers in a world. *)
Definition token_valid (Date_parse : string -> option Z) (w : World) : bool :=
  present (localStorage w !! TOKEN_KEY)
  && present (localStorage w !! TOKEN_EXPIRY_KEY)
  && match Date_parse (default "" (localStorage w !! TOKEN_EXPIRY_KEY)) with
     | Some ms => clock w <? ms
     | None => false
     end.

(** A server that accepts the login and answers everything else with 401. *)
Definition login_then_401 (rq : Request) : Outcome Response :=
  if String.eqb (url rq) (API_BASE_URL ++ "/api/auth/login")
  then Returned (json_response 200 login_payload)
  else Returned (response_of 401 None not_json).

(** A [ProfileResponse]. *)
Definition profile_example : JsValue :=
  JObj [("user", JObj [("id", JNum 7); ("email", JStr "agent@example.com");
                       ("full_name", JStr "Agent Smith")]);
        ("credits", JNum 120)].

(** A server that answers the profile request with [profile_example] and
    every other request with [login_payload]. *)
Definition serving_profile (rq : Request) : Outcome Response :=
  if String.eqb (url rq) (API_BASE_URL ++ "/api/auth/profile")
  then Returned (json_response 200 profile_example)
  else Returned (json_response 200 login_payload).

(** A state of the provider before anyone has logged in. *)
Definition signed_out : AuthState :=
  {| auth_user := JNull; auth_isLoading := false; auth_error := None |}.

(** One field error as the log shows it: the whole location, the message
    and the kind. *)
Definition log_text (ve : ValidationError) : string :=
  "  - " ++ String.concat "." (map segment_string (loc ve)) ++ ": " ++ msg ve
  ++ " (" ++ type ve ++ ")".

(** The status and status-text lines of the log, when they are shown. *)
Definition status_lines (e : VoizmaticApiError) : list string :=
  match this_status e with
  | Some st => if st =? 0 then [] else ["Status: " ++ string_of_Z st]
  | None => []
  end ++
  match this_statusText e with
  | Some t => if nonempty t then ["Status Text: " ++ t] else []
  | None => []
  end.

(** * Properties *)

(** ** The primitives on concrete inputs *)

Example includes_content_type :
  includes "application/json" "application/json; charset=utf-8" = true /\
  includes "application/json" "text/html" = false.
Proof. split; reflexivity. Qed.

Example toLowerCase_network : toLowerCase "Network Error" = "network error".
Proof. reflexivity. Qed.

Example ToString_nested :
  ToString (JArr [JNum 1; JNull; JArr [JStr "a"; JStr "b"]; JObj []]) =
  Returned "1,,a,b,[object Object]".
Proof. reflexivity. Qed.

Example fallback_message_unlisted :
  fallback_message 418 = "Request failed with status 418".
Proof. reflexivity. Qed.

Example fallback_message_400 :
  fallback_message 400 = "Request failed with status 400".
Proof. reflexivity. Qed.

Example fallback_message_500 :
  fallback_message 500 = "Internal server error. Please try again later.".
Proof. reflexivity. Qed.

(** ** Every failure of the transport wrapper is a typed error *)

Ltac unfold_client :=
  unfold apiCall, apiUpload, apiDownload, apiDownloadBlob, do_fetch,
    tokenManager.getToken, tokenManager.clearToken, getItem, removeItem,
    setTimeout_redirect, console_warn, save_as, try_catch, bind, ret, throw, lift.

Ltac split_cases :=
  repeat (first
    [ progress cbn -[parseApiError String.append] in *
    | progress simplify_eq
    | case_match ]).

Ltac answered :=
  eexists _, _; rewrite last_snoc;
  split; [reflexivity|]; split; [eassumption|];
  split; [by apply negb_false_iff|]; split; [by apply Z.eqb_neq|].

Lemma apiCall_normalized fetch endpoint options requiresAuth w :
  normalized fetch
    (fun resp payload _ =>
       if declares_json resp then json resp = Returned payload
       else payload = JObj [])
    (apiCall fetch endpoint options requiresAuth w).
Proof.
  unfold normalized, answered_ok. unfold_client.
  split_cases; eauto; answered; split_cases; congruence.
Qed.

Lemma apiUpload_normalized fetch endpoint formData requiresAuth w :
  normalized fetch (fun resp payload _ => json resp = Returned payload)
    (apiUpload fetch endpoint formData requiresAuth w).
Proof.
  unfold normalized, answered_ok. unfold_client.
  split_cases; eauto; answered; congruence.
Qed.

Lemma apiDownload_normalized fetch endpoint filename requiresAuth w :
  normalized fetch
    (fun resp _ w' =>
       exists b, blob resp = Returned b /\
                 downloads w' = (downloads w ++ [(filename, b)])%list)
    (apiDownload fetch endpoint filename requiresAuth w).
Proof.
  unfold normalized, answered_ok. unfold_client.
  split_cases; eauto; answered; eauto.
Qed.

Lemma apiDownloadBlob_normalized fetch endpoint requiresAuth w :
  normalized fetch (fun resp b _ => blob resp = Returned b)
    (apiDownloadBlob fetch endpoint requiresAuth w).
Proof.
  unfold normalized, answered_ok. unfold_client.
  split_cases; eauto; answered; congruence.
Qed.

(** C1: whenever a call through [apiCall], [apiUpload], [apiDownload] or
    [apiDownloadBlob] does not return normally, the value it throws is a
    [VoizmaticApiError]; and it returns normally only when the request was
    answered with a 2xx status and the body was read without failure, so a
    non-2xx status, an unreadable body and a rejected [fetch] all end in the
    typed error. *)
Theorem transport_failures_are_typed (fetch : Request -> Outcome Response) (w : World) :
  (forall endpoint options requiresAuth,
      normalized fetch
        (fun resp payload _ =>
           if declares_json resp then json resp = Returned payload
           else payload = JObj [])
        (apiCall fetch endpoint options requiresAuth w)) /\
  (forall endpoint formData requiresAuth,
      normalized fetch (fun resp payload _ => json resp = Returned payload)
        (apiUpload fetch endpoint formData requiresAuth w)) /\
  (forall endpoint filename requiresAuth,
      normalized fetch
        (fun resp _ w' =>
           exists b, blob resp = Returned b /\
                     downloads w' = (downloads w ++ [(filename, b)])%list)
        (apiDownload fetch endpoint filename requiresAuth w)) /\
  (forall endpoint requiresAuth,
      normalized fetch (fun resp b _ => blob resp = Returned b)
        (apiDownloadBlob fetch endpoint requiresAuth w)).
Proof.
  repeat split; intros.
  - apply apiCall_normalized.
  - apply apiUpload_normalized.
  - apply apiDownload_normalized.
  - apply apiDownloadBlob_normalized.
Qed.

(** ** The request a call sends *)

Ltac unfold_request := unfold apiCall_request, bearer, sent in *.

Ltac enter_call r w Hf :=
  unfold_request; unfold_client; cbn -[parseApiError] in Hf |- *;
  destruct r; cbn -[parseApiError] in Hf |- *;
  [ destruct (present (localStorage w !! TOKEN_KEY)); cbn -[parseApiError] in Hf |- * | ];
  rewrite Hf; cbn -[parseApiError].

Lemma apiCall_sends fetch endpoint options requiresAuth w :
  requests (snd (apiCall fetch endpoint options requiresAuth w)) =
  (requests w ++ [apiCall_request w endpoint options requiresAuth])%list.
Proof.
  unfold_request. unfold_client. split_cases; reflexivity.
Qed.

Lemma apiCall_unauthorized fetch endpoint options requiresAuth w resp :
  fetch (apiCall_request w endpoint options requiresAuth) = Returned resp ->
  resp_status resp = 401 ->
  apiCall fetch endpoint options requiresAuth w =
  (Thrown (VoizmaticApiErrorOf
     {| this_message := "Session expired. Please login again.";
        this_status := Some 401;
        this_statusText := Some (resp_statusText resp);
        this_validationErrors := None |}),
   {| localStorage := delete TOKEN_EXPIRY_KEY (delete TOKEN_KEY (localStorage w));
      clock := clock w;
      timers := timers w ++ [(100, "/")];
      console := console w;
      requests := requests w ++ [apiCall_request w endpoint options requiresAuth];
      downloads := downloads w |}).
Proof.
  intros Hf H401. enter_call requiresAuth w Hf; rewrite H401; reflexivity.
Qed.

Lemma apiCall_error_status fetch endpoint options requiresAuth w resp a :
  fetch (apiCall_request w endpoint options requiresAuth) = Returned resp ->
  resp_status resp <> 401 ->
  ok resp = false ->
  parseApiError resp (error_data resp) = Returned a ->
  fst (apiCall fetch endpoint options requiresAuth w) =
  Thrown (VoizmaticApiErrorOf (new_VoizmaticApiError a)).
Proof.
  intros Hf H401 Hok Hp. apply Z.eqb_neq in H401. unfold error_data in Hp.
  enter_call requiresAuth w Hf; rewrite H401, Hok; cbn -[parseApiError];
    destruct (declares_json resp); cbn -[parseApiError];
    try destruct (json resp); cbn -[parseApiError]; rewrite Hp; reflexivity.
Qed.

(** ** 401: forced logout *)

(** C2: when the request is answered with status 401, whatever the body,
    [apiCall] throws the typed error with status 401 and the fixed
    session-expired message, and the world it leaves behind at the throw
    already has both token keys removed (nothing else in storage touched)
    and the redirect to ["/"] queued behind every earlier timer; the body
    is never read, so nothing is logged.  A caller that drops the error
    therefore finds no token and an invalid session. *)
Theorem unauthorized_clears_session
    (fetch : Request -> Outcome Response) (Date_parse : string -> option Z)
    endpoint options requiresAuth (w : World) (resp : Response) :
  fetch (apiCall_request w endpoint options requiresAuth) = Returned resp ->
  resp_status resp = 401 ->
  let res := apiCall fetch endpoint options requiresAuth w in
  fst res = Thrown (VoizmaticApiErrorOf
              {| this_message := "Session expired. Please login again.";
                 this_status := Some 401;
                 this_statusText := Some (resp_statusText resp);
                 this_validationErrors := None |}) /\
  localStorage (snd res) !! TOKEN_KEY = None /\
  localStorage (snd res) !! TOKEN_EXPIRY_KEY = None /\
  (forall k, k <> TOKEN_KEY -> k <> TOKEN_EXPIRY_KEY ->
             localStorage (snd res) !! k = localStorage w !! k) /\
  timers (snd res) = (timers w ++ [(100, "/")])%list /\
  console (snd res) = console w /\
  fst (tokenManager.getToken (snd res)) = Returned None /\
  fst (tokenManager.isTokenValid Date_parse (snd res)) = Returned false.
Proof.
  intros Hf H401 res. subst res.
  rewrite (apiCall_unauthorized _ _ _ _ _ _ Hf H401). cbn [fst snd localStorage timers console].
  assert (Hk : delete TOKEN_EXPIRY_KEY (delete TOKEN_KEY (localStorage w)) !! TOKEN_KEY = None).
  { rewrite lookup_delete_ne by discriminate. apply lookup_delete_eq. }
  repeat split.
  - exact Hk.
  - apply lookup_delete_eq.
  - intros k H1 H2. rewrite !lookup_delete_ne by congruence. reflexivity.
  - unfold tokenManager.getToken, getItem. cbn. by rewrite Hk.
  - unfold tokenManager.isTokenValid, getItem, bind, ret. cbn. by rewrite Hk.
Qed.

Lemma unauthorized_clears_session_witness :
  fst (apiCall (fun _ => Returned (response_of 401 None not_json))
         "/api/campaigns" None true logged_in_world) =
  Thrown (VoizmaticApiErrorOf
            {| this_message := "Session expired. Please login again.";
               this_status := Some 401;
               this_statusText := Some "";
               this_validationErrors := None |}).
Proof.
  apply (unauthorized_clears_session
           (fun _ => Returned (response_of 401 None not_json)) (fun _ => None)
           "/api/campaigns" None true logged_in_world
           (response_of 401 None not_json)); reflexivity.
Defined.

(** ** Only [TypeError]s come out of the value operations *)

Lemma js_get_throws (v : JsValue) (k : string) (err : ErrorValue) :
  js_get v k = Thrown err -> is_TypeError err.
Proof. destruct v; cbn; intros [= <-]; eexists; reflexivity. Qed.

Lemma ToString_array (elems : list JsValue) :
  ToString (JArr elems) = Array_join "," elems.
Proof.
  reflexivity.
Qed.

Lemma ToString_throws : forall (v : JsValue) (err : ErrorValue),
  ToString v = Thrown err -> is_TypeError err.
Proof.
  fix IH 1. intros v err. destruct v as [| |[]|n|s|elems|props]; try discriminate.
  - rewrite ToString_array. unfold Array_join.
    destruct (join_parts elems) as [parts|e] eqn:Hp; [discriminate|].
    cbn. intros [= <-]. revert e Hp.
    revert elems. fix IHl 1. intros [|x rest] e; [discriminate|].
    pose proof (IH x) as IHx.
    cbn [join_parts]. unfold join_part.
    destruct (match x with
              | JUndefined | JNull => Returned ""
              | _ => ToString x
              end) as [sx|ex] eqn:Hs; cbn [obind].
    + destruct (join_parts rest) as [ss|e'] eqn:Hr; cbn; [discriminate|].
      intros [= <-]. exact (IHl rest e' Hr).
    + intros [= <-]. apply IHx. by destruct x.
  - cbn. destruct (own_property "toString" props); [|discriminate].
    intros [= <-]. eexists; reflexivity.
Qed.

Lemma join_parts_throws (l : list JsValue) (err : ErrorValue) :
  join_parts l = Thrown err -> is_TypeError err.
Proof.
  induction l as [|x rest IH]; [discriminate|]. cbn [join_parts].
  destruct (join_part x) as [s|e] eqn:Hs; cbn [obind].
  - destruct (join_parts rest); cbn; [discriminate|]. intros [= <-]. by apply IH.
  - intros [= <-]. unfold join_part in Hs.
    destruct x; try discriminate; by eapply ToString_throws.
Qed.

Lemma render_entry_throws (entry : JsValue) (err : ErrorValue) :
  render_entry entry = Thrown err -> is_TypeError err.
Proof.
  unfold render_entry, field_of.
  destruct (js_get entry "loc") as [locv|e] eqn:Hl; cbn [obind];
    [|intros [= <-]; by eapply js_get_throws].
  destruct (slice1_join locv) as [joined|e] eqn:Hj; cbn [obind].
  - destruct (js_get entry "msg") as [m|e] eqn:Hm; cbn [obind];
      [|intros [= <-]; by eapply js_get_throws].
    destruct (ToString m) as [ms|e] eqn:Ht; cbn [obind]; [discriminate|].
    intros [= <-]. by eapply ToString_throws.
  - intros [= <-]. destruct locv; cbn in Hj; try (injection Hj as <-; eexists; reflexivity).
    unfold Array_join in Hj.
    destruct (join_parts (tail elems)) eqn:Hp; cbn in Hj; [discriminate|].
    injection Hj as <-. by eapply join_parts_throws.
Qed.

Lemma Array_map_render_throws (entries : list JsValue) (err : ErrorValue) :
  Array_map render_entry entries = Thrown err -> is_TypeError err.
Proof.
  induction entries as [|x rest IH]; [discriminate|]. cbn [Array_map].
  destruct (render_entry x) as [s|e] eqn:Hs; cbn [obind].
  - destruct (Array_map render_entry rest); cbn; [discriminate|].
    intros [= <-]. by apply IH.
  - intros [= <-]. by eapply render_entry_throws.
Qed.

Lemma parseApiError_throws (resp : Response) (d : JsValue) (err : ErrorValue) :
  parseApiError resp d = Thrown err -> is_TypeError err.
Proof.
  unfold parseApiError. destruct (truthy d); [|discriminate].
  destruct (js_get d "detail") as [detail|e] eqn:Hd; cbn [obind];
    [|intros [= <-]; by eapply js_get_throws].
  destruct (js_get d "message") as [m|e] eqn:Hm.
  - destruct detail; cbn; try discriminate; try (destruct m; discriminate).
    destruct (Array_map render_entry elems) eqn:Hp; cbn; [discriminate|].
    intros [= <-]. by eapply Array_map_render_throws.
  - destruct detail; cbn; try discriminate;
      try (intros [= <-]; by eapply js_get_throws).
    destruct (Array_map render_entry elems) eqn:Hp; cbn; [discriminate|].
    intros [= <-]. by eapply Array_map_render_throws.
Qed.

(** ** Rendering of field errors *)

Lemma join_parts_segments (l : list (string + Z)) :
  join_parts (map json_of_segment l) = Returned (map segment_string l).
Proof.
  induction l as [|[s|n] l IH]; cbn [map join_parts]; [reflexivity| |];
    rewrite IH; reflexivity.
Qed.

Lemma field_of_typed (ve : ValidationError) :
  field_of (json_of_ValidationError ve) = Returned (field_name (loc ve)).
Proof.
  unfold field_of, field_name, json_of_ValidationError. cbn.
  unfold Array_join.
  replace (tail (map json_of_segment (loc ve)))
    with (map json_of_segment (tail (loc ve))) by (by destruct (loc ve)).
  rewrite join_parts_segments. reflexivity.
Qed.

Lemma render_entry_typed (ve : ValidationError) :
  render_entry (json_of_ValidationError ve) = Returned (entry_text ve).
Proof.
  unfold render_entry. rewrite field_of_typed. reflexivity.
Qed.

Lemma Array_map_render_typed (ves : list ValidationError) :
  Array_map render_entry (map json_of_ValidationError ves) =
  Returned (map entry_text ves).
Proof.
  induction ves as [|ve ves IH]; [reflexivity|].
  cbn [map Array_map]. rewrite render_entry_typed, IH. reflexivity.
Qed.

Lemma nonempty_app_l (a b : string) : nonempty a = true -> nonempty (a ++ b) = true.
Proof. destruct a; [discriminate|reflexivity]. Qed.

(** ** The status table *)

Lemma status_specific_unlisted (st : Z) (m : string) (v : option (list JsValue)) :
  ~ In st status_table -> status_specific st m v = m.
Proof.
  intros H. unfold status_specific.
  destruct st as [|p|p]; try reflexivity.
  do 9 (try (destruct p as [p|p|]; try reflexivity)).
  all: exfalso; apply H; cbn; tauto.
Qed.

Lemma status_specific_fixed (st : Z) (m c : string) (v : option (list JsValue)) :
  fixed_message st = Some c -> status_specific st m v = c.
Proof.
  unfold fixed_message. intros H.
  repeat match type of H with
  | (if ?b then _ else _) = _ =>
      destruct b eqn:E;
      [ apply Z.eqb_eq in E; subst st; injection H as <-; reflexivity | clear E ]
  end.
  discriminate.
Qed.

(** ** What [parseApiError] makes of each body shape *)

Lemma js_get_object (d : JsValue) (k : string) (v : JsValue) :
  js_get d k = Returned v -> v <> JUndefined -> truthy d = true.
Proof. destruct d; cbn; congruence. Qed.

Lemma parseApiError_array (resp : Response) (d : JsValue)
    (entries : list JsValue) (parts : list string) :
  js_get d "detail" = Returned (JArr entries) ->
  Array_map render_entry entries = Returned parts ->
  parseApiError resp d =
  Returned {| message := status_specific (resp_status resp)
                           (String.concat "; " parts) (Some entries);
              status := Some (resp_status resp);
              statusText := Some (resp_statusText resp);
              validationErrors := Some entries;
              originalError := None |}.
Proof.
  intros Hd Hm. unfold parseApiError.
  rewrite (js_get_object _ _ _ Hd) by discriminate.
  rewrite Hd. cbn. rewrite Hm. reflexivity.
Qed.


Lemma fixed_message_none (st : Z) :
  fixed_message st = None -> st = 400 \/ st = 422 \/ ~ In st status_table.
Proof.
  unfold fixed_message, status_table. intros H.
  repeat match type of H with
  | (if ?b then _ else _) = _ =>
      let E := fresh "E" in
      destruct b eqn:E; [discriminate | apply Z.eqb_neq in E]
  end.
  destruct (decide (st = 400)) as [|N1]; [tauto|].
  destruct (decide (st = 422)) as [|N2]; [tauto|].
  right; right. cbn. intros [|[|[|[|[|[|[|[|[|[|[]]]]]]]]]]]; lia.
Qed.





(** ** Structured validation errors *)




(** ** String details and the fallback table *)




(** ** Status and message of the typed error *)

Lemma render_entry_nonempty (entry : JsValue) (s : string) :
  render_entry entry = Returned s -> nonempty s = true.
Proof.
  unfold render_entry, field_of.
  destruct (js_get entry "loc") as [locv|]; [|discriminate]. cbn.
  destruct (slice1_join locv) as [joined|]; [|discriminate]. cbn.
  destruct (js_get entry "msg") as [m|]; [|discriminate]. cbn.
  destruct (ToString m) as [ms|]; [|discriminate]. cbn.
  intros [= <-]. apply nonempty_app_l. by destruct (nonempty joined) eqn:E.
Qed.

Lemma rendered_entries_join (sep : string) (entries : list JsValue) (parts : list string) :
  Array_map render_entry entries = Returned parts ->
  String.concat sep parts = "" -> entries = [].
Proof.
  destruct entries as [|entry entries]; [reflexivity|]. cbn.
  destruct (render_entry entry) as [s|] eqn:Hs; [|discriminate]. cbn.
  destruct (Array_map render_entry entries) as [ss|]; [|discriminate]. cbn.
  intros [= <-] Hc. apply render_entry_nonempty in Hs.
  destruct s; [discriminate|]. destruct ss; discriminate.
Qed.

Lemma parseApiError_validationErrors (resp : Response) (d : JsValue) (a : ApiError) :
  parseApiError resp d = Returned a ->
  status a = Some (resp_status resp) /\
  match validationErrors a with
  | Some entries =>
      exists parts,
        Array_map render_entry entries = Returned parts /\
        message a = status_specific (resp_status resp)
                      (String.concat "; " parts) (Some entries)
  | None =>
      exists m, message a = status_specific (resp_status resp) m None
  end.
Proof.
  unfold parseApiError.
  destruct (truthy d); [|intros [= <-]; cbn; eauto].
  destruct (js_get d "detail") as [detail|]; [|discriminate]. cbn.
  destruct (js_get d "message") as [m|] eqn:Hm.
  - destruct detail; cbn;
      try (destruct m; intros [= <-]; cbn; eauto; fail);
      try (intros [= <-]; cbn; eauto; fail).
    destruct (Array_map render_entry elems) as [parts|] eqn:Hp; [|discriminate].
    intros [= <-]. cbn. eauto.
  - destruct detail; cbn; try discriminate;
      try (intros [= <-]; cbn; eauto; fail).
    destruct (Array_map render_entry elems) as [parts|] eqn:Hp; [|discriminate].
    intros [= <-]. cbn. eauto.
Qed.

Lemma fixed_message_nonempty (st : Z) (c : string) :
  fixed_message st = Some c -> nonempty c = true.
Proof.
  unfold fixed_message. intros H.
  repeat match type of H with
  | (if ?b then _ else _) = _ => destruct b; [by injection H as <-|]
  end.
  discriminate.
Qed.

(** Among the listed statuses, the error [parseApiError] returns carries
    the status, and its message is empty only at 422 with an empty array of
    validation errors. *)
Lemma listed_status_empty_message (resp : Response) (d : JsValue) (a : ApiError) :
  parseApiError resp d = Returned a ->
  In (resp_status resp) status_table ->
  status a = Some (resp_status resp) /\
  (message a = "" -> resp_status resp = 422 /\ validationErrors a = Some []).
Proof.
  intros Hp Hin. destruct (parseApiError_validationErrors _ _ _ Hp) as [Hs Hv].
  split; [exact Hs|]. intros Hempty.
  destruct (fixed_message (resp_status resp)) as [c|] eqn:Hfix.
  - exfalso. apply fixed_message_nonempty in Hfix as Hc.
    destruct (validationErrors a) as [entries|].
    + destruct Hv as (parts & _ & Hm).
      rewrite (status_specific_fixed _ _ c _ Hfix), Hempty in Hm. by subst c.
    + destruct Hv as (m & Hm).
      rewrite (status_specific_fixed _ _ c _ Hfix), Hempty in Hm. by subst c.
  - destruct (fixed_message_none _ Hfix) as [E|[E|E]]; [| |contradiction].
    + exfalso. rewrite E in Hv.
      destruct (validationErrors a) as [entries|];
        [destruct Hv as (parts & _ & Hm)|destruct Hv as (m & Hm)];
        rewrite Hempty in Hm; cbn in Hm;
        match type of Hm with context [nonempty ?x] => destruct x end;
        discriminate.
    + split; [exact E|]. rewrite E in Hv.
      destruct (validationErrors a) as [entries|].
      * destruct Hv as (parts & Hparts & Hm). cbn in Hm. rewrite Hempty in Hm.
        f_equal. eapply rendered_entries_join; [exact Hparts|by symmetry].
      * destruct Hv as (m & Hm). rewrite Hempty in Hm. discriminate.
Qed.

(** An entry without [loc] makes the rendering throw inside the [try]; the
    outer [catch] reports the [TypeError] as a network error, without
    status. *)
Example malformed_entry_reported_as_network_error :
  fst (apiCall (fun _ => Returned (json_response 422 (JObj [("detail", JArr [JObj []])])))
         "/api/contacts" None true empty_world) =
  Thrown (VoizmaticApiErrorOf
            {| this_message := "Network error. Please check your internet connection.";
               this_status := None; this_statusText := None;
               this_validationErrors := None |}).
Proof. vm_compute. reflexivity. Qed.

(** C5: the code at the failing input.  A 422 answer whose body is
    [{"detail": []}] yields a typed error with status 422, an empty list of
    validation errors, and the empty string as its message. *)
Theorem empty_detail_array_gives_empty_message :
  fst (apiCall (fun _ => Returned (json_response 422 empty_detail_body))
         "/api/contacts" None true empty_world) =
  Thrown (VoizmaticApiErrorOf
            {| this_message := "";
               this_status := Some 422;
               this_statusText := Some "";
               this_validationErrors := Some [] |}).
Proof.
  etransitivity;
    [ eapply apiCall_error_status; [reflexivity|cbn; lia|reflexivity|reflexivity]
    | reflexivity ].
Qed.

(** ** Unreadable error bodies *)




(** ** Token validity *)

Lemma nonempty_true (s : string) : nonempty s = true <-> s <> "".
Proof. destruct s; cbn; split; congruence. Qed.

Lemma present_Some (o : option string) :
  present o = true <-> exists s, o = Some s /\ s <> "".
Proof.
  destruct o as [s|]; cbn.
  - rewrite nonempty_true. split; [eauto|]. by intros (? & [= <-] & ?).
  - split; [discriminate|]. by intros (? & ? & ?).
Qed.

Lemma isTokenValid_reads (Date_parse : string -> option Z) (w : World) :
  tokenManager.isTokenValid Date_parse w =
  (Returned
     (present (localStorage w !! TOKEN_KEY)
      && present (localStorage w !! TOKEN_EXPIRY_KEY)
      && match Date_parse (default "" (localStorage w !! TOKEN_EXPIRY_KEY)) with
         | Some ms => clock w <? ms
         | None => false
         end), w).
Proof.
  unfold tokenManager.isTokenValid, getItem, now, bind, ret.
  destruct (present (localStorage w !! TOKEN_KEY));
    destruct (present (localStorage w !! TOKEN_EXPIRY_KEY)); reflexivity.
Qed.

Lemma ok_not_401 (resp : Response) : ok resp = true -> (resp_status resp =? 401) = false.
Proof. unfold ok. intros H. apply Z.eqb_neq. lia. Qed.

Lemma apiCall_success fetch endpoint options requiresAuth w resp payload :
  fetch (apiCall_request w endpoint options requiresAuth) = Returned resp ->
  ok resp = true ->
  declares_json resp = true ->
  json resp = Returned payload ->
  apiCall fetch endpoint options requiresAuth w =
  (Returned payload, sent (apiCall_request w endpoint options requiresAuth) w).
Proof.
  intros Hf Hok Hj Hp. pose proof (ok_not_401 _ Hok) as H401.
  enter_call requiresAuth w Hf; rewrite H401, Hok, Hj, Hp; reflexivity.
Qed.

Lemma login_stores_token fetch credentials w resp payload token expiry :
  fetch (login_request w credentials) = Returned resp ->
  ok resp = true ->
  declares_json resp = true ->
  json resp = Returned payload ->
  js_get payload "access_token" = Returned (JStr token) ->
  js_get payload "expires_at" = Returned (JStr expiry) ->
  login fetch credentials w =
  (Returned payload,
   with_localStorage (fun m => <[TOKEN_EXPIRY_KEY := expiry]> (<[TOKEN_KEY := token]> m))
     (sent (login_request w credentials) w)).
Proof.
  intros Hf Hok Hj Hp Ht He. unfold login, bind at 1.
  rewrite (apiCall_success _ _ _ _ _ _ _ Hf Hok Hj Hp).
  unfold bind, lift, ret, tokenManager.setToken, setItem, bind, lift.
  rewrite Ht, He. reflexivity.
Qed.

(** C7: [isTokenValid] only reads, never throws, and answers [true] exactly
    when a non-empty token and a non-empty expiry are stored and the expiry
    denotes a time strictly after the clock.  After a login that the server
    answers with a token and an expiry still ahead of the clock it answers
    [true]; with the clock at or past that expiry, and storage left as the
    login wrote it, it answers [false]. *)
Theorem token_valid_iff_unexpired (Date_parse : string -> option Z) :
  (forall w,
      snd (tokenManager.isTokenValid Date_parse w) = w /\
      (exists b, fst (tokenManager.isTokenValid Date_parse w) = Returned b) /\
      (fst (tokenManager.isTokenValid Date_parse w) = Returned true <->
       exists token expiry ms,
         localStorage w !! TOKEN_KEY = Some token /\ token <> "" /\
         localStorage w !! TOKEN_EXPIRY_KEY = Some expiry /\ expiry <> "" /\
         Date_parse expiry = Some ms /\ clock w < ms)) /\
  (forall (fetch : Request -> Outcome Response) credentials w resp payload
          token expiry ms,
      fetch (login_request w credentials) = Returned resp ->
      ok resp = true ->
      declares_json resp = true ->
      json resp = Returned payload ->
      js_get payload "access_token" = Returned (JStr token) ->
      js_get payload "expires_at" = Returned (JStr expiry) ->
      token <> "" -> expiry <> "" ->
      Date_parse expiry = Some ms ->
      clock w < ms ->
      let w' := snd (login fetch credentials w) in
      fst (login fetch credentials w) = Returned payload /\
      localStorage w' !! TOKEN_KEY = Some token /\
      localStorage w' !! TOKEN_EXPIRY_KEY = Some expiry /\
      fst (tokenManager.isTokenValid Date_parse w') = Returned true /\
      (forall later, ms <= later ->
         localStorage (advance_clock later w') = localStorage w' /\
         fst (tokenManager.isTokenValid Date_parse (advance_clock later w')) =
           Returned false)).
Proof.
  split.
  - intros w. rewrite isTokenValid_reads. cbn [fst snd].
    split; [reflexivity|]. split; [eauto|]. split.
    + intros [= H]. apply andb_prop in H as [H Hd]. apply andb_prop in H as [Ht He].
      apply present_Some in Ht as (token & Ht & Hne).
      apply present_Some in He as (expiry & He & Hne').
      rewrite He in Hd. cbn in Hd.
      destruct (Date_parse expiry) as [ms|] eqn:Hp; [|discriminate].
      exists token, expiry, ms. repeat split; try assumption. lia.
    + intros (token & expiry & ms & Ht & Hne & He & Hne' & Hp & Hlt).
      rewrite Ht, He. cbn. rewrite Hp.
      apply nonempty_true in Hne, Hne'. rewrite Hne, Hne'. cbn.
      f_equal. lia.
  - intros fetch credentials w resp payload token expiry ms
           Hf Hok Hj Hp Ht He Hne Hne' Hd Hlt w'. subst w'.
    rewrite (login_stores_token _ _ _ _ _ _ _ Hf Hok Hj Hp Ht He).
    cbn [fst snd].
    assert (Htok : (<[TOKEN_EXPIRY_KEY := expiry]> (<[TOKEN_KEY := token]> (localStorage w)))
                     !! TOKEN_KEY = Some token).
    { rewrite lookup_insert_ne by discriminate. apply lookup_insert_eq. }
    assert (Hexp : (<[TOKEN_EXPIRY_KEY := expiry]> (<[TOKEN_KEY := token]> (localStorage w)))
                     !! TOKEN_EXPIRY_KEY = Some expiry) by apply lookup_insert_eq.
    apply nonempty_true in Hne, Hne'.
    repeat split.
    + exact Htok.
    + exact Hexp.
    + rewrite isTokenValid_reads. cbn. rewrite Htok, Hexp. cbn.
      rewrite Hne, Hne', Hd. cbn. f_equal. lia.
    + rewrite isTokenValid_reads. cbn. rewrite Htok, Hexp. cbn.
      rewrite Hne, Hne', Hd. cbn. f_equal. lia.
Qed.

Lemma token_valid_iff_unexpired_witness :
  let w' := snd (login (fun _ => Returned (json_response 200 login_payload))
                   credentials_example empty_world) in
  fst (tokenManager.isTokenValid parse_2030 w') = Returned true /\
  fst (tokenManager.isTokenValid parse_2030 (advance_clock 1893456000000 w')) =
    Returned false.
Proof.
  intros w'.
  destruct (proj2 (token_valid_iff_unexpired parse_2030)
              (fun _ => Returned (json_response 200 login_payload))
              credentials_example empty_world
              (json_response 200 login_payload) login_payload
              "tok" "2030-01-01T00:00:00Z" 1893456000000)
    as (_ & _ & _ & Hvalid & Hlater);
    try reflexivity; try discriminate.
  split; [exact Hvalid|].
  apply (Hlater 1893456000000). lia.
Defined.

(** ** Severity *)

Ltac status_cases :=
  unfold getErrorSeverity, isValidationError, isAuthError, isPermissionError,
    isNotFoundError, isServerError in *;
  repeat case_bool_decide; simplify_eq; cbn in *;
  repeat case_match; simplify_eq; cbn in *;
  try reflexivity; try discriminate; try lia.






(** ** The two renderings of a validation error *)

(** C9, as stated, fails: for the typed error of a 422 answer with two field
    errors, [getErrorMessage] gives the newline-joined form, which is not
    the ["; "]-joined form kept in the error's message. *)
Lemma getErrorMessage_counterexample :
  fst (apiCall (fun _ => Returned
                  (json_response 422
                     (JObj [("detail",
                             JArr (map json_of_ValidationError [phone_error; name_error]))])))
         "/api/contacts" None true empty_world) =
    Thrown (VoizmaticApiErrorOf two_field_error) /\
  getErrorMessage (VoizmaticApiErrorOf two_field_error) =
    Returned ("phone: required" ++ newline ++ "name: too short") /\
  getErrorMessage (VoizmaticApiErrorOf two_field_error) <>
    Returned (String.concat "; " (map entry_text [phone_error; name_error])).
Proof.
  split; [|split; [reflexivity|discriminate]].
  etransitivity;
    [ eapply apiCall_error_status; [reflexivity|cbn; lia|reflexivity|reflexivity]
    | reflexivity ].
Qed.

(** C9, amended: for a typed error carrying a non-empty list of field
    errors, [getErrorMessage] equals the newline-joined rendering of the
    entries, the one [getValidationErrorMessage] builds, and depends on the
    list alone; the ["; "]-joined rendering of the same entries is the
    message [parseApiError] gives the error at 422 and at statuses outside
    the table.  The two strings are the same entries under two separators,
    and are equal when the list has one entry. *)
Theorem validation_message_forms (e : VoizmaticApiError) (ves : list ValidationError) :
  ves <> [] ->
  this_validationErrors e = Some (map json_of_ValidationError ves) ->
  getErrorMessage (VoizmaticApiErrorOf e) =
    Returned (String.concat newline (map entry_text ves)) /\
  getValidationErrorMessage e =
    Returned (String.concat newline (map entry_text ves)) /\
  (forall e',
      this_validationErrors e' = this_validationErrors e ->
      getErrorMessage (VoizmaticApiErrorOf e') = getErrorMessage (VoizmaticApiErrorOf e)) /\
  (forall resp d,
      resp_status resp = 422 \/ ~ In (resp_status resp) status_table ->
      js_get d "detail" = Returned (JArr (map json_of_ValidationError ves)) ->
      exists a,
        parseApiError resp d = Returned a /\
        validationErrors a = this_validationErrors e /\
        message a = String.concat "; " (map entry_text ves)) /\
  (forall ve, ves = [ve] ->
      String.concat newline (map entry_text ves) =
      String.concat "; " (map entry_text ves)).
Proof.
  intros Hne Hv.
  assert (Hval : forall e0, this_validationErrors e0 = Some (map json_of_ValidationError ves) ->
                 getErrorMessage (VoizmaticApiErrorOf e0) =
                   Returned (String.concat newline (map entry_text ves)) /\
                 getValidationErrorMessage e0 =
                   Returned (String.concat newline (map entry_text ves))).
  { intros e0 H0. unfold getErrorMessage, getValidationErrorMessage. rewrite H0.
    destruct ves as [|ve ves']; [congruence|].
    rewrite Array_map_render_typed. split; reflexivity. }
  destruct (Hval e Hv) as [Hg Hm].
  split; [exact Hg|]. split; [exact Hm|]. split; [|split].
  - intros e' He'. rewrite Hv in He'. destruct (Hval e' He') as [-> _]. by rewrite Hg.
  - intros resp d Hst Hd. eexists. split.
    + eapply parseApiError_array; [eassumption|apply Array_map_render_typed].
    + cbn. split; [by rewrite Hv|].
      destruct Hst as [->|Hun]; [reflexivity|].
      by apply status_specific_unlisted.
  - intros ve ->. reflexivity.
Qed.

Lemma validation_message_forms_witness :
  getErrorMessage (VoizmaticApiErrorOf two_field_error) =
    Returned ("phone: required" ++ newline ++ "name: too short") /\
  getValidationErrorMessage two_field_error =
    Returned ("phone: required" ++ newline ++ "name: too short").
Proof.
  destruct (validation_message_forms two_field_error [phone_error; name_error])
    as (Hg & Hm & _); [discriminate|reflexivity|].
  split; [exact Hg|exact Hm].
Defined.

(** ** Calls without a stored token *)






(** * Further properties *)

(** ** The token store *)

Lemma setToken_writes (token expiresAt : JsValue) (t e : string) (w : World) :
  ToString token = Returned t ->
  ToString expiresAt = Returned e ->
  tokenManager.setToken token expiresAt w =
  (Returned tt,
   with_localStorage (fun m => <[TOKEN_EXPIRY_KEY := e]> (<[TOKEN_KEY := t]> m)) w).
Proof.
  intros Ht He. unfold tokenManager.setToken, setItem, bind, lift.
  rewrite Ht, He. destruct w; reflexivity.
Qed.

Lemma clearToken_deletes (w : World) :
  tokenManager.clearToken w = (Returned tt, with_localStorage without_token w).
Proof. destruct w; reflexivity. Qed.

Lemma clearToken_deletes_fun :
  tokenManager.clearToken = fun w => (Returned tt, with_localStorage without_token w).
Proof. reflexivity. Qed.

Lemma without_token_lookup (m : gmap string string) :
  without_token m !! TOKEN_KEY = None /\ without_token m !! TOKEN_EXPIRY_KEY = None /\
  (forall k, k <> TOKEN_KEY -> k <> TOKEN_EXPIRY_KEY -> without_token m !! k = m !! k).
Proof.
  unfold without_token. repeat split.
  - rewrite lookup_delete_ne by discriminate. apply lookup_delete_eq.
  - apply lookup_delete_eq.
  - intros k H1 H2. by rewrite !lookup_delete_ne by congruence.
Qed.

Lemma without_token_idemp (m : gmap string string) :
  without_token (without_token m) = without_token m.
Proof.
  apply map_eq. intros k. unfold without_token. rewrite !lookup_delete.
  by repeat case_decide.
Qed.

Lemma without_token_insert (m : gmap string string) (t e : string) :
  m !! TOKEN_KEY = None -> m !! TOKEN_EXPIRY_KEY = None ->
  without_token (<[TOKEN_EXPIRY_KEY := e]> (<[TOKEN_KEY := t]> m)) = m.
Proof.
  intros Ht He. apply map_eq. intros k. unfold without_token.
  rewrite !lookup_delete, !lookup_insert.
  repeat case_decide; simplify_eq; congruence.
Qed.

(** X1: [setToken] followed by the readers.  Whatever values are passed, their
    string conversions are what [getToken] and the expiry key give back; the
    other keys keep their entries; and [isTokenValid] then holds exactly when
    both strings are non-empty and the expiry denotes a time after the
    clock. *)
Theorem setToken_round_trip (Date_parse : string -> option Z)
    (token expiresAt : JsValue) (t e : string) (w : World) :
  ToString token = Returned t ->
  ToString expiresAt = Returned e ->
  let w' := snd (tokenManager.setToken token expiresAt w) in
  fst (tokenManager.setToken token expiresAt w) = Returned tt /\
  fst (tokenManager.getToken w') = Returned (Some t) /\
  localStorage w' !! TOKEN_EXPIRY_KEY = Some e /\
  (forall k, k <> TOKEN_KEY -> k <> TOKEN_EXPIRY_KEY ->
             localStorage w' !! k = localStorage w !! k) /\
  fst (tokenManager.isTokenValid Date_parse w') =
    Returned (nonempty t && nonempty e &&
              match Date_parse e with Some ms => clock w <? ms | None => false end).
Proof.
  intros Ht He w'. subst w'. rewrite (setToken_writes _ _ _ _ _ Ht He). cbn [fst snd].
  assert (Hk : (<[TOKEN_EXPIRY_KEY := e]> (<[TOKEN_KEY := t]> (localStorage w)))
                 !! TOKEN_KEY = Some t).
  { rewrite lookup_insert_ne by discriminate. apply lookup_insert_eq. }
  assert (Hx : (<[TOKEN_EXPIRY_KEY := e]> (<[TOKEN_KEY := t]> (localStorage w)))
                 !! TOKEN_EXPIRY_KEY = Some e) by apply lookup_insert_eq.
  repeat split.
  - unfold tokenManager.getToken, getItem. cbn. by rewrite Hk.
  - exact Hx.
  - intros k H1 H2. cbn. by rewrite !lookup_insert_ne by congruence.
  - rewrite isTokenValid_reads. cbn. by rewrite Hk, Hx.
Qed.

Lemma setToken_round_trip_witness :
  fst (tokenManager.getToken
         (snd (tokenManager.setToken JUndefined (JNum 42) empty_world))) =
  Returned (Some "undefined").
Proof.
  refine (proj1 (proj2 (setToken_round_trip (fun _ => None) JUndefined (JNum 42)
                          "undefined" "42" empty_world _ _))); reflexivity.
Defined.

(** X2: [clearToken] never throws, removes both token keys and nothing
    else, is idempotent on the whole world, and leaves [getToken] empty and
    [isTokenValid] false; on a store that held no token it undoes
    [setToken]. *)
Theorem clearToken_idempotent (Date_parse : string -> option Z) (w : World) :
  let w' := snd (tokenManager.clearToken w) in
  fst (tokenManager.clearToken w) = Returned tt /\
  tokenManager.clearToken w' = (Returned tt, w') /\
  fst (tokenManager.getToken w') = Returned None /\
  fst (tokenManager.isTokenValid Date_parse w') = Returned false /\
  (forall k, k <> TOKEN_KEY -> k <> TOKEN_EXPIRY_KEY ->
             localStorage w' !! k = localStorage w !! k) /\
  (forall t e : string,
      localStorage w !! TOKEN_KEY = None ->
      localStorage w !! TOKEN_EXPIRY_KEY = None ->
      snd (tokenManager.clearToken
             (snd (tokenManager.setToken (JStr t) (JStr e) w))) = w).
Proof.
  intros w'. subst w'. rewrite !clearToken_deletes. cbn [fst snd].
  destruct (without_token_lookup (localStorage w)) as (Hk & Hx & Ho).
  repeat split.
  - unfold with_localStorage. cbn [localStorage clock timers console requests downloads].
    by rewrite without_token_idemp.
  - unfold tokenManager.getToken, getItem. cbn [fst]. f_equal. exact Hk.
  - rewrite isTokenValid_reads. cbn [fst]. f_equal.
    change (localStorage (with_localStorage without_token w))
      with (without_token (localStorage w)).
    by rewrite Hk.
  - exact Ho.
  - intros t e Hnt Hne.
    rewrite (setToken_writes (JStr t) (JStr e) t e) by reflexivity.
    rewrite clearToken_deletes. unfold with_localStorage.
    cbn [snd localStorage clock timers console requests downloads].
    rewrite without_token_insert by assumption. by destruct w.
Qed.

Lemma clearToken_idempotent_witness :
  snd (tokenManager.clearToken
         (snd (tokenManager.setToken (JStr "tok") (JStr "2030-01-01T00:00:00Z")
                 empty_world))) = empty_world.
Proof.
  refine (proj2 (proj2 (proj2 (proj2 (proj2
            (clearToken_idempotent (fun _ => None) empty_world)))))
          "tok" "2030-01-01T00:00:00Z" _ _); reflexivity.
Defined.

(** X3: time only invalidates.  With storage unchanged, a token that is
    invalid at one time is invalid at every later time, and a token that is
    valid at some time was valid at every earlier one. *)
Theorem token_validity_decreases (Date_parse : string -> option Z)
    (w : World) (later : Z) :
  clock w <= later ->
  (fst (tokenManager.isTokenValid Date_parse w) = Returned false ->
   fst (tokenManager.isTokenValid Date_parse (advance_clock later w)) = Returned false) /\
  (fst (tokenManager.isTokenValid Date_parse (advance_clock later w)) = Returned true ->
   fst (tokenManager.isTokenValid Date_parse w) = Returned true).
Proof.
  intros Hle. rewrite !isTokenValid_reads. cbn.
  destruct (present (localStorage w !! TOKEN_KEY)),
           (present (localStorage w !! TOKEN_EXPIRY_KEY)); cbn; try (split; congruence).
  destruct (Date_parse _) as [ms|]; [|split; congruence].
  split; intros [= H]; f_equal; lia.
Qed.

(** The token of [logged_in_world]: invalid at the instant of its expiry and
    therefore a millisecond later; valid at time 5 and therefore at time 0. *)
Lemma token_validity_decreases_witness :
  fst (tokenManager.isTokenValid parse_2030
         (advance_clock 1893456000001
            (advance_clock 1893456000000 logged_in_world))) = Returned false /\
  fst (tokenManager.isTokenValid parse_2030 logged_in_world) = Returned true.
Proof.
  split.
  - refine (proj1 (token_validity_decreases parse_2030
                     (advance_clock 1893456000000 logged_in_world) 1893456000001 _) _).
    + cbn. lia.
    + reflexivity.
  - refine (proj2 (token_validity_decreases parse_2030 logged_in_world 5 _) _).
    + cbn. lia.
    + reflexivity.
Defined.

(** ** The four wrappers, branch by branch *)

Ltac unfold_transfer := unfold transfer_request, apiCall_request, bearer, sent, logged_out,
  logged_as, rejected, caught, error_data, without_token in *.

Ltac enter_wrapper r w Hf :=
  unfold_transfer; unfold_client; cbn -[parseApiError] in Hf |- *;
  destruct r; cbn -[parseApiError] in Hf |- *;
  [ destruct (present (localStorage w !! TOKEN_KEY)); cbn -[parseApiError] in Hf |- * | ];
  rewrite Hf; cbn -[parseApiError].

Ltac by_branches :=
  repeat first
    [ reflexivity
    | match goal with
      | |- context [declares_json ?r] => destruct (declares_json r); cbn -[parseApiError]
      | |- context [json ?r] => destruct (json r); cbn -[parseApiError]
      | |- context [blob ?r] => destruct (blob r); cbn -[parseApiError]
      | |- context [parseApiError ?r ?d] => destruct (parseApiError r d); cbn -[parseApiError]
      | |- context [match ?e with VoizmaticApiErrorOf _ => _ | _ => _ end] =>
          destruct e as [?|[] ? ?|?]; cbn -[parseApiError]
      end ].

Lemma apiCall_rejected fetch endpoint options requiresAuth w err :
  fetch (apiCall_request w endpoint options requiresAuth) = Thrown err ->
  apiCall fetch endpoint options requiresAuth w =
  (Thrown (normalize apiCall_network "An unexpected error occurred" err),
   sent (apiCall_request w endpoint options requiresAuth) w).
Proof. intros Hf. enter_wrapper requiresAuth w Hf; by_branches. Qed.

Lemma apiCall_not_ok fetch endpoint options requiresAuth w resp :
  fetch (apiCall_request w endpoint options requiresAuth) = Returned resp ->
  resp_status resp <> 401 ->
  ok resp = false ->
  apiCall fetch endpoint options requiresAuth w =
  (rejected apiCall_network "An unexpected error occurred" resp,
   logged_as "Failed to parse error response:" resp
     (sent (apiCall_request w endpoint options requiresAuth) w)).
Proof.
  intros Hf H401 Hok. apply Z.eqb_neq in H401.
  enter_wrapper requiresAuth w Hf; rewrite H401, Hok; cbn -[parseApiError]; by_branches.
Qed.

Lemma apiCall_2xx fetch endpoint options requiresAuth w resp :
  fetch (apiCall_request w endpoint options requiresAuth) = Returned resp ->
  ok resp = true ->
  apiCall fetch endpoint options requiresAuth w =
  (if declares_json resp
   then caught apiCall_network "An unexpected error occurred" (json resp)
   else Returned (JObj []),
   sent (apiCall_request w endpoint options requiresAuth) w).
Proof.
  intros Hf Hok. pose proof (ok_not_401 _ Hok) as H401.
  enter_wrapper requiresAuth w Hf; rewrite H401, Hok; cbn -[parseApiError]; by_branches.
Qed.

Lemma apiUpload_rejected fetch endpoint formData requiresAuth w err :
  fetch (transfer_request w endpoint "POST" (Some (Multipart formData)) requiresAuth) =
    Thrown err ->
  apiUpload fetch endpoint formData requiresAuth w =
  (Thrown (normalize apiUpload_network "Upload failed" err),
   sent (transfer_request w endpoint "POST" (Some (Multipart formData)) requiresAuth) w).
Proof. intros Hf. enter_wrapper requiresAuth w Hf; by_branches. Qed.

Lemma apiUpload_unauthorized fetch endpoint formData requiresAuth w resp :
  fetch (transfer_request w endpoint "POST" (Some (Multipart formData)) requiresAuth) =
    Returned resp ->
  resp_status resp = 401 ->
  apiUpload fetch endpoint formData requiresAuth w =
  (Thrown (VoizmaticApiErrorOf (session_expired resp)),
   logged_out (transfer_request w endpoint "POST" (Some (Multipart formData)) requiresAuth) w).
Proof. intros Hf H401. enter_wrapper requiresAuth w Hf; rewrite H401; reflexivity. Qed.

Lemma apiUpload_not_ok fetch endpoint formData requiresAuth w resp :
  fetch (transfer_request w endpoint "POST" (Some (Multipart formData)) requiresAuth) =
    Returned resp ->
  resp_status resp <> 401 ->
  ok resp = false ->
  apiUpload fetch endpoint formData requiresAuth w =
  (rejected apiUpload_network "Upload failed" resp,
   logged_as "Failed to parse upload error response:" resp
     (sent (transfer_request w endpoint "POST" (Some (Multipart formData)) requiresAuth) w)).
Proof.
  intros Hf H401 Hok. apply Z.eqb_neq in H401.
  enter_wrapper requiresAuth w Hf; rewrite H401, Hok; cbn -[parseApiError]; by_branches.
Qed.

Lemma apiUpload_2xx fetch endpoint formData requiresAuth w resp :
  fetch (transfer_request w endpoint "POST" (Some (Multipart formData)) requiresAuth) =
    Returned resp ->
  ok resp = true ->
  apiUpload fetch endpoint formData requiresAuth w =
  (caught apiUpload_network "Upload failed" (json resp),
   sent (transfer_request w endpoint "POST" (Some (Multipart formData)) requiresAuth) w).
Proof.
  intros Hf Hok. pose proof (ok_not_401 _ Hok) as H401.
  enter_wrapper requiresAuth w Hf; rewrite H401, Hok; cbn -[parseApiError]; by_branches.
Qed.

Lemma apiDownload_rejected fetch endpoint filename requiresAuth w err :
  fetch (transfer_request w endpoint "GET" None requiresAuth) = Thrown err ->
  apiDownload fetch endpoint filename requiresAuth w =
  (Thrown (normalize apiDownload_network "Download failed" err),
   sent (transfer_request w endpoint "GET" None requiresAuth) w).
Proof. intros Hf. enter_wrapper requiresAuth w Hf; by_branches. Qed.

Lemma apiDownload_unauthorized fetch endpoint filename requiresAuth w resp :
  fetch (transfer_request w endpoint "GET" None requiresAuth) = Returned resp ->
  resp_status resp = 401 ->
  apiDownload fetch endpoint filename requiresAuth w =
  (Thrown (VoizmaticApiErrorOf (session_expired resp)),
   logged_out (transfer_request w endpoint "GET" None requiresAuth) w).
Proof. intros Hf H401. enter_wrapper requiresAuth w Hf; rewrite H401; reflexivity. Qed.

Lemma apiDownload_not_ok fetch endpoint filename requiresAuth w resp :
  fetch (transfer_request w endpoint "GET" None requiresAuth) = Returned resp ->
  resp_status resp <> 401 ->
  ok resp = false ->
  apiDownload fetch endpoint filename requiresAuth w =
  (rejected apiDownload_network "Download failed" resp,
   logged_as "Failed to parse download error response:" resp
     (sent (transfer_request w endpoint "GET" None requiresAuth) w)).
Proof.
  intros Hf H401 Hok. apply Z.eqb_neq in H401.
  enter_wrapper requiresAuth w Hf; rewrite H401, Hok; cbn -[parseApiError]; by_branches.
Qed.

Lemma apiDownload_2xx fetch endpoint filename requiresAuth w resp :
  fetch (transfer_request w endpoint "GET" None requiresAuth) = Returned resp ->
  ok resp = true ->
  apiDownload fetch endpoint filename requiresAuth w =
  match blob resp with
  | Returned b =>
      (Returned tt,
       {| localStorage := localStorage w; clock := clock w; timers := timers w;
          console := console w;
          requests := requests w ++ [transfer_request w endpoint "GET" None requiresAuth];
          downloads := downloads w ++ [(filename, b)] |})
  | Thrown err =>
      (Thrown (normalize apiDownload_network "Download failed" err),
       sent (transfer_request w endpoint "GET" None requiresAuth) w)
  end.
Proof.
  intros Hf Hok. pose proof (ok_not_401 _ Hok) as H401.
  enter_wrapper requiresAuth w Hf; rewrite H401, Hok; cbn -[parseApiError]; by_branches.
Qed.

Lemma apiDownloadBlob_rejected fetch endpoint requiresAuth w err :
  fetch (transfer_request w endpoint "GET" None requiresAuth) = Thrown err ->
  apiDownloadBlob fetch endpoint requiresAuth w =
  (Thrown (normalize apiDownload_network "Download failed" err),
   sent (transfer_request w endpoint "GET" None requiresAuth) w).
Proof. intros Hf. enter_wrapper requiresAuth w Hf; by_branches. Qed.

Lemma apiDownloadBlob_unauthorized fetch endpoint requiresAuth w resp :
  fetch (transfer_request w endpoint "GET" None requiresAuth) = Returned resp ->
  resp_status resp = 401 ->
  apiDownloadBlob fetch endpoint requiresAuth w =
  (Thrown (VoizmaticApiErrorOf (session_expired resp)),
   logged_out (transfer_request w endpoint "GET" None requiresAuth) w).
Proof. intros Hf H401. enter_wrapper requiresAuth w Hf; rewrite H401; reflexivity. Qed.

Lemma apiDownloadBlob_not_ok fetch endpoint requiresAuth w resp :
  fetch (transfer_request w endpoint "GET" None requiresAuth) = Returned resp ->
  resp_status resp <> 401 ->
  ok resp = false ->
  apiDownloadBlob fetch endpoint requiresAuth w =
  (rejected apiDownload_network "Download failed" resp,
   logged_as "Failed to parse download error response:" resp
     (sent (transfer_request w endpoint "GET" None requiresAuth) w)).
Proof.
  intros Hf H401 Hok. apply Z.eqb_neq in H401.
  enter_wrapper requiresAuth w Hf; rewrite H401, Hok; cbn -[parseApiError]; by_branches.
Qed.

Lemma apiDownloadBlob_2xx fetch endpoint requiresAuth w resp :
  fetch (transfer_request w endpoint "GET" None requiresAuth) = Returned resp ->
  ok resp = true ->
  apiDownloadBlob fetch endpoint requiresAuth w =
  (caught apiDownload_network "Download failed" (blob resp),
   sent (transfer_request w endpoint "GET" None requiresAuth) w).
Proof.
  intros Hf Hok. pose proof (ok_not_401 _ Hok) as H401.
  enter_wrapper requiresAuth w Hf; rewrite H401, Hok; cbn -[parseApiError]; by_branches.
Qed.

Lemma apiCall_logged_out fetch endpoint options requiresAuth w resp :
  fetch (apiCall_request w endpoint options requiresAuth) = Returned resp ->
  resp_status resp = 401 ->
  apiCall fetch endpoint options requiresAuth w =
  (Thrown (VoizmaticApiErrorOf (session_expired resp)),
   logged_out (apiCall_request w endpoint options requiresAuth) w).
Proof. intros Hf H401. by rewrite (apiCall_unauthorized _ _ _ _ _ _ Hf H401). Qed.

Lemma logged_as_keeps (label : string) (resp : Response) (w : World) :
  localStorage (logged_as label resp w) = localStorage w /\
  clock (logged_as label resp w) = clock w /\
  timers (logged_as label resp w) = timers w /\
  requests (logged_as label resp w) = requests w /\
  downloads (logged_as label resp w) = downloads w.
Proof. unfold logged_as. by repeat case_match. Qed.

Lemma logged_as_downloads (label : string) (resp : Response) (w : World) :
  downloads (logged_as label resp w) = downloads w.
Proof. apply logged_as_keeps. Qed.

Lemma ok_false_401 (resp : Response) : resp_status resp = 401 -> ok resp = false.
Proof. unfold ok. intros ->. reflexivity. Qed.

(** ** 401 in a row, and in the other wrappers *)

(** X4: a second 401 after a first one.  The token is already gone, so the
    second request carries only the caller's headers; the call throws the
    same typed error, storage is left exactly as the first call left it, and
    a second redirect is queued behind the first. *)
Theorem unauthorized_twice (fetch : Request -> Outcome Response)
    endpoint1 options1 requiresAuth1 endpoint2 options2 requiresAuth2
    (w : World) (resp1 resp2 : Response) :
  let w1 := snd (apiCall fetch endpoint1 options1 requiresAuth1 w) in
  let res2 := apiCall fetch endpoint2 options2 requiresAuth2 w1 in
  fetch (apiCall_request w endpoint1 options1 requiresAuth1) = Returned resp1 ->
  resp_status resp1 = 401 ->
  fetch (apiCall_request w1 endpoint2 options2 requiresAuth2) = Returned resp2 ->
  resp_status resp2 = 401 ->
  fst res2 = Thrown (VoizmaticApiErrorOf (session_expired resp2)) /\
  localStorage (snd res2) = localStorage w1 /\
  timers (snd res2) = (timers w ++ [(100, "/"); (100, "/")])%list /\
  headers (apiCall_request w1 endpoint2 options2 requiresAuth2) =
    default ∅ (options2 ≫= init_headers) ∪ {[ "Content-Type" := "application/json" ]}.
Proof.
  intros w1 res2 Hf1 H1. subst res2 w1.
  rewrite (apiCall_logged_out _ _ _ _ _ _ Hf1 H1). cbn [snd].
  intros Hf2 H2. rewrite (apiCall_logged_out _ _ _ _ _ _ Hf2 H2). cbn [fst snd].
  repeat split.
  - cbn [localStorage logged_out]. apply without_token_idemp.
  - cbn [timers logged_out]. by rewrite <- app_assoc.
  - unfold apiCall_request, bearer. cbn [headers localStorage logged_out].
    destruct (without_token_lookup (localStorage w)) as (-> & _).
    by rewrite andb_false_r.
Qed.

Lemma unauthorized_twice_witness :
  let fetch := fun _ : Request => Returned (response_of 401 None not_json) in
  let w1 := snd (apiCall fetch "/api/campaigns" None true logged_in_world) in
  fst (apiCall fetch "/api/reports/summary" None true w1) =
    Thrown (VoizmaticApiErrorOf (session_expired (response_of 401 None not_json))) /\
  localStorage (snd (apiCall fetch "/api/reports/summary" None true w1)) = localStorage w1.
Proof.
  intros fetch w1.
  destruct (unauthorized_twice fetch "/api/campaigns" None true
              "/api/reports/summary" None true logged_in_world
              (response_of 401 None not_json) (response_of 401 None not_json))
    as (H1 & H2 & _); try reflexivity.
  split; [exact H1|exact H2].
Defined.

(** X5: the upload and download helpers treat a 401 answer as [apiCall]
    does: each throws the session-expired error with status 401 and leaves a
    world in which the request is logged, both token keys are gone, the
    other keys are untouched and the redirect is queued. *)
Theorem transfers_unauthorized (fetch : Request -> Outcome Response)
    (w : World) (resp : Response) :
  resp_status resp = 401 ->
  (forall rq,
      localStorage (logged_out rq w) !! TOKEN_KEY = None /\
      localStorage (logged_out rq w) !! TOKEN_EXPIRY_KEY = None /\
      (forall k, k <> TOKEN_KEY -> k <> TOKEN_EXPIRY_KEY ->
                 localStorage (logged_out rq w) !! k = localStorage w !! k) /\
      timers (logged_out rq w) = (timers w ++ [(100, "/")])%list /\
      console (logged_out rq w) = console w /\
      downloads (logged_out rq w) = downloads w) /\
  (forall endpoint formData requiresAuth,
      let rq := transfer_request w endpoint "POST" (Some (Multipart formData)) requiresAuth in
      fetch rq = Returned resp ->
      apiUpload fetch endpoint formData requiresAuth w =
      (Thrown (VoizmaticApiErrorOf (session_expired resp)), logged_out rq w)) /\
  (forall endpoint filename requiresAuth,
      let rq := transfer_request w endpoint "GET" None requiresAuth in
      fetch rq = Returned resp ->
      apiDownload fetch endpoint filename requiresAuth w =
      (Thrown (VoizmaticApiErrorOf (session_expired resp)), logged_out rq w)) /\
  (forall endpoint requiresAuth,
      let rq := transfer_request w endpoint "GET" None requiresAuth in
      fetch rq = Returned resp ->
      apiDownloadBlob fetch endpoint requiresAuth w =
      (Thrown (VoizmaticApiErrorOf (session_expired resp)), logged_out rq w)).
Proof.
  intros H401. split; [|repeat split].
  - intros rq. destruct (without_token_lookup (localStorage w)) as (Hk & Hx & Ho).
    repeat split; assumption.
  - intros endpoint formData requiresAuth rq Hf. by apply apiUpload_unauthorized.
  - intros endpoint filename requiresAuth rq Hf. by apply apiDownload_unauthorized.
  - intros endpoint requiresAuth rq Hf. by apply apiDownloadBlob_unauthorized.
Qed.

Lemma transfers_unauthorized_witness :
  apiDownloadBlob (fun _ => Returned (response_of 401 None not_json))
    "/api/recordings/r1/download" true logged_in_world =
  (Thrown (VoizmaticApiErrorOf (session_expired (response_of 401 None not_json))),
   logged_out (transfer_request logged_in_world "/api/recordings/r1/download" "GET" None true)
     logged_in_world).
Proof.
  refine (proj2 (proj2 (proj2 (transfers_unauthorized
                   (fun _ => Returned (response_of 401 None not_json))
                   logged_in_world (response_of 401 None not_json) _)))
            "/api/recordings/r1/download" true _); reflexivity.
Defined.

(** ** Rejected requests *)

(** X6: when [fetch] rejects, every wrapper logs its one request, changes
    nothing else, and throws a typed error without status: its own
    network text for a [TypeError], the original message for any other
    [Error], its own fallback text for a thrown value that is no [Error].
    The three network texts are all recognised by [isNetworkError], have
    severity ["error"], the connection advice as action message and
    ["Connection Error"] as alert title. *)
Theorem rejected_fetch_is_normalized (fetch : Request -> Outcome Response)
    (w : World) (err : ErrorValue) :
  (forall endpoint options requiresAuth,
      let rq := apiCall_request w endpoint options requiresAuth in
      fetch rq = Thrown err ->
      apiCall fetch endpoint options requiresAuth w =
      (Thrown (normalize apiCall_network "An unexpected error occurred" err), sent rq w)) /\
  (forall endpoint formData requiresAuth,
      let rq := transfer_request w endpoint "POST" (Some (Multipart formData)) requiresAuth in
      fetch rq = Thrown err ->
      apiUpload fetch endpoint formData requiresAuth w =
      (Thrown (normalize apiUpload_network "Upload failed" err), sent rq w)) /\
  (forall endpoint filename requiresAuth,
      let rq := transfer_request w endpoint "GET" None requiresAuth in
      fetch rq = Thrown err ->
      apiDownload fetch endpoint filename requiresAuth w =
      (Thrown (normalize apiDownload_network "Download failed" err), sent rq w)) /\
  (forall endpoint requiresAuth,
      let rq := transfer_request w endpoint "GET" None requiresAuth in
      fetch rq = Thrown err ->
      apiDownloadBlob fetch endpoint requiresAuth w =
      (Thrown (normalize apiDownload_network "Download failed" err), sent rq w)) /\
  (forall network fallback name m,
      In network [apiCall_network; apiUpload_network; apiDownload_network] ->
      let e := normalize network fallback (ErrorOf true name m) in
      e = VoizmaticApiErrorOf (bare_error network) /\
      isNetworkError e = true /\
      getErrorSeverity e = Error /\
      getErrorActionMessage e = "Please check your internet connection and try again." /\
      getTitle e = "Connection Error") /\
  (forall network fallback name m v,
      normalize network fallback (ErrorOf false name m) =
        VoizmaticApiErrorOf (bare_error m) /\
      normalize network fallback (PlainValue v) =
        VoizmaticApiErrorOf (bare_error fallback)).
Proof.
  repeat split.
  - intros. by apply apiCall_rejected.
  - intros. by apply apiUpload_rejected.
  - intros. by apply apiDownload_rejected.
  - intros. by apply apiDownloadBlob_rejected.
  - destruct H as [<-|[<-|[<-|[]]]]; reflexivity.
  - destruct H as [<-|[<-|[<-|[]]]]; reflexivity.
  - destruct H as [<-|[<-|[<-|[]]]]; reflexivity.
  - destruct H as [<-|[<-|[<-|[]]]]; reflexivity.
Qed.

Lemma rejected_fetch_is_normalized_witness :
  apiUpload (fun _ => Thrown (TypeError "Failed to fetch"))
    "/api/contacts/upload" [] true empty_world =
  (Thrown (VoizmaticApiErrorOf (bare_error apiUpload_network)),
   sent (transfer_request empty_world "/api/contacts/upload" "POST" (Some (Multipart [])) true)
     empty_world).
Proof.
  refine (proj1 (proj2 (rejected_fetch_is_normalized
                   (fun _ => Thrown (TypeError "Failed to fetch")) empty_world
                   (TypeError "Failed to fetch")))
            "/api/contacts/upload" [] true _); reflexivity.
Defined.

(** ** What a call leaves behind *)

Ltac footprint_cases f Hrej H401 Hnot Hok :=
  unfold footprint;
  match goal with
  | |- context [f ?rq] =>
      destruct (f rq) as [resp|err] eqn:Hf;
      [ destruct (resp_status resp =? 401) eqn:E;
        [ apply Z.eqb_eq in E; rewrite (H401 _ Hf E)
        | apply Z.eqb_neq in E; destruct (ok resp) eqn:Ho;
          [ rewrite (Hok _ Hf Ho) | rewrite (Hnot _ Hf E Ho) ] ]
      | rewrite (Hrej _ Hf) ]
  end.

Lemma apiCall_footprint fetch endpoint options requiresAuth w :
  footprint fetch w (apiCall_request w endpoint options requiresAuth)
    (apiCall fetch endpoint options requiresAuth w).
Proof.
  footprint_cases fetch (apiCall_rejected fetch endpoint options requiresAuth w)
                  (apiCall_logged_out fetch endpoint options requiresAuth w)
                  (apiCall_not_ok fetch endpoint options requiresAuth w)
                  (apiCall_2xx fetch endpoint options requiresAuth w);
    cbn [fst snd]; rewrite ?(proj1 (logged_as_keeps _ _ _));
    repeat split; try reflexivity;
    by destruct (logged_as_keeps "Failed to parse error response:" resp
                   (sent (apiCall_request w endpoint options requiresAuth) w))
      as (? & ? & ? & ? & ?).
Qed.

Lemma apiUpload_footprint fetch endpoint formData requiresAuth w :
  footprint fetch w
    (transfer_request w endpoint "POST" (Some (Multipart formData)) requiresAuth)
    (apiUpload fetch endpoint formData requiresAuth w).
Proof.
  footprint_cases fetch (apiUpload_rejected fetch endpoint formData requiresAuth w)
                  (apiUpload_unauthorized fetch endpoint formData requiresAuth w)
                  (apiUpload_not_ok fetch endpoint formData requiresAuth w)
                  (apiUpload_2xx fetch endpoint formData requiresAuth w);
    cbn [fst snd]; repeat split; try reflexivity;
    by destruct (logged_as_keeps "Failed to parse upload error response:" resp
                   (sent (transfer_request w endpoint "POST" (Some (Multipart formData))
                            requiresAuth) w))
      as (? & ? & ? & ? & ?).
Qed.

Lemma apiDownload_footprint fetch endpoint filename requiresAuth w :
  footprint fetch w (transfer_request w endpoint "GET" None requiresAuth)
    (apiDownload fetch endpoint filename requiresAuth w).
Proof.
  footprint_cases fetch (apiDownload_rejected fetch endpoint filename requiresAuth w)
                  (apiDownload_unauthorized fetch endpoint filename requiresAuth w)
                  (apiDownload_not_ok fetch endpoint filename requiresAuth w)
                  (apiDownload_2xx fetch endpoint filename requiresAuth w);
    try destruct (blob resp);
    cbn [fst snd]; repeat split; try reflexivity;
    by destruct (logged_as_keeps "Failed to parse download error response:" resp
                   (sent (transfer_request w endpoint "GET" None requiresAuth) w))
      as (? & ? & ? & ? & ?).
Qed.

Lemma apiDownloadBlob_footprint fetch endpoint requiresAuth w :
  footprint fetch w (transfer_request w endpoint "GET" None requiresAuth)
    (apiDownloadBlob fetch endpoint requiresAuth w).
Proof.
  footprint_cases fetch (apiDownloadBlob_rejected fetch endpoint requiresAuth w)
                  (apiDownloadBlob_unauthorized fetch endpoint requiresAuth w)
                  (apiDownloadBlob_not_ok fetch endpoint requiresAuth w)
                  (apiDownloadBlob_2xx fetch endpoint requiresAuth w);
    cbn [fst snd]; repeat split; try reflexivity;
    by destruct (logged_as_keeps "Failed to parse download error response:" resp
                   (sent (transfer_request w endpoint "GET" None requiresAuth) w))
      as (? & ? & ? & ? & ?).
Qed.

(** X7: every call of a wrapper sends exactly one request (nothing is
    retried), leaves the clock alone, and touches storage and timers only on
    a 401 answer, where it removes the two token keys, queues one redirect
    and throws the session-expired error; on every other completion storage
    and timers are as they were. *)
Theorem wrappers_leave_one_request (fetch : Request -> Outcome Response) (w : World) :
  (forall endpoint options requiresAuth,
      footprint fetch w (apiCall_request w endpoint options requiresAuth)
        (apiCall fetch endpoint options requiresAuth w)) /\
  (forall endpoint formData requiresAuth,
      footprint fetch w
        (transfer_request w endpoint "POST" (Some (Multipart formData)) requiresAuth)
        (apiUpload fetch endpoint formData requiresAuth w)) /\
  (forall endpoint filename requiresAuth,
      footprint fetch w (transfer_request w endpoint "GET" None requiresAuth)
        (apiDownload fetch endpoint filename requiresAuth w)) /\
  (forall endpoint requiresAuth,
      footprint fetch w (transfer_request w endpoint "GET" None requiresAuth)
        (apiDownloadBlob fetch endpoint requiresAuth w)).
Proof.
  split; [|split; [|split]]; intros.
  - apply apiCall_footprint.
  - apply apiUpload_footprint.
  - apply apiDownload_footprint.
  - apply apiDownloadBlob_footprint.
Qed.

(** ** Files saved and bodies read *)

Ltac wrapper_cases f rq Hrej H401 Hnot Hok :=
  destruct (f rq) as [resp|err] eqn:Hf;
  [ destruct (resp_status resp =? 401) eqn:E;
    [ apply Z.eqb_eq in E; rewrite (H401 _ Hf E)
    | apply Z.eqb_neq in E; destruct (ok resp) eqn:Ho;
      [ rewrite (Hok _ Hf Ho) | rewrite (Hnot _ Hf E Ho) ] ]
  | rewrite (Hrej _ Hf) ].

(** X8: a file is offered for saving only by [apiDownload], and only when
    it returns normally: then exactly one entry, the given file name with
    the blob of the 2xx answer, is added; when it throws, and in every
    completion of the other three wrappers, nothing is saved. *)
Theorem saves_only_on_success (fetch : Request -> Outcome Response) (w : World) :
  (forall endpoint options requiresAuth,
      downloads (snd (apiCall fetch endpoint options requiresAuth w)) = downloads w) /\
  (forall endpoint formData requiresAuth,
      downloads (snd (apiUpload fetch endpoint formData requiresAuth w)) = downloads w) /\
  (forall endpoint requiresAuth,
      downloads (snd (apiDownloadBlob fetch endpoint requiresAuth w)) = downloads w) /\
  (forall endpoint filename requiresAuth,
      let res := apiDownload fetch endpoint filename requiresAuth w in
      match fst res with
      | Returned _ =>
          exists resp b,
            fetch (transfer_request w endpoint "GET" None requiresAuth) = Returned resp /\
            ok resp = true /\ blob resp = Returned b /\
            downloads (snd res) = (downloads w ++ [(filename, b)])%list
      | Thrown _ => downloads (snd res) = downloads w
      end).
Proof.
  split; [|split; [|split]].
  - intros endpoint options requiresAuth.
    wrapper_cases fetch (apiCall_request w endpoint options requiresAuth)
      (apiCall_rejected fetch endpoint options requiresAuth w)
      (apiCall_logged_out fetch endpoint options requiresAuth w)
      (apiCall_not_ok fetch endpoint options requiresAuth w)
      (apiCall_2xx fetch endpoint options requiresAuth w);
      cbn [snd]; try reflexivity. by rewrite logged_as_downloads.
  - intros endpoint formData requiresAuth.
    wrapper_cases fetch
      (transfer_request w endpoint "POST" (Some (Multipart formData)) requiresAuth)
      (apiUpload_rejected fetch endpoint formData requiresAuth w)
      (apiUpload_unauthorized fetch endpoint formData requiresAuth w)
      (apiUpload_not_ok fetch endpoint formData requiresAuth w)
      (apiUpload_2xx fetch endpoint formData requiresAuth w);
      cbn [snd]; try reflexivity. by rewrite logged_as_downloads.
  - intros endpoint requiresAuth.
    wrapper_cases fetch (transfer_request w endpoint "GET" None requiresAuth)
      (apiDownloadBlob_rejected fetch endpoint requiresAuth w)
      (apiDownloadBlob_unauthorized fetch endpoint requiresAuth w)
      (apiDownloadBlob_not_ok fetch endpoint requiresAuth w)
      (apiDownloadBlob_2xx fetch endpoint requiresAuth w);
      cbn [snd]; try reflexivity. by rewrite logged_as_downloads.
  - intros endpoint filename requiresAuth res. subst res.
    wrapper_cases fetch (transfer_request w endpoint "GET" None requiresAuth)
      (apiDownload_rejected fetch endpoint filename requiresAuth w)
      (apiDownload_unauthorized fetch endpoint filename requiresAuth w)
      (apiDownload_not_ok fetch endpoint filename requiresAuth w)
      (apiDownload_2xx fetch endpoint filename requiresAuth w);
      cbn [fst snd]; try reflexivity.
    + destruct (blob resp) as [b|x] eqn:Hb; cbn [fst snd]; [|reflexivity].
      exists resp, b. repeat split; assumption.
    + unfold rejected. destruct (parseApiError resp (error_data resp)); cbn;
        by rewrite logged_as_downloads.
Qed.

(** X9: what is read of a 2xx answer.  [apiCall] reads the body only when
    the content type declares JSON, and returns the empty object otherwise,
    whatever the body is; [apiUpload] reads it as JSON whatever the content
    type says; the two download helpers read it as a blob.  A body that
    cannot be read turns the 2xx answer into a typed error without status
    (for a parser's [SyntaxError], the parser's message). *)
Theorem success_body_reading (fetch : Request -> Outcome Response)
    (w : World) (resp : Response) :
  ok resp = true ->
  (forall endpoint options requiresAuth,
      fetch (apiCall_request w endpoint options requiresAuth) = Returned resp ->
      fst (apiCall fetch endpoint options requiresAuth w) =
        if declares_json resp
        then caught apiCall_network "An unexpected error occurred" (json resp)
        else Returned (JObj [])) /\
  (forall endpoint formData requiresAuth,
      fetch (transfer_request w endpoint "POST" (Some (Multipart formData)) requiresAuth) =
        Returned resp ->
      fst (apiUpload fetch endpoint formData requiresAuth w) =
        caught apiUpload_network "Upload failed" (json resp)) /\
  (forall endpoint requiresAuth,
      fetch (transfer_request w endpoint "GET" None requiresAuth) = Returned resp ->
      fst (apiDownloadBlob fetch endpoint requiresAuth w) =
        caught apiDownload_network "Download failed" (blob resp)) /\
  (forall name m,
      caught apiUpload_network "Upload failed" (A:=JsValue)
        (Thrown (ErrorOf false name m)) =
      Thrown (VoizmaticApiErrorOf (bare_error m))).
Proof.
  intros Hok. split; [|split; [|split]].
  - intros endpoint options requiresAuth Hf. by rewrite (apiCall_2xx _ _ _ _ _ _ Hf Hok).
  - intros endpoint formData requiresAuth Hf. by rewrite (apiUpload_2xx _ _ _ _ _ _ Hf Hok).
  - intros endpoint requiresAuth Hf. by rewrite (apiDownloadBlob_2xx _ _ _ _ _ Hf Hok).
  - reflexivity.
Qed.

Lemma success_body_reading_witness :
  fst (apiCall (fun _ => Returned (response_of 204 None not_json))
         "/api/campaigns/c1" None true empty_world) = Returned (JObj []) /\
  fst (apiUpload (fun _ => Returned (response_of 200 (Some "text/html") not_json))
         "/api/contacts/upload" [] true empty_world) =
    Thrown (VoizmaticApiErrorOf
              (bare_error "Unexpected token < in JSON at position 0")).
Proof.
  split.
  - refine (proj1 (success_body_reading
                     (fun _ => Returned (response_of 204 None not_json)) empty_world
                     (response_of 204 None not_json) _)
              "/api/campaigns/c1" None true _); reflexivity.
  - refine (proj1 (proj2 (success_body_reading
                     (fun _ => Returned (response_of 200 (Some "text/html") not_json))
                     empty_world (response_of 200 (Some "text/html") not_json) _))
              "/api/contacts/upload" [] true _); reflexivity.
Defined.

Lemma normalize_TypeError (network fallback : string) (err : ErrorValue) :
  is_TypeError err ->
  normalize network fallback err = VoizmaticApiErrorOf (bare_error network).
Proof. by intros [m ->]. Qed.

Lemma normalize_foreign (network fallback : string) (err : ErrorValue) :
  (forall e, err <> VoizmaticApiErrorOf e) ->
  exists m, normalize network fallback err = VoizmaticApiErrorOf (bare_error m).
Proof.
  intros H. destruct err as [e|[] n m|v]; cbn; eauto. by destruct (H e).
Qed.

Lemma parseApiError_detail (resp : Response) (d : JsValue) (a : ApiError)
    (entries : list JsValue) :
  parseApiError resp d = Returned a ->
  validationErrors a = Some entries ->
  js_get d "detail" = Returned (JArr entries).
Proof.
  unfold parseApiError. destruct (truthy d); [|by intros [= <-]].
  destruct (js_get d "detail") as [detail|e] eqn:Hd; cbn [obind]; [|discriminate].
  destruct (js_get d "message") as [m|e] eqn:Hm.
  - destruct detail; cbn; try (by intros [= <-]); try (destruct m; by intros [= <-]).
    destruct (Array_map render_entry elems); cbn; [|discriminate].
    intros [= <-]. cbn. by intros [= <-].
  - destruct detail; cbn; try discriminate; try (by intros [= <-]).
    destruct (Array_map render_entry elems); cbn; [|discriminate].
    intros [= <-]. cbn. by intros [= <-].
Qed.

Lemma error_data_detail (resp : Response) (v : JsValue) :
  js_get (error_data resp) "detail" = Returned v -> v <> JUndefined ->
  declares_json resp = true /\ json resp = Returned (error_data resp).
Proof.
  unfold error_data. destruct (declares_json resp); [|by intros [= <-]].
  destruct (json resp); [done|by intros [= <-]].
Qed.

(** The typed errors [apiCall] can throw, when the environment throws none
    of its own. *)
Lemma apiCall_thrown_shape fetch endpoint options requiresAuth w e :
  foreign_failures fetch (apiCall_request w endpoint options requiresAuth) ->
  fst (apiCall fetch endpoint options requiresAuth w) = Thrown (VoizmaticApiErrorOf e) ->
  (exists m, e = bare_error m) \/
  (exists resp,
      fetch (apiCall_request w endpoint options requiresAuth) = Returned resp /\
      resp_status resp = 401 /\ e = session_expired resp) \/
  (exists resp a,
      fetch (apiCall_request w endpoint options requiresAuth) = Returned resp /\
      resp_status resp <> 401 /\ ok resp = false /\
      parseApiError resp (error_data resp) = Returned a /\
      e = new_VoizmaticApiError a).
Proof.
  intros [Hfetch Hjson].
  wrapper_cases fetch (apiCall_request w endpoint options requiresAuth)
    (apiCall_rejected fetch endpoint options requiresAuth w)
    (apiCall_logged_out fetch endpoint options requiresAuth w)
    (apiCall_not_ok fetch endpoint options requiresAuth w)
    (apiCall_2xx fetch endpoint options requiresAuth w); cbn [fst].
  - intros [= <-]. right; left. eauto.
  - destruct (declares_json resp); [|discriminate].
    destruct (json resp) as [p|x] eqn:Hj; cbn; [discriminate|].
    destruct (normalize_foreign apiCall_network "An unexpected error occurred" x)
      as [m Hm]; [intros e' ->; by eapply Hjson|].
    rewrite Hm. intros [= <-]. left; eauto.
  - unfold rejected.
    destruct (parseApiError resp (error_data resp)) as [a|x] eqn:Hp.
    + intros [= <-]. right; right. exists resp, a. done.
    + rewrite (normalize_TypeError _ _ _ (parseApiError_throws _ _ _ Hp)).
      intros [= <-]. left; eauto.
  - destruct (normalize_foreign apiCall_network "An unexpected error occurred" err)
      as [m Hm]; [intros e' ->; by eapply Hfetch|].
    rewrite Hm. intros [= <-]. left; eauto.
Qed.

Lemma parseApiError_status_line (resp : Response) (d : JsValue) (a : ApiError) :
  parseApiError resp d = Returned a ->
  status a = Some (resp_status resp) /\ statusText a = Some (resp_statusText resp).
Proof.
  unfold parseApiError.
  destruct (if truthy d then _ else _) as [parsed|]; cbn; [|discriminate].
  by intros [= <-].
Qed.

(** ** What a delivered error tells *)

(** X10: the typed error of [apiCall] reports only what the server said.
    If it carries a status, the request was answered, with exactly that
    status and status text, and the answer was not a 2xx; if it carries
    validation errors, the answer declared JSON and they are the [detail]
    array of its decoded body, unchanged.  Errors made up by the wrapper
    (rejected request, unreadable 2xx body, failure while rendering) carry
    neither. *)
Theorem typed_error_reflects_answer (fetch : Request -> Outcome Response)
    endpoint options requiresAuth (w : World) (e : VoizmaticApiError) :
  let rq := apiCall_request w endpoint options requiresAuth in
  foreign_failures fetch rq ->
  fst (apiCall fetch endpoint options requiresAuth w) = Thrown (VoizmaticApiErrorOf e) ->
  (forall st, this_status e = Some st ->
     exists resp,
       fetch rq = Returned resp /\ resp_status resp = st /\ ok resp = false /\
       this_statusText e = Some (resp_statusText resp)) /\
  (forall entries, this_validationErrors e = Some entries ->
     exists resp d,
       fetch rq = Returned resp /\ declares_json resp = true /\
       json resp = Returned d /\ js_get d "detail" = Returned (JArr entries)) /\
  (this_status e = None -> this_validationErrors e = None).
Proof.
  intros rq Hforeign Hthrown. subst rq.
  destruct (apiCall_thrown_shape _ _ _ _ _ _ Hforeign Hthrown)
    as [[m ->]|[(resp & Hf & H401 & ->)|(resp & a & Hf & H401 & Hok & Hp & ->)]].
  - repeat split; discriminate.
  - repeat split; try discriminate.
    intros st [= <-]. exists resp. repeat split; try assumption. by apply ok_false_401.
  - destruct (parseApiError_status_line _ _ _ Hp) as [Hs Ht]. cbn. repeat split.
    + rewrite Hs. intros st [= <-]. exists resp. by repeat split.
    + intros entries Hv. pose proof (parseApiError_detail _ _ _ _ Hp Hv) as Hd.
      destruct (error_data_detail _ _ Hd) as [Hj Hjson]; [discriminate|].
      exists resp, (error_data resp). by repeat split.
    + rewrite Hs. discriminate.
Qed.

Lemma phone_typed_error_thrown :
  fst (apiCall (fun _ => Returned (json_response 422 phone_body))
         "/api/contacts" None true empty_world) =
  Thrown (VoizmaticApiErrorOf phone_typed_error).
Proof.
  etransitivity;
    [ eapply apiCall_error_status; [reflexivity|cbn; lia|reflexivity|reflexivity]
    | reflexivity ].
Qed.

Lemma phone_fetch_foreign (rq : Request) :
  foreign_failures (fun _ => Returned (json_response 422 phone_body)) rq.
Proof. split; [discriminate|]. intros resp e' [= <-]. discriminate. Qed.

Lemma typed_error_reflects_answer_witness :
  exists resp d,
    declares_json resp = true /\ json resp = Returned d /\
    js_get d "detail" = Returned (JArr [json_of_ValidationError phone_error]).
Proof.
  destruct (typed_error_reflects_answer
              (fun _ => Returned (json_response 422 phone_body))
              "/api/contacts" None true empty_world phone_typed_error
              (phone_fetch_foreign _) phone_typed_error_thrown) as (_ & Hv & _).
  destruct (Hv _ eq_refl) as (resp & d & _ & H1 & H2 & H3).
  exists resp, d. by repeat split.
Defined.

Lemma field_items_of_rendered (entries : list JsValue) (parts : list string) :
  Array_map render_entry entries = Returned parts ->
  exists items,
    field_items entries = Returned items /\
    Forall2 (fun part item =>
               exists ms, ToString (snd item) = Returned ms /\
                          part = fst item ++ ": " ++ ms) parts items.
Proof.
  unfold field_items. revert parts.
  induction entries as [|x rest IH]; intros parts.
  - intros [= <-]. exists []. split; [reflexivity|constructor].
  - cbn [Array_map]. unfold render_entry at 1.
    destruct (field_of x) as [field|]; cbn [obind]; [|discriminate].
    destruct (js_get x "msg") as [m|]; cbn [obind]; [|discriminate].
    destruct (ToString m) as [ms|] eqn:Hms; cbn [obind]; [|discriminate].
    destruct (Array_map render_entry rest) as [ps|] eqn:Hr; cbn [obind]; [|discriminate].
    intros [= <-]. destruct (IH ps eq_refl) as (items & -> & Hall). cbn.
    eexists. split; [reflexivity|]. constructor; [|exact Hall]. cbn. eauto.
Qed.

(** X11: an error delivered by [apiCall] can always be shown.
    [getErrorMessage] returns for it; and when it carries validation errors,
    the list items of [ErrorAlert] can be built, one per entry and in order,
    and [getValidationErrorMessage] is their ["<field>: <msg>"] texts joined
    by newlines. *)
Theorem delivered_error_can_be_shown (fetch : Request -> Outcome Response)
    endpoint options requiresAuth (w : World) (e : VoizmaticApiError) :
  foreign_failures fetch (apiCall_request w endpoint options requiresAuth) ->
  fst (apiCall fetch endpoint options requiresAuth w) = Thrown (VoizmaticApiErrorOf e) ->
  (exists s, getErrorMessage (VoizmaticApiErrorOf e) = Returned s) /\
  (forall entries, this_validationErrors e = Some entries -> entries <> [] ->
     exists items parts,
       field_items entries = Returned items /\
       Forall2 (fun part item =>
                  exists ms, ToString (snd item) = Returned ms /\
                             part = fst item ++ ": " ++ ms) parts items /\
       getValidationErrorMessage e = Returned (String.concat newline parts)).
Proof.
  intros Hforeign Hthrown.
  assert (Hrender : forall entries, this_validationErrors e = Some entries ->
                    exists parts, Array_map render_entry entries = Returned parts).
  { intros entries Hv.
    destruct (apiCall_thrown_shape _ _ _ _ _ _ Hforeign Hthrown)
      as [[m ->]|[(resp & _ & _ & ->)|(resp & a & _ & _ & _ & Hp & ->)]];
      try discriminate.
    destruct (parseApiError_validationErrors _ _ _ Hp) as [_ Hv'].
    cbn in Hv. rewrite Hv in Hv'. destruct Hv' as (parts & Hparts & _). eauto. }
  split.
  - unfold getErrorMessage, getValidationErrorMessage.
    destruct (this_validationErrors e) as [[|x rest]|] eqn:Hv; eauto.
    destruct (Hrender _ eq_refl) as (parts & ->). cbn. eauto.
  - intros entries Hv Hne. destruct (Hrender _ Hv) as (parts & Hparts).
    destruct (field_items_of_rendered _ _ Hparts) as (items & Hitems & Hall).
    exists items, parts. repeat split; try assumption.
    unfold getValidationErrorMessage. rewrite Hv.
    destruct entries; [congruence|]. by rewrite Hparts.
Qed.

Lemma delivered_error_can_be_shown_witness :
  exists s, getErrorMessage (VoizmaticApiErrorOf phone_typed_error) = Returned s.
Proof.
  exact (proj1 (delivered_error_can_be_shown
                  (fun _ => Returned (json_response 422 phone_body))
                  "/api/contacts" None true empty_world phone_typed_error
                  (phone_fetch_foreign _) phone_typed_error_thrown)).
Defined.

(** ** Request headers *)

Lemma apiCall_request_authorization (w : World) endpoint options (t : string) :
  localStorage w !! TOKEN_KEY = Some t -> t <> "" ->
  headers (apiCall_request w endpoint options true) !! "Authorization" =
  Some ("Bearer " ++ t).
Proof.
  intros Ht Hne. apply nonempty_true in Hne.
  unfold apiCall_request, bearer. cbn [headers]. rewrite Ht. cbn. rewrite Hne.
  apply lookup_insert_eq.
Qed.

(** X12: the headers of the request [apiCall] sends.  With
    [requiresAuth] and a non-empty stored token, [Authorization] is
    ["Bearer <token>"], replacing any value the caller gave; without
    [requiresAuth] the stored token is never sent and [Authorization] is
    whatever the caller gave, if anything.  [Content-Type] is the caller's
    value when there is one and [application/json] otherwise, and every
    other header is the caller's. *)
Theorem request_headers (fetch : Request -> Outcome Response)
    endpoint options requiresAuth (w : World) :
  let rq := apiCall_request w endpoint options requiresAuth in
  let given := default ∅ (options ≫= init_headers) in
  requests (snd (apiCall fetch endpoint options requiresAuth w)) =
    (requests w ++ [rq])%list /\
  (forall t, requiresAuth = true -> localStorage w !! TOKEN_KEY = Some t -> t <> "" ->
             headers rq !! "Authorization" = Some ("Bearer " ++ t)) /\
  (requiresAuth = false -> headers rq !! "Authorization" = given !! "Authorization") /\
  headers rq !! "Content-Type" =
    Some (default "application/json" (given !! "Content-Type")) /\
  (forall k, k <> "Authorization" -> k <> "Content-Type" ->
             headers rq !! k = given !! k).
Proof.
  intros rq given. subst rq given. split; [apply apiCall_sends|].
  unfold apiCall_request, bearer. cbn [headers].
  set (given := default ∅ (options ≫= init_headers)).
  assert (Hct : (given ∪ {[ "Content-Type" := "application/json" ]}) !! "Content-Type"
                = Some (default "application/json" (given !! "Content-Type"))).
  { destruct (given !! "Content-Type") as [c|] eqn:Hc; cbn.
    - by apply lookup_union_Some_l.
    - rewrite lookup_union_r by assumption. apply lookup_singleton_eq. }
  assert (Hother : forall k, k <> "Content-Type" ->
            (given ∪ {[ "Content-Type" := "application/json" ]}) !! k = given !! k).
  { intros k Hk. destruct (given !! k) as [c|] eqn:Hc.
    - by apply lookup_union_Some_l.
    - apply lookup_union_None. split; [assumption|]. by apply lookup_singleton_ne. }
  repeat split.
  - intros t -> Ht Hne. apply nonempty_true in Hne. rewrite Ht. cbn. rewrite Hne.
    apply lookup_insert_eq.
  - intros ->. cbn. by apply Hother.
  - destruct (requiresAuth && present (localStorage w !! TOKEN_KEY)); [|exact Hct].
    by rewrite lookup_insert_ne.
  - intros k Ha Hc.
    destruct (requiresAuth && present (localStorage w !! TOKEN_KEY)).
    + rewrite lookup_insert_ne by congruence. by apply Hother.
    + by apply Hother.
Qed.

Lemma request_headers_witness :
  headers (apiCall_request logged_in_world "/api/campaigns" None true) !! "Authorization" =
  Some "Bearer tok".
Proof.
  refine (proj1 (proj2 (request_headers (fun _ => Thrown (TypeError "offline"))
                          "/api/campaigns" None true logged_in_world))
            "tok" _ _ _); [reflexivity|reflexivity|discriminate].
Defined.

(** ** What the alert shows *)

(** X13: what [ErrorAlert] shows for an answer whose status has a canned
    message, whatever its body (as long as the body's entries render): the
    typed error keeps the status, is never taken for a network error, and
    has severity, title and action message fixed by the status alone: 403
    warning / "Warning" / the permission advice; 404 info / "Notice" /
    not-found; 429 error / "Error" / the generic advice; 500, 502, 503 and
    504 critical / "Server Error" / the server advice. *)
Theorem canned_status_alert (fetch : Request -> Outcome Response)
    endpoint options requiresAuth (w : World) (resp : Response) (a : ApiError) :
  fetch (apiCall_request w endpoint options requiresAuth) = Returned resp ->
  In (resp_status resp) [403; 404; 429; 500; 502; 503; 504] ->
  parseApiError resp (error_data resp) = Returned a ->
  exists e,
    fst (apiCall fetch endpoint options requiresAuth w) = Thrown (VoizmaticApiErrorOf e) /\
    this_status e = Some (resp_status resp) /\
    fixed_message (resp_status resp) = Some (this_message e) /\
    isNetworkError (VoizmaticApiErrorOf e) = false /\
    (getErrorSeverity (VoizmaticApiErrorOf e), getTitle (VoizmaticApiErrorOf e),
     getErrorActionMessage (VoizmaticApiErrorOf e)) =
      if resp_status resp =? 403 then
        (Warning, "Warning",
         "You do not have permission to perform this action. Contact your administrator if you believe this is a mistake.")
      else if resp_status resp =? 404 then
        (Info, "Notice", "The requested resource was not found.")
      else if resp_status resp =? 429 then
        (Error, "Error", "Please try again or contact support if the problem persists.")
      else
        (Critical, "Server Error",
         "The server is experiencing issues. Please try again later or contact support if the problem persists.").
Proof.
  intros Hf Hin Hp.
  assert (H401 : resp_status resp <> 401).
  { cbn in Hin. intros E. rewrite E in Hin. repeat destruct Hin as [Hin|Hin]; lia. }
  assert (Hok : ok resp = false).
  { unfold ok. cbn in Hin.
    repeat (destruct Hin as [<-|Hin]; [reflexivity|]). destruct Hin. }
  exists (new_VoizmaticApiError a). split; [by eapply apiCall_error_status|].
  destruct (parseApiError_validationErrors _ _ _ Hp) as [Hs Hv].
  assert (Hm : forall c, fixed_message (resp_status resp) = Some c -> message a = c).
  { intros c Hc. destruct (validationErrors a).
    - destruct Hv as (parts & _ & ->). by apply status_specific_fixed.
    - destruct Hv as (m & ->). by apply status_specific_fixed. }
  destruct a as [m st stt ves oe]. cbn in *. subst st.
  cbn in Hin.
  repeat (destruct Hin as [E|Hin];
          [ rewrite <- E in *; rewrite (Hm _ eq_refl);
            repeat split; unfold getTitle, getErrorActionMessage; status_cases | ]).
  destruct Hin.
Qed.

Lemma canned_status_alert_witness :
  exists e,
    fst (apiCall (fun _ => Returned (json_response 404 phone_body))
           "/api/contacts/c9" None true empty_world) = Thrown (VoizmaticApiErrorOf e) /\
    getTitle (VoizmaticApiErrorOf e) = "Notice".
Proof.
  destruct (canned_status_alert (fun _ => Returned (json_response 404 phone_body))
              "/api/contacts/c9" None true empty_world
              (json_response 404 phone_body)
              {| message := "Resource not found."; status := Some 404;
                 statusText := Some "";
                 validationErrors := Some [json_of_ValidationError phone_error];
                 originalError := None |})
    as (e & He & _ & _ & _ & Hshow).
  - reflexivity.
  - cbn. tauto.
  - reflexivity.
  - exists e. split; [exact He|]. by injection Hshow as _ -> _.
Defined.

(** X14: severity and advice agree once network wording is out of the way.
    For an error that [isNetworkError] refuses, the action message is the
    not-found text exactly when the severity is ["info"], the server text
    exactly when it is ["critical"], the generic text exactly when it is
    ["error"], and one of the login, permission and review-your-input texts
    exactly when it is ["warning"]; for an error it accepts, the action
    message is the connection advice whatever the severity. *)
Theorem advice_matches_severity (error : ErrorValue) :
  (isNetworkError error = true ->
   getErrorActionMessage error = "Please check your internet connection and try again.") /\
  (isNetworkError error = false ->
   (getErrorSeverity error = Info <->
    getErrorActionMessage error = "The requested resource was not found.") /\
   (getErrorSeverity error = Critical <->
    getErrorActionMessage error =
      "The server is experiencing issues. Please try again later or contact support if the problem persists.") /\
   (getErrorSeverity error = Error <->
    getErrorActionMessage error =
      "Please try again or contact support if the problem persists.") /\
   (getErrorSeverity error = Warning <->
    In (getErrorActionMessage error)
       ["Please log in again to continue.";
        "You do not have permission to perform this action. Contact your administrator if you believe this is a mistake.";
        "Please review your input and try again."])).
Proof.
  unfold getErrorActionMessage, getErrorSeverity. split; [by intros ->|intros ->].
  destruct (isValidationError error) eqn:Hv, (isAuthError error) eqn:Ha,
    (isPermissionError error) eqn:Hp, (isNotFoundError error) eqn:Hn,
    (isServerError error) eqn:Hs;
    try (exfalso; destruct error as [[m [st|] stt ves]|tyerr name m|v];
         clear -Hv Ha Hp Hn Hs; status_cases; fail);
    cbn; repeat split; intros H; try discriminate; try reflexivity;
    try (cbn; tauto);
    try (exfalso; cbn in H; intuition discriminate).
Qed.

Lemma advice_matches_severity_witness :
  getErrorActionMessage (VoizmaticApiErrorOf (bare_error apiCall_network)) =
  "Please check your internet connection and try again.".
Proof.
  refine (proj1 (advice_matches_severity
                   (VoizmaticApiErrorOf (bare_error apiCall_network))) _).
  reflexivity.
Defined.

(** ** [api.auth] *)

Lemma login_unfold fetch credentials w :
  login fetch credentials w =
  match apiCall fetch "/api/auth/login"
          (Some {| init_method := Some "POST"; init_headers := None;
                   init_body := Some (JsonText credentials) |}) false w with
  | (Returned response, w1) =>
      match js_get response "access_token", js_get response "expires_at" with
      | Returned access_token, Returned expires_at =>
          match tokenManager.setToken access_token expires_at w1 with
          | (Returned _, w2) => (Returned response, w2)
          | (Thrown err, w2) => (Thrown err, w2)
          end
      | Thrown err, _ => (Thrown err, w1)
      | Returned _, Thrown err => (Thrown err, w1)
      end
  | (Thrown err, w1) => (Thrown err, w1)
  end.
Proof.
  unfold login, bind, lift, ret.
  destruct (apiCall _ _ _ _ w) as [[response|err] w1]; [|reflexivity].
  destruct (js_get response "access_token"); [|reflexivity].
  destruct (js_get response "expires_at"); [|reflexivity].
  by destruct (tokenManager.setToken _ _ w1) as [[[]|] ?].
Qed.

Lemma register_unfold fetch data w :
  register fetch data w =
  match apiCall fetch "/api/auth/register"
          (Some {| init_method := Some "POST"; init_headers := None;
                   init_body := Some (JsonText data) |}) false w with
  | (Returned response, w1) =>
      match js_get response "access_token", js_get response "expires_at" with
      | Returned access_token, Returned expires_at =>
          match tokenManager.setToken access_token expires_at w1 with
          | (Returned _, w2) => (Returned response, w2)
          | (Thrown err, w2) => (Thrown err, w2)
          end
      | Thrown err, _ => (Thrown err, w1)
      | Returned _, Thrown err => (Thrown err, w1)
      end
  | (Thrown err, w1) => (Thrown err, w1)
  end.
Proof.
  unfold register, bind, lift, ret.
  destruct (apiCall _ _ _ _ w) as [[response|err] w1]; [|reflexivity].
  destruct (js_get response "access_token"); [|reflexivity].
  destruct (js_get response "expires_at"); [|reflexivity].
  by destruct (tokenManager.setToken _ _ w1) as [[[]|] ?].
Qed.

(** X15: a login or registration answered 2xx without a JSON content type
    still "succeeds": the method returns the empty object and stores the
    string ["undefined"] as token and as expiry.  The next authenticated
    call then sends ["Bearer undefined"], and the token is not valid as long
    as ["undefined"] is no date. *)
Theorem session_from_empty_answer (fetch : Request -> Outcome Response)
    (Date_parse : string -> option Z) (body : JsValue) (w : World) (resp : Response) :
  ok resp = true ->
  declares_json resp = false ->
  (fetch (login_request w body) = Returned resp ->
   let w' := snd (login fetch body w) in
   fst (login fetch body w) = Returned (JObj []) /\
   localStorage w' !! TOKEN_KEY = Some "undefined" /\
   localStorage w' !! TOKEN_EXPIRY_KEY = Some "undefined" /\
   (forall endpoint options,
       headers (apiCall_request w' endpoint options true) !! "Authorization" =
       Some "Bearer undefined") /\
   (Date_parse "undefined" = None ->
    fst (tokenManager.isTokenValid Date_parse w') = Returned false)) /\
  (fetch (register_request w body) = Returned resp ->
   let w' := snd (register fetch body w) in
   fst (register fetch body w) = Returned (JObj []) /\
   localStorage w' !! TOKEN_KEY = Some "undefined" /\
   localStorage w' !! TOKEN_EXPIRY_KEY = Some "undefined").
Proof.
  intros Hok Hj.
  assert (Hk : forall m : gmap string string,
             (<[TOKEN_EXPIRY_KEY := "undefined"]> (<[TOKEN_KEY := "undefined"]> m))
               !! TOKEN_KEY = Some "undefined").
  { intros m. rewrite lookup_insert_ne by discriminate. apply lookup_insert_eq. }
  split.
  - intros Hf w'. subst w'. rewrite login_unfold.
    unfold login_request in Hf. rewrite (apiCall_2xx _ _ _ _ _ _ Hf Hok), Hj.
    cbn [js_get own_property default].
    rewrite (setToken_writes JUndefined JUndefined "undefined" "undefined") by reflexivity.
    cbn [fst snd]. repeat split.
    + apply Hk.
    + apply lookup_insert_eq.
    + intros endpoint options.
      apply apiCall_request_authorization; [apply Hk|discriminate].
    + intros Hd. rewrite isTokenValid_reads. cbn [fst]. f_equal.
      change (localStorage (with_localStorage ?f ?x)) with (f (localStorage x)).
      cbn beta. rewrite lookup_insert_eq.
      change (default "" (Some "undefined")) with "undefined". rewrite Hd.
      by rewrite andb_false_r.
  - intros Hf w'. subst w'. rewrite register_unfold.
    unfold register_request in Hf. rewrite (apiCall_2xx _ _ _ _ _ _ Hf Hok), Hj.
    cbn [js_get own_property default].
    rewrite (setToken_writes JUndefined JUndefined "undefined" "undefined") by reflexivity.
    cbn [fst snd]. repeat split.
    + apply Hk.
    + apply lookup_insert_eq.
Qed.

Lemma session_from_empty_answer_witness :
  fst (tokenManager.getToken
         (snd (login (fun _ => Returned (response_of 204 None not_json))
                 credentials_example empty_world))) =
  Returned (Some "undefined").
Proof.
  destruct (proj1 (session_from_empty_answer
                     (fun _ => Returned (response_of 204 None not_json))
                     (fun _ => None) credentials_example empty_world
                     (response_of 204 None not_json) eq_refl eq_refl) eq_refl)
    as (_ & Hk & _).
  unfold tokenManager.getToken, getItem. cbn [fst]. congruence.
Defined.

Lemma apiCall_completion fetch endpoint options requiresAuth w :
  let res := apiCall fetch endpoint options requiresAuth w in
  let rq := apiCall_request w endpoint options requiresAuth in
  requests (snd res) = (requests w ++ [rq])%list /\
  match fst res with
  | Returned _ =>
      (exists resp, fetch rq = Returned resp /\ ok resp = true) /\
      localStorage (snd res) = localStorage w
  | Thrown err =>
      exists e, err = VoizmaticApiErrorOf e /\
        (localStorage (snd res) = localStorage w \/
         (this_status e = Some 401 /\
          localStorage (snd res) = without_token (localStorage w)))
  end.
Proof.
  intros res rq. subst res rq. split; [apply apiCall_sends|].
  pose proof (apiCall_normalized fetch endpoint options requiresAuth w) as Hn.
  pose proof (apiCall_footprint fetch endpoint options requiresAuth w) as (Hrq & _ & Hfp).
  unfold normalized, answered_ok in Hn.
  destruct (apiCall fetch endpoint options requiresAuth w) as [[p|err] w1]; cbn [fst snd] in *.
  - destruct Hn as (rq & resp & Hlast & Hf & Hok & H401 & _).
    rewrite Hrq, last_snoc in Hlast. injection Hlast as <-.
    rewrite Hf in Hfp. apply Z.eqb_neq in H401. rewrite H401 in Hfp.
    split; [eauto|]. apply Hfp.
  - destruct Hn as [e ->]. exists e. split; [reflexivity|].
    destruct (fetch _) as [resp|x]; [|left; apply Hfp].
    destruct (resp_status resp =? 401).
    + destruct Hfp as (Hs & _ & [= ->]). right. split; [reflexivity|exact Hs].
    + left. apply Hfp.
Qed.

Lemma login_completion (fetch : Request -> Outcome Response)
    (credentials : JsValue) (w : World) :
  let res := login fetch credentials w in
  let rq := login_request w credentials in
  requests (snd res) = (requests w ++ [rq])%list /\
  match fst res with
  | Returned response =>
      exists resp t e,
        fetch rq = Returned resp /\ ok resp = true /\
        obind (js_get response "access_token") ToString = Returned t /\
        obind (js_get response "expires_at") ToString = Returned e /\
        localStorage (snd res) =
          <[TOKEN_EXPIRY_KEY := e]> (<[TOKEN_KEY := t]> (localStorage w))
  | Thrown (VoizmaticApiErrorOf e) =>
      localStorage (snd res) = localStorage w \/
      (this_status e = Some 401 /\
       localStorage (snd res) = without_token (localStorage w))
  | Thrown err =>
      is_TypeError err /\
      (exists resp, fetch rq = Returned resp /\ ok resp = true) /\
      (forall k, k <> TOKEN_KEY -> localStorage (snd res) !! k = localStorage w !! k)
  end.
Proof.
  intros res rq. subst res rq. rewrite login_unfold. unfold login_request.
  pose proof (apiCall_completion fetch "/api/auth/login"
                (Some {| init_method := Some "POST"; init_headers := None;
                         init_body := Some (JsonText credentials) |}) false w)
    as (Hrq & Hc).
  cbv zeta in Hrq, Hc.
  destruct (apiCall fetch _ _ _ w) as [[response|err] w1]; cbn [fst snd] in *.
  - destruct Hc as [Hans Hst].
    destruct (js_get response "access_token") as [tokv|x] eqn:Ht.
    2:{ destruct (js_get_throws _ _ _ Ht) as [m ->]. cbn.
        split; [exact Hrq|]. split; [by eexists|]. split; [exact Hans|].
        intros k _. by rewrite Hst. }
    destruct (js_get response "expires_at") as [expv|x] eqn:He.
    2:{ destruct (js_get_throws _ _ _ He) as [m ->]. cbn.
        split; [exact Hrq|]. split; [by eexists|]. split; [exact Hans|].
        intros k _. by rewrite Hst. }
    unfold tokenManager.setToken, setItem, bind, lift.
    destruct (ToString tokv) as [t|x] eqn:Hts.
    2:{ destruct (ToString_throws _ _ Hts) as [m ->]. cbn.
        split; [exact Hrq|]. split; [by eexists|]. split; [exact Hans|].
        intros k _. by rewrite Hst. }
    destruct (ToString expv) as [e|x] eqn:Hes.
    2:{ destruct (ToString_throws _ _ Hes) as [m ->]. cbn.
        split; [exact Hrq|]. split; [by eexists|]. split; [exact Hans|].
        intros k Hk. rewrite lookup_insert_ne by congruence. by rewrite Hst. }
    cbn. split; [exact Hrq|]. destruct Hans as (resp & Hf & Hok).
    exists resp, t, e. split; [exact Hf|]. split; [exact Hok|].
    split; [by rewrite Ht|]. split; [by rewrite He|]. by rewrite Hst.
  - destruct Hc as (e & -> & Hst). cbn. split; assumption.
Qed.

(** X16: the ways [api.auth.login] can end.  It sends one request.  When it
    returns, the answer was a 2xx and the string conversions of the
    payload's [access_token] and [expires_at] are what the two token keys
    now hold.  When it throws a [VoizmaticApiError], no token was written:
    storage is as before, or, after a 401, without the two token keys.  Any
    other exception is a [TypeError] raised while reading the payload of a
    2xx answer, and then nothing but the token key can have changed. *)
Theorem login_outcomes (fetch : Request -> Outcome Response)
    (credentials : JsValue) (w : World) :
  let res := login fetch credentials w in
  let rq := login_request w credentials in
  requests (snd res) = (requests w ++ [rq])%list /\
  match fst res with
  | Returned response =>
      exists resp t e,
        fetch rq = Returned resp /\ ok resp = true /\
        obind (js_get response "access_token") ToString = Returned t /\
        obind (js_get response "expires_at") ToString = Returned e /\
        localStorage (snd res) =
          <[TOKEN_EXPIRY_KEY := e]> (<[TOKEN_KEY := t]> (localStorage w))
  | Thrown (VoizmaticApiErrorOf e) =>
      localStorage (snd res) = localStorage w \/
      (this_status e = Some 401 /\
       localStorage (snd res) = without_token (localStorage w))
  | Thrown err =>
      is_TypeError err /\
      (exists resp, fetch rq = Returned resp /\ ok resp = true) /\
      (forall k, k <> TOKEN_KEY -> localStorage (snd res) !! k = localStorage w !! k)
  end.
Proof. apply login_completion. Qed.

Lemma login_outcomes_witness :
  requests (snd (login login_then_401 credentials_example empty_world)) =
  [login_request empty_world credentials_example].
Proof.
  exact (proj1 (login_outcomes login_then_401 credentials_example empty_world)).
Defined.

Lemma register_completion (fetch : Request -> Outcome Response)
    (credentials : JsValue) (w : World) :
  let res := register fetch credentials w in
  let rq := register_request w credentials in
  requests (snd res) = (requests w ++ [rq])%list /\
  match fst res with
  | Returned response =>
      exists resp t e,
        fetch rq = Returned resp /\ ok resp = true /\
        obind (js_get response "access_token") ToString = Returned t /\
        obind (js_get response "expires_at") ToString = Returned e /\
        localStorage (snd res) =
          <[TOKEN_EXPIRY_KEY := e]> (<[TOKEN_KEY := t]> (localStorage w))
  | Thrown (VoizmaticApiErrorOf e) =>
      localStorage (snd res) = localStorage w \/
      (this_status e = Some 401 /\
       localStorage (snd res) = without_token (localStorage w))
  | Thrown err =>
      is_TypeError err /\
      (exists resp, fetch rq = Returned resp /\ ok resp = true) /\
      (forall k, k <> TOKEN_KEY -> localStorage (snd res) !! k = localStorage w !! k)
  end.
Proof.
  intros res rq. subst res rq. rewrite register_unfold. unfold register_request.
  pose proof (apiCall_completion fetch "/api/auth/register"
                (Some {| init_method := Some "POST"; init_headers := None;
                         init_body := Some (JsonText credentials) |}) false w)
    as (Hrq & Hc).
  cbv zeta in Hrq, Hc.
  destruct (apiCall fetch _ _ _ w) as [[response|err] w1]; cbn [fst snd] in *.
  - destruct Hc as [Hans Hst].
    destruct (js_get response "access_token") as [tokv|x] eqn:Ht.
    2:{ destruct (js_get_throws _ _ _ Ht) as [m ->]. cbn.
        split; [exact Hrq|]. split; [by eexists|]. split; [exact Hans|].
        intros k _. by rewrite Hst. }
    destruct (js_get response "expires_at") as [expv|x] eqn:He.
    2:{ destruct (js_get_throws _ _ _ He) as [m ->]. cbn.
        split; [exact Hrq|]. split; [by eexists|]. split; [exact Hans|].
        intros k _. by rewrite Hst. }
    unfold tokenManager.setToken, setItem, bind, lift.
    destruct (ToString tokv) as [t|x] eqn:Hts.
    2:{ destruct (ToString_throws _ _ Hts) as [m ->]. cbn.
        split; [exact Hrq|]. split; [by eexists|]. split; [exact Hans|].
        intros k _. by rewrite Hst. }
    destruct (ToString expv) as [e|x] eqn:Hes.
    2:{ destruct (ToString_throws _ _ Hes) as [m ->]. cbn.
        split; [exact Hrq|]. split; [by eexists|]. split; [exact Hans|].
        intros k Hk. rewrite lookup_insert_ne by congruence. by rewrite Hst. }
    cbn. split; [exact Hrq|]. destruct Hans as (resp & Hf & Hok).
    exists resp, t, e. split; [exact Hf|]. split; [exact Hok|].
    split; [by rewrite Ht|]. split; [by rewrite He|]. by rewrite Hst.
  - destruct Hc as (e & -> & Hst). cbn. split; assumption.
Qed.

(** X25: [api.auth.register] ends in the same ways as [login]: one
    request; on return, a 2xx answer and the string conversions of the
    payload's [access_token] and [expires_at] stored under the two token
    keys; on a [VoizmaticApiError], no token written (storage as before, or
    without the token keys after a 401); any other exception is a
    [TypeError] from reading the payload of a 2xx answer. *)
Theorem register_outcomes (fetch : Request -> Outcome Response)
    (credentials : JsValue) (w : World) :
  let res := register fetch credentials w in
  let rq := register_request w credentials in
  requests (snd res) = (requests w ++ [rq])%list /\
  match fst res with
  | Returned response =>
      exists resp t e,
        fetch rq = Returned resp /\ ok resp = true /\
        obind (js_get response "access_token") ToString = Returned t /\
        obind (js_get response "expires_at") ToString = Returned e /\
        localStorage (snd res) =
          <[TOKEN_EXPIRY_KEY := e]> (<[TOKEN_KEY := t]> (localStorage w))
  | Thrown (VoizmaticApiErrorOf e) =>
      localStorage (snd res) = localStorage w \/
      (this_status e = Some 401 /\
       localStorage (snd res) = without_token (localStorage w))
  | Thrown err =>
      is_TypeError err /\
      (exists resp, fetch rq = Returned resp /\ ok resp = true) /\
      (forall k, k <> TOKEN_KEY -> localStorage (snd res) !! k = localStorage w !! k)
  end.
Proof. apply register_completion. Qed.

Lemma register_outcomes_witness :
  requests (snd (register login_then_401 credentials_example empty_world)) =
  [register_request empty_world credentials_example].
Proof.
  exact (proj1 (register_outcomes login_then_401 credentials_example empty_world)).
Defined.

Lemma auth_logout_unfold fetch w :
  auth_logout fetch w =
  match apiCall fetch "/api/auth/logout"
          (Some {| init_method := Some "POST"; init_headers := None; init_body := None |})
          true w with
  | (Returned response, w1) => (Returned response, with_localStorage without_token w1)
  | (Thrown err, w1) => (Thrown err, w1)
  end.
Proof.
  unfold auth_logout, bind, ret.
  destruct (apiCall _ _ _ _ w) as [[response|err] w1]; [|reflexivity].
  by rewrite clearToken_deletes.
Qed.

Lemma auth_logout_completion fetch w :
  let res := auth_logout fetch w in
  requests (snd res) = (requests w ++ [logout_request w])%list /\
  match fst res with
  | Returned _ =>
      (exists resp, fetch (logout_request w) = Returned resp /\ ok resp = true) /\
      localStorage (snd res) = without_token (localStorage w)
  | Thrown err =>
      exists e, err = VoizmaticApiErrorOf e /\
        (localStorage (snd res) = localStorage w \/
         (this_status e = Some 401 /\
          localStorage (snd res) = without_token (localStorage w)))
  end.
Proof.
  intros res. subst res. rewrite auth_logout_unfold. unfold logout_request.
  pose proof (apiCall_completion fetch "/api/auth/logout"
                (Some {| init_method := Some "POST"; init_headers := None;
                         init_body := None |}) true w) as (Hrq & Hc).
  cbv zeta in Hrq, Hc.
  destruct (apiCall fetch _ _ _ w) as [[response|err] w1]; cbn [fst snd] in *.
  - split; [exact Hrq|]. destruct Hc as [Hans Hst]. split; [exact Hans|].
    cbn. by rewrite Hst.
  - split; [exact Hrq|exact Hc].
Qed.

(** X17: [api.auth.logout] forgets the token only if the server call
    succeeds or is answered 401.  It sends one request; when it returns,
    both token keys are gone; when it throws, the error is the typed error
    of the call and the token is still stored unless that error is the 401
    one. *)
Theorem api_logout_keeps_token_on_failure (fetch : Request -> Outcome Response)
    (w : World) :
  let res := auth_logout fetch w in
  requests (snd res) = (requests w ++ [logout_request w])%list /\
  match fst res with
  | Returned _ =>
      (exists resp, fetch (logout_request w) = Returned resp /\ ok resp = true) /\
      localStorage (snd res) = without_token (localStorage w)
  | Thrown err =>
      exists e, err = VoizmaticApiErrorOf e /\
        (localStorage (snd res) = localStorage w \/
         (this_status e = Some 401 /\
          localStorage (snd res) = without_token (localStorage w)))
  end.
Proof. apply auth_logout_completion. Qed.

(** ** [AuthContext] *)

Lemma profileToUser_throws (profile : JsValue) (err : ErrorValue) :
  profileToUser profile = Thrown err -> is_TypeError err.
Proof.
  unfold profileToUser.
  repeat match goal with
  | |- context [obind (js_get ?v ?k) _] =>
      let E := fresh "E" in
      destruct (js_get v k) eqn:E; cbn [obind];
      [|intros [= <-]; by eapply js_get_throws]
  end.
  unfold email_prefix.
  match goal with |- context [match ?x with JStr _ => _ | _ => _ end] => destruct x end;
    cbn; try discriminate; intros [= <-]; by eexists.
Qed.

Lemma getProfile_completion fetch w :
  let res := getProfile fetch w in
  requests (snd res) = (requests w ++ [profile_request w])%list /\
  match fst res with
  | Returned _ =>
      (exists resp, fetch (profile_request w) = Returned resp /\ ok resp = true) /\
      localStorage (snd res) = localStorage w
  | Thrown err =>
      exists e, err = VoizmaticApiErrorOf e /\
        (localStorage (snd res) = localStorage w \/
         (this_status e = Some 401 /\
          localStorage (snd res) = without_token (localStorage w)))
  end.
Proof. apply apiCall_completion. Qed.

Section AuthContextFacts.

Variable fetch : Request -> Outcome Response.
Variable Date_parse : string -> option Z.
Variable JSON_stringify : JsValue -> string.
Variable JSON_parse : string -> Outcome JsValue.

Lemma load_profile_unfold (st : AuthState) (w : World) :
  load_profile fetch JSON_stringify st w =
  match getProfile fetch w with
  | (Returned profile, w1) =>
      match profileToUser profile with
      | Returned userData =>
          (Returned {| auth_user := userData; auth_isLoading := auth_isLoading st;
                       auth_error := auth_error st |},
           with_localStorage (insert "currentUser" (JSON_stringify userData)) w1)
      | Thrown err => (Thrown err, w1)
      end
  | (Thrown err, w1) => (Thrown err, w1)
  end.
Proof.
  unfold load_profile, bind, lift, ret, setItem, bind, lift.
  destruct (getProfile fetch w) as [[profile|err] w1]; [|reflexivity].
  destruct (profileToUser profile); reflexivity.
Qed.

(** When [api.auth.getProfile] returns, what it returns is the decoded body
    of the 2xx answer to the profile request (an empty object when that
    answer declares no JSON), and nothing but the request was recorded. *)
Lemma getProfile_returned (w : World) (profile : JsValue) :
  fst (getProfile fetch w) = Returned profile ->
  exists resp,
    fetch (profile_request w) = Returned resp /\ ok resp = true /\
    (if declares_json resp then json resp = Returned profile else profile = JObj []) /\
    snd (getProfile fetch w) = sent (profile_request w) w.
Proof.
  unfold getProfile, profile_request.
  destruct (fetch (apiCall_request w "/api/auth/profile"
                     (Some {| init_method := Some "GET"; init_headers := None;
                              init_body := None |}) true)) as [resp|x] eqn:Hf.
  - destruct (ok resp) eqn:Hok.
    + rewrite (apiCall_2xx _ _ _ _ _ _ Hf Hok). cbn [fst snd].
      intros Hr. exists resp. split; [reflexivity|]. split; [exact Hok|].
      split; [|reflexivity].
      destruct (declares_json resp); [|congruence].
      destruct (json resp); cbn in Hr; congruence.
    + destruct (decide (resp_status resp = 401)) as [H401|H401].
      * by rewrite (apiCall_logged_out _ _ _ _ _ _ Hf H401).
      * rewrite (apiCall_not_ok _ _ _ _ _ _ Hf H401 Hok). cbn [fst].
        unfold rejected. by destruct (parseApiError _ _).
  - by rewrite (apiCall_rejected _ _ _ _ _ _ Hf).
Qed.

Lemma profileToUser_empty : exists err, profileToUser (JObj []) = Thrown err.
Proof. eexists. reflexivity. Qed.

(** How [load_profile] ends.  Either the profile request was answered 2xx
    with a JSON body that converts to a user, and that user is installed and
    persisted; or [getProfile] or the conversion threw, and the exception
    passes through with the world [getProfile] left. *)
Lemma load_profile_cases (st : AuthState) (w : World) :
  (exists resp profile user,
      fetch (profile_request w) = Returned resp /\ ok resp = true /\
      declares_json resp = true /\ json resp = Returned profile /\
      profileToUser profile = Returned user /\
      load_profile fetch JSON_stringify st w =
        (Returned {| auth_user := user; auth_isLoading := auth_isLoading st;
                     auth_error := auth_error st |},
         with_localStorage (insert "currentUser" (JSON_stringify user))
           (sent (profile_request w) w))) \/
  (exists err,
      (fst (getProfile fetch w) = Thrown err \/
       exists profile,
         fst (getProfile fetch w) = Returned profile /\
         profileToUser profile = Thrown err) /\
      ((exists e, err = VoizmaticApiErrorOf e) \/ is_TypeError err) /\
      load_profile fetch JSON_stringify st w = (Thrown err, snd (getProfile fetch w)) /\
      requests (snd (getProfile fetch w)) = (requests w ++ [profile_request w])%list /\
      (localStorage (snd (getProfile fetch w)) = localStorage w \/
       localStorage (snd (getProfile fetch w)) = without_token (localStorage w))).
Proof.
  rewrite load_profile_unfold.
  pose proof (getProfile_completion fetch w) as (Hrq & Hc). cbv zeta in Hrq, Hc.
  pose proof (getProfile_returned w) as Hret.
  destruct (getProfile fetch w) as [[profile|err] w1]; cbn [fst snd] in *.
  - destruct Hc as [_ Hst].
    destruct (Hret profile eq_refl) as (resp & Hf & Hok & Hbody & ->).
    destruct (profileToUser profile) as [user|err] eqn:Hu.
    + left. exists resp, profile, user.
      destruct (declares_json resp).
      * by repeat split.
      * subst profile. destruct profileToUser_empty as [err Herr]. congruence.
    + right. exists err. split; [right; eauto|].
      split; [right; by eapply profileToUser_throws|]. split; [reflexivity|].
      split; [exact Hrq|by left].
  - right. exists err. destruct Hc as (e & -> & Hst).
    split; [by left|]. split; [left; eauto|]. split; [reflexivity|].
    split; [exact Hrq|]. destruct Hst as [Hst|[_ Hst]]; [by left|by right].
Qed.

Lemma currentUser_without_token (m : gmap string string) :
  without_token m !! "currentUser" = m !! "currentUser".
Proof. by apply without_token_lookup. Qed.

Lemma login_throws (credentials : JsValue) (w : World) (err : ErrorValue) :
  fst (login fetch credentials w) = Thrown err ->
  ((exists e, err = VoizmaticApiErrorOf e) \/ is_TypeError err) /\
  localStorage (snd (login fetch credentials w)) !! "currentUser" =
    localStorage w !! "currentUser".
Proof.
  pose proof (login_completion fetch credentials w) as (_ & Hc). cbv zeta in Hc.
  intros Hl. rewrite Hl in Hc. destruct err as [e|ty name m|v].
  - split; [left; eauto|]. destruct Hc as [->|[_ ->]]; [reflexivity|].
    apply currentUser_without_token.
  - destruct Hc as (Hty & _ & Hk). split; [by right|]. by apply Hk.
  - destruct Hc as (Hty & _ & Hk). split; [by right|]. by apply Hk.
Qed.

Lemma login_returns (credentials : JsValue) (w : World) (response : JsValue) :
  fst (login fetch credentials w) = Returned response ->
  is_Some (localStorage (snd (login fetch credentials w)) !! TOKEN_KEY) /\
  localStorage (snd (login fetch credentials w)) !! "currentUser" =
    localStorage w !! "currentUser".
Proof.
  pose proof (login_completion fetch credentials w) as (_ & Hc). cbv zeta in Hc.
  intros Hl. rewrite Hl in Hc. destruct Hc as (resp & t & e & _ & _ & _ & _ & ->).
  split.
  - exists t. rewrite lookup_insert_ne by discriminate. apply lookup_insert_eq.
  - by rewrite !lookup_insert_ne by discriminate.
Qed.

(** The text of a thrown [VoizmaticApiError] or [TypeError] is its own
    message, whatever the fallback. *)
Lemma message_or_thrown (fallback : string) (err : ErrorValue) :
  (exists e, err = VoizmaticApiErrorOf e) \/ is_TypeError err ->
  (exists e, err = VoizmaticApiErrorOf e /\ message_or fallback err = this_message e) \/
  (exists m, err = TypeError m /\ message_or fallback err = m).
Proof. intros [[e ->]|[m ->]]; [left|right]; eauto. Qed.

Lemma AuthContext_login_unfold (username password : string) (st : AuthState) (w : World) :
  AuthContext_login fetch JSON_stringify username password st w =
  match login fetch (JObj [("username", JStr username); ("password", JStr password)]) w with
  | (Returned _, w1) =>
      match load_profile fetch JSON_stringify
              {| auth_user := auth_user st; auth_isLoading := true; auth_error := None |}
              w1 with
      | (Returned st2, w2) =>
          (Returned (true, {| auth_user := auth_user st2; auth_isLoading := false;
                              auth_error := auth_error st2 |}), w2)
      | (Thrown err, w2) =>
          (Returned (false, {| auth_user := auth_user st; auth_isLoading := false;
                               auth_error := Some (message_or "Login failed" err) |}), w2)
      end
  | (Thrown err, w1) =>
      (Returned (false, {| auth_user := auth_user st; auth_isLoading := false;
                           auth_error := Some (message_or "Login failed" err) |}), w1)
  end.
Proof.
  unfold AuthContext_login, try_catch, bind, ret.
  destruct (login fetch _ w) as [[response|err] w1]; [|reflexivity].
  by destruct (load_profile fetch JSON_stringify _ w1) as [[st2|err] w2].
Qed.

(** X18: [login] of the context never throws and always ends with
    [isLoading] false.  It answers [true] only when [api.auth.login]
    returned and the profile request that followed was answered 2xx with a
    JSON body that converts to a user: that user is installed, persisted
    under ["currentUser"], no error is set, and a token is in storage.  It
    answers [false] with the user and ["currentUser"] untouched, and the
    error it sets is the message of the very exception that ended the
    attempt, thrown by [api.auth.login], by [api.auth.getProfile] or by the
    conversion of the profile; that exception is always a
    [VoizmaticApiError] or a [TypeError], so the ["Login failed"] fallback
    is never shown. *)
Theorem context_login_reports (username password : string) (st : AuthState) (w : World) :
  let creds := JObj [("username", JStr username); ("password", JStr password)] in
  let logged := login fetch creds w in
  let fetched := getProfile fetch (snd logged) in
  let res := AuthContext_login fetch JSON_stringify username password st w in
  exists b st',
    fst res = Returned (b, st') /\
    auth_isLoading st' = false /\
    (b = true ->
       auth_error st' = None /\
       (exists payload resp profile,
          fst logged = Returned payload /\
          fetch (profile_request (snd logged)) = Returned resp /\
          ok resp = true /\ declares_json resp = true /\
          json resp = Returned profile /\
          profileToUser profile = Returned (auth_user st')) /\
       localStorage (snd res) !! "currentUser" = Some (JSON_stringify (auth_user st')) /\
       is_Some (localStorage (snd res) !! TOKEN_KEY)) /\
    (b = false ->
       auth_user st' = auth_user st /\
       localStorage (snd res) !! "currentUser" = localStorage w !! "currentUser" /\
       exists err,
         (fst logged = Thrown err \/
          ((exists payload, fst logged = Returned payload) /\
           (fst fetched = Thrown err \/
            exists profile,
              fst fetched = Returned profile /\ profileToUser profile = Thrown err))) /\
         ((exists e, err = VoizmaticApiErrorOf e /\ auth_error st' = Some (this_message e)) \/
          (exists m, err = TypeError m /\ auth_error st' = Some m))).
Proof.
  intros creds logged fetched res. subst res fetched logged.
  rewrite AuthContext_login_unfold. fold creds.
  set (st1 := {| auth_user := auth_user st; auth_isLoading := true;
                 auth_error := None |}).
  pose proof (login_throws creds w) as Hthrows.
  pose proof (login_returns creds w) as Hreturns.
  destruct (login fetch creds w) as [[response|err] w1]; cbn [fst snd] in *.
  - destruct (Hreturns _ eq_refl) as [Htok Hcur].
    destruct (load_profile_cases st1 w1)
      as [(resp & profile & user & Hf & Hok & Hj & Hjson & Hu & ->)
         |(err & Horigin & Hkind & -> & _ & Hst)]; cbn [fst snd].
    + eexists true, _. split; [reflexivity|]. split; [reflexivity|].
      split; [|discriminate]. intros _. cbn. split; [reflexivity|].
      split; [by exists response, resp, profile|].
      split; [apply lookup_insert_eq|]. by rewrite lookup_insert_ne.
    + eexists false, _. split; [reflexivity|]. split; [reflexivity|].
      split; [discriminate|]. intros _. cbn. split; [reflexivity|]. split.
      * destruct Hst as [->| ->]; [exact Hcur|].
        by rewrite currentUser_without_token.
      * exists err. split; [right; split; [by eexists|exact Horigin]|].
        destruct (message_or_thrown "Login failed" err Hkind)
          as [(e & -> & ->)|(m & -> & ->)]; [left|right]; eauto.
  - destruct (Hthrows _ eq_refl) as [Hkind Hcur].
    eexists false, _. split; [reflexivity|]. split; [reflexivity|].
    split; [discriminate|]. intros _. cbn. split; [reflexivity|].
    split; [exact Hcur|].
    exists err. split; [by left|].
    destruct (message_or_thrown "Login failed" err Hkind)
      as [(e & -> & ->)|(m & -> & ->)]; [left|right]; eauto.
Qed.

Lemma register_throws (credentials : JsValue) (w : World) (err : ErrorValue) :
  fst (register fetch credentials w) = Thrown err ->
  ((exists e, err = VoizmaticApiErrorOf e) \/ is_TypeError err) /\
  localStorage (snd (register fetch credentials w)) !! "currentUser" =
    localStorage w !! "currentUser".
Proof.
  pose proof (register_completion fetch credentials w) as (_ & Hc). cbv zeta in Hc.
  intros Hl. rewrite Hl in Hc. destruct err as [e|ty name m|v].
  - split; [left; eauto|]. destruct Hc as [->|[_ ->]]; [reflexivity|].
    apply currentUser_without_token.
  - destruct Hc as (Hty & _ & Hk). split; [by right|]. by apply Hk.
  - destruct Hc as (Hty & _ & Hk). split; [by right|]. by apply Hk.
Qed.

Lemma register_returns (credentials : JsValue) (w : World) (response : JsValue) :
  fst (register fetch credentials w) = Returned response ->
  is_Some (localStorage (snd (register fetch credentials w)) !! TOKEN_KEY) /\
  localStorage (snd (register fetch credentials w)) !! "currentUser" =
    localStorage w !! "currentUser".
Proof.
  pose proof (register_completion fetch credentials w) as (_ & Hc). cbv zeta in Hc.
  intros Hl. rewrite Hl in Hc. destruct Hc as (resp & t & e & _ & _ & _ & _ & ->).
  split.
  - exists t. rewrite lookup_insert_ne by discriminate. apply lookup_insert_eq.
  - by rewrite !lookup_insert_ne by discriminate.
Qed.

Lemma AuthContext_register_unfold (username password : string) (fullName : JsValue)
    (st : AuthState) (w : World) :
  AuthContext_register fetch JSON_stringify username password fullName st w =
  match register fetch (JObj [("username", JStr username); ("password", JStr password);
                        ("full_name", fullName)]) w with
  | (Returned _, w1) =>
      match load_profile fetch JSON_stringify
              {| auth_user := auth_user st; auth_isLoading := true; auth_error := None |}
              w1 with
      | (Returned st2, w2) =>
          (Returned (true, {| auth_user := auth_user st2; auth_isLoading := false;
                              auth_error := auth_error st2 |}), w2)
      | (Thrown err, w2) =>
          (Returned (false, {| auth_user := auth_user st; auth_isLoading := false;
                               auth_error := Some (message_or "Registration failed" err) |}), w2)
      end
  | (Thrown err, w1) =>
      (Returned (false, {| auth_user := auth_user st; auth_isLoading := false;
                           auth_error := Some (message_or "Registration failed" err) |}), w1)
  end.
Proof.
  unfold AuthContext_register, try_catch, bind, ret.
  destruct (register fetch _ w) as [[response|err] w1]; [|reflexivity].
  by destruct (load_profile fetch JSON_stringify _ w1) as [[st2|err] w2].
Qed.

(** X26: [register] of the context behaves as its [login].  It never throws
    and ends with [isLoading] false.  [true] comes only when
    [api.auth.register] returned and the profile request that followed was
    answered 2xx with a JSON body that converts to a user: that user is
    installed and persisted under ["currentUser"], no error is set, and a
    token is in storage.  [false] comes with the user and ["currentUser"]
    untouched and the error set to the message of the very exception that
    ended the attempt, thrown by [api.auth.register], by
    [api.auth.getProfile] or by the conversion of the profile; it is always
    a [VoizmaticApiError] or a [TypeError], never the
    ["Registration failed"] fallback. *)
Theorem context_register_reports (username password : string) (fullName : JsValue)
    (st : AuthState) (w : World) :
  let data := JObj [("username", JStr username); ("password", JStr password);
                    ("full_name", fullName)] in
  let registered := register fetch data w in
  let fetched := getProfile fetch (snd registered) in
  let res := AuthContext_register fetch JSON_stringify username password fullName st w in
  exists b st',
    fst res = Returned (b, st') /\
    auth_isLoading st' = false /\
    (b = true ->
       auth_error st' = None /\
       (exists payload resp profile,
          fst registered = Returned payload /\
          fetch (profile_request (snd registered)) = Returned resp /\
          ok resp = true /\ declares_json resp = true /\
          json resp = Returned profile /\
          profileToUser profile = Returned (auth_user st')) /\
       localStorage (snd res) !! "currentUser" = Some (JSON_stringify (auth_user st')) /\
       is_Some (localStorage (snd res) !! TOKEN_KEY)) /\
    (b = false ->
       auth_user st' = auth_user st /\
       localStorage (snd res) !! "currentUser" = localStorage w !! "currentUser" /\
       exists err,
         (fst registered = Thrown err \/
          ((exists payload, fst registered = Returned payload) /\
           (fst fetched = Thrown err \/
            exists profile,
              fst fetched = Returned profile /\ profileToUser profile = Thrown err))) /\
         ((exists e, err = VoizmaticApiErrorOf e /\ auth_error st' = Some (this_message e)) \/
          (exists m, err = TypeError m /\ auth_error st' = Some m))).
Proof.
  intros data registered fetched res. subst res fetched registered.
  rewrite AuthContext_register_unfold. fold data.
  set (st1 := {| auth_user := auth_user st; auth_isLoading := true;
                 auth_error := None |}).
  pose proof (register_throws data w) as Hthrows.
  pose proof (register_returns data w) as Hreturns.
  destruct (register fetch data w) as [[response|err] w1]; cbn [fst snd] in *.
  - destruct (Hreturns _ eq_refl) as [Htok Hcur].
    destruct (load_profile_cases st1 w1)
      as [(resp & profile & user & Hf & Hok & Hj & Hjson & Hu & ->)
         |(err & Horigin & Hkind & -> & _ & Hst)]; cbn [fst snd].
    + eexists true, _. split; [reflexivity|]. split; [reflexivity|].
      split; [|discriminate]. intros _. cbn. split; [reflexivity|].
      split; [by exists response, resp, profile|].
      split; [apply lookup_insert_eq|]. by rewrite lookup_insert_ne.
    + eexists false, _. split; [reflexivity|]. split; [reflexivity|].
      split; [discriminate|]. intros _. cbn. split; [reflexivity|]. split.
      * destruct Hst as [->| ->]; [exact Hcur|].
        by rewrite currentUser_without_token.
      * exists err. split; [right; split; [by eexists|exact Horigin]|].
        destruct (message_or_thrown "Registration failed" err Hkind)
          as [(e & -> & ->)|(m & -> & ->)]; [left|right]; eauto.
  - destruct (Hthrows _ eq_refl) as [Hkind Hcur].
    eexists false, _. split; [reflexivity|]. split; [reflexivity|].
    split; [discriminate|]. intros _. cbn. split; [reflexivity|].
    split; [exact Hcur|].
    exists err. split; [by left|].
    destruct (message_or_thrown "Registration failed" err Hkind)
      as [(e & -> & ->)|(m & -> & ->)]; [left|right]; eauto.
Qed.

Lemma auth_logout_storage (w : World) :
  localStorage (snd (auth_logout fetch w)) = localStorage w \/
  localStorage (snd (auth_logout fetch w)) = without_token (localStorage w).
Proof.
  pose proof (auth_logout_completion fetch w) as (_ & Hc). cbv zeta in Hc.
  destruct (fst (auth_logout fetch w)) as [response|err].
  - right. apply Hc.
  - destruct Hc as (v & _ & [H|[_ H]]); [by left|by right].
Qed.

Lemma AuthContext_logout_unfold (st : AuthState) (w : World) :
  AuthContext_logout fetch st w =
  (Returned {| auth_user := JNull; auth_isLoading := auth_isLoading st;
               auth_error := auth_error st |},
   with_localStorage (fun m => delete "currentUser" (without_token m))
     match auth_logout fetch w with
     | (Returned _, w1) => w1
     | (Thrown err, w1) =>
         {| localStorage := localStorage w1; clock := clock w1; timers := timers w1;
            console := console w1 ++ [("Logout API error:", err)];
            requests := requests w1; downloads := downloads w1 |}
     end).
Proof.
  unfold AuthContext_logout, try_catch, bind, ret, console_error, console_warn.
  rewrite clearToken_deletes_fun. unfold removeItem.
  by destruct (auth_logout fetch w) as [[response|err] w1].
Qed.

(** X19: [logout] of the context always logs out locally.  Whatever the
    server call does, it does not throw, sends that one request, sets the
    user to [null], and leaves storage without the two token keys and
    without ["currentUser"], every other key as it was. *)
Theorem context_logout_always_clears (st : AuthState) (w : World) :
  let res := AuthContext_logout fetch st w in
  fst res = Returned {| auth_user := JNull; auth_isLoading := auth_isLoading st;
                        auth_error := auth_error st |} /\
  isAuthenticated {| auth_user := JNull; auth_isLoading := auth_isLoading st;
                     auth_error := auth_error st |} = false /\
  requests (snd res) = (requests w ++ [logout_request w])%list /\
  localStorage (snd res) = delete "currentUser" (without_token (localStorage w)).
Proof.
  intros res. subst res. rewrite AuthContext_logout_unfold.
  pose proof (auth_logout_completion fetch w) as (Hrq & _). cbv zeta in Hrq.
  pose proof (auth_logout_storage w) as Hst.
  destruct (auth_logout fetch w) as [[response|err] w1]; cbn [fst snd] in *;
    (split; [reflexivity|]); (split; [reflexivity|]); (split; [exact Hrq|]);
    cbn [localStorage with_localStorage];
    destruct Hst as [-> | ->]; by rewrite ?without_token_idemp.
Qed.

(** X20: a login the server accepts, followed by a profile request it
    answers with 401.  The context's [login] answers [false] with the
    session-expired message as error and the user untouched; the token the
    login had just stored is gone again, and the redirect is queued. *)
Theorem login_then_unauthorized_profile (username password : string)
    (st : AuthState) (w : World) (resp1 resp2 : Response)
    (payload : JsValue) (token expiry : string) :
  let creds := JObj [("username", JStr username); ("password", JStr password)] in
  let w1 := snd (login fetch creds w) in
  let res := AuthContext_login fetch JSON_stringify username password st w in
  fetch (login_request w creds) = Returned resp1 ->
  ok resp1 = true ->
  declares_json resp1 = true ->
  json resp1 = Returned payload ->
  js_get payload "access_token" = Returned (JStr token) ->
  js_get payload "expires_at" = Returned (JStr expiry) ->
  fetch (profile_request w1) = Returned resp2 ->
  resp_status resp2 = 401 ->
  localStorage w1 !! TOKEN_KEY = Some token /\
  fst res = Returned (false,
                      {| auth_user := auth_user st; auth_isLoading := false;
                         auth_error := Some "Session expired. Please login again." |}) /\
  localStorage (snd res) !! TOKEN_KEY = None /\
  localStorage (snd res) !! TOKEN_EXPIRY_KEY = None /\
  timers (snd res) = (timers w ++ [(100, "/")])%list.
Proof.
  intros creds w1 res Hf1 Hok Hj Hp Ht He. subst res w1.
  rewrite AuthContext_login_unfold. fold creds.
  rewrite (login_stores_token _ _ _ _ _ _ _ Hf1 Hok Hj Hp Ht He). cbn [snd].
  intros Hf2 H401. rewrite load_profile_unfold. unfold getProfile.
  unfold profile_request in Hf2.
  rewrite (apiCall_logged_out _ _ _ _ _ _ Hf2 H401). cbn [fst snd].
  destruct (without_token_lookup
              (<[TOKEN_EXPIRY_KEY := expiry]> (<[TOKEN_KEY := token]> (localStorage w))))
    as (Hk & Hx & _).
  repeat split.
  - cbn. rewrite lookup_insert_ne by discriminate. apply lookup_insert_eq.
  - exact Hk.
  - exact Hx.
Qed.

Lemma refreshProfile_unfold (st : AuthState) (w : World) :
  refreshProfile fetch Date_parse JSON_stringify st w =
  if token_valid Date_parse w then
    match load_profile fetch JSON_stringify st w with
    | (Returned st', w1) => (Returned st', w1)
    | (Thrown err, w1) =>
        (Returned st,
         {| localStorage := localStorage w1; clock := clock w1; timers := timers w1;
            console := console w1 ++ [("Failed to refresh profile:", err)];
            requests := requests w1; downloads := downloads w1 |})
    end
  else (Returned st, w).
Proof.
  unfold refreshProfile, bind at 1. rewrite isTokenValid_reads.
  fold (token_valid Date_parse w). destruct (token_valid Date_parse w); [|reflexivity].
  cbn [negb]. unfold try_catch, bind, ret, console_error, console_warn.
  by destruct (load_profile fetch JSON_stringify st w) as [[st'|err] w1].
Qed.

Lemma checkExistingSession_unfold (st : AuthState) (w : World) :
  checkExistingSession fetch Date_parse JSON_stringify JSON_parse st w =
  if token_valid Date_parse w then
    match load_profile fetch JSON_stringify st w with
    | (Returned st', w1) =>
        (Returned {| auth_user := auth_user st'; auth_isLoading := false;
                     auth_error := auth_error st' |}, w1)
    | (Thrown err, w1) =>
        (Returned {| auth_user := auth_user st; auth_isLoading := false;
                     auth_error := auth_error st |},
         with_localStorage (fun m => delete "currentUser" (without_token m)) w1)
    end
  else
    (if present (localStorage w !! "currentUser") && present (localStorage w !! TOKEN_KEY)
     then obind (JSON_parse (default "" (localStorage w !! "currentUser")))
            (fun u => Returned {| auth_user := u; auth_isLoading := false;
                                  auth_error := auth_error st |})
     else Returned {| auth_user := auth_user st; auth_isLoading := false;
                      auth_error := auth_error st |},
     w).
Proof.
  unfold checkExistingSession, bind at 1. rewrite isTokenValid_reads.
  fold (token_valid Date_parse w). destruct (token_valid Date_parse w).
  - unfold try_catch, bind, ret. rewrite clearToken_deletes_fun. unfold removeItem.
    by destruct (load_profile fetch JSON_stringify st w) as [[st'|err] w1].
  - unfold bind, ret, getItem, tokenManager.getToken, getItem, lift.
    destruct (present (localStorage w !! "currentUser")
              && present (localStorage w !! TOKEN_KEY)); [|reflexivity].
    by destruct (JSON_parse _).
Qed.

(** X21: [refreshProfile] never throws.  With no valid token it contacts
    nobody and changes nothing.  With a valid one it sends the profile
    request, and then: if the answer is a 2xx with a JSON body that converts
    to a user, that user is installed and persisted under ["currentUser"],
    and nothing is logged; otherwise the state it was given comes back, the
    exception thrown by [api.auth.getProfile] or by the conversion is
    logged, and storage is as it was, or without the token keys. *)
Theorem refreshProfile_is_quiet (st : AuthState) (w : World) :
  let res := refreshProfile fetch Date_parse JSON_stringify st w in
  let fetched := getProfile fetch w in
  (fst (tokenManager.isTokenValid Date_parse w) = Returned false ->
   res = (Returned st, w)) /\
  (fst (tokenManager.isTokenValid Date_parse w) = Returned true ->
   requests (snd res) = (requests w ++ [profile_request w])%list /\
   ((exists resp profile user,
       fetch (profile_request w) = Returned resp /\
       ok resp = true /\ declares_json resp = true /\
       json resp = Returned profile /\
       profileToUser profile = Returned user /\
       fst res = Returned {| auth_user := user; auth_isLoading := auth_isLoading st;
                             auth_error := auth_error st |} /\
       localStorage (snd res) = <["currentUser" := JSON_stringify user]> (localStorage w) /\
       console (snd res) = console w) \/
    (exists err,
       (fst fetched = Thrown err \/
        exists profile,
          fst fetched = Returned profile /\ profileToUser profile = Thrown err) /\
       fst res = Returned st /\
       console (snd res) =
         (console (snd fetched) ++ [("Failed to refresh profile:", err)])%list /\
       (localStorage (snd res) = localStorage w \/
        localStorage (snd res) = without_token (localStorage w))))).
Proof.
  intros res fetched. subst res fetched. rewrite refreshProfile_unfold.
  rewrite isTokenValid_reads. cbn [fst]. fold (token_valid Date_parse w).
  destruct (token_valid Date_parse w); split; try discriminate; intros _; [|reflexivity].
  destruct (load_profile_cases st w)
    as [(resp & profile & user & Hf & Hok & Hj & Hjson & Hu & ->)
       |(err & Horigin & _ & -> & Hrq & Hst)]; cbn [fst snd].
  - split; [reflexivity|]. left. exists resp, profile, user. by repeat split.
  - split; [exact Hrq|]. right. exists err. by repeat split.
Qed.

(** X22: [checkExistingSession].  With a valid token it sends the profile
    request and ends, without throwing and with [isLoading] false: if the
    answer is a 2xx with a JSON body that converts to a user, with that user
    installed and persisted; otherwise, whatever [api.auth.getProfile] or
    the conversion threw, with the user untouched, the token keys and
    ["currentUser"] removed, and nothing logged by the context.  Without a
    valid token it contacts nobody and writes nothing: if a non-empty
    ["currentUser"] and a non-empty token are stored (the token may be
    expired), the user is whatever that entry parses to; otherwise the user
    is untouched. *)
Theorem session_check (st : AuthState) (w : World) :
  let res := checkExistingSession fetch Date_parse JSON_stringify JSON_parse st w in
  let fetched := getProfile fetch w in
  (fst (tokenManager.isTokenValid Date_parse w) = Returned true ->
   requests (snd res) = (requests w ++ [profile_request w])%list /\
   ((exists resp profile user,
       fetch (profile_request w) = Returned resp /\
       ok resp = true /\ declares_json resp = true /\
       json resp = Returned profile /\
       profileToUser profile = Returned user /\
       fst res = Returned {| auth_user := user; auth_isLoading := false;
                             auth_error := auth_error st |} /\
       localStorage (snd res) = <["currentUser" := JSON_stringify user]> (localStorage w)) \/
    (exists err,
       (fst fetched = Thrown err \/
        exists profile,
          fst fetched = Returned profile /\ profileToUser profile = Thrown err) /\
       fst res = Returned {| auth_user := auth_user st; auth_isLoading := false;
                             auth_error := auth_error st |} /\
       localStorage (snd res) = delete "currentUser" (without_token (localStorage w)) /\
       console (snd res) = console (snd fetched)))) /\
  (fst (tokenManager.isTokenValid Date_parse w) = Returned false ->
   snd res = w /\
   fst res =
     if present (localStorage w !! "currentUser") && present (localStorage w !! TOKEN_KEY)
     then obind (JSON_parse (default "" (localStorage w !! "currentUser")))
            (fun u => Returned {| auth_user := u; auth_isLoading := false;
                                  auth_error := auth_error st |})
     else Returned {| auth_user := auth_user st; auth_isLoading := false;
                      auth_error := auth_error st |}).
Proof.
  intros res fetched. subst res fetched. rewrite checkExistingSession_unfold.
  rewrite isTokenValid_reads. cbn [fst]. fold (token_valid Date_parse w).
  destruct (token_valid Date_parse w); split; try discriminate; intros _.
  - destruct (load_profile_cases st w)
      as [(resp & profile & user & Hf & Hok & Hj & Hjson & Hu & ->)
         |(err & Horigin & _ & -> & Hrq & Hst)]; cbn [fst snd].
    + split; [reflexivity|]. left. exists resp, profile, user. by repeat split.
    + split; [exact Hrq|]. right. exists err.
      split; [exact Horigin|]. split; [reflexivity|]. split; [|reflexivity].
      cbn [localStorage with_localStorage].
      destruct Hst as [-> | ->]; [reflexivity|].
      f_equal. apply without_token_idemp.
  - destruct (present (localStorage w !! "currentUser")
              && present (localStorage w !! TOKEN_KEY)); [|by split].
    destruct (JSON_parse _); by split.
Qed.

End AuthContextFacts.

(** A login that succeeds: the user made from the served profile is
    installed and no error is set. *)
Lemma context_login_reports_witness :
  exists st',
    fst (AuthContext_login serving_profile (fun _ => "{}") "agent" "secret"
           signed_out empty_world) = Returned (true, st') /\
    auth_isLoading st' = false /\
    auth_error st' = None /\
    profileToUser profile_example = Returned (auth_user st').
Proof.
  destruct (context_login_reports serving_profile (fun _ => "{}") "agent" "secret"
              signed_out empty_world) as (b & st' & H1 & H2 & Ht & _).
  assert (Hb : b = true).
  { revert H1. vm_compute. intros [= <- _]. reflexivity. }
  subst b. destruct (Ht eq_refl) as (He & (payload & resp & profile & _ & Hf & _ & _ & Hj & Hu) & _).
  exists st'. split; [exact H1|]. split; [exact H2|]. split; [exact He|].
  revert Hf Hj Hu. vm_compute. intros [= <-] [= <-]. exact (fun H => H).
Defined.

Lemma context_register_reports_witness :
  exists st',
    fst (AuthContext_register serving_profile (fun _ => "{}") "agent" "secret"
           (JStr "Agent Smith") signed_out empty_world) = Returned (true, st') /\
    auth_isLoading st' = false /\
    auth_error st' = None /\
    profileToUser profile_example = Returned (auth_user st').
Proof.
  destruct (context_register_reports serving_profile (fun _ => "{}") "agent" "secret"
              (JStr "Agent Smith") signed_out empty_world)
    as (b & st' & H1 & H2 & Ht & _).
  assert (Hb : b = true).
  { revert H1. vm_compute. intros [= <- _]. reflexivity. }
  subst b. destruct (Ht eq_refl) as (He & (payload & resp & profile & _ & Hf & _ & _ & Hj & Hu) & _).
  exists st'. split; [exact H1|]. split; [exact H2|]. split; [exact He|].
  revert Hf Hj Hu. vm_compute. intros [= <-] [= <-]. exact (fun H => H).
Defined.

Lemma login_then_unauthorized_profile_witness :
  fst (AuthContext_login login_then_401 (fun _ => "{}") "agent" "secret"
         signed_out empty_world) =
  Returned (false,
            {| auth_user := JNull; auth_isLoading := false;
               auth_error := Some "Session expired. Please login again." |}).
Proof.
  refine (proj1 (proj2 (login_then_unauthorized_profile login_then_401 (fun _ => "{}")
                          "agent" "secret" signed_out empty_world
                          (json_response 200 login_payload)
                          (response_of 401 None not_json) login_payload
                          "tok" "2030-01-01T00:00:00Z" _ _ _ _ _ _ _ _)));
    reflexivity.
Defined.

(** With the token of [logged_in_world] still valid, the profile is fetched
    and installed. *)
Lemma refreshProfile_is_quiet_witness :
  requests (snd (refreshProfile serving_profile parse_2030 (fun _ => "{}")
                   signed_out logged_in_world)) =
    [profile_request logged_in_world] /\
  exists user,
    profileToUser profile_example = Returned user /\
    fst (refreshProfile serving_profile parse_2030 (fun _ => "{}")
           signed_out logged_in_world) =
      Returned {| auth_user := user; auth_isLoading := false; auth_error := None |}.
Proof.
  destruct (proj2 (refreshProfile_is_quiet serving_profile parse_2030 (fun _ => "{}")
                     signed_out logged_in_world) eq_refl)
    as [Hrq [(resp & profile & user & Hf & _ & _ & Hj & Hu & Hres & _)
            |(err & Horigin & _)]].
  - split; [exact Hrq|]. exists user. split; [|exact Hres].
    revert Hf Hj Hu. vm_compute. intros [= <-] [= <-]. exact (fun H => H).
  - exfalso. revert Horigin. vm_compute.
    intros [H|(profile & [= <-] & H)]; discriminate H.
Defined.

(** With the token of [logged_in_world] still valid, the session is checked
    against the server and the served profile installed. *)
Lemma session_check_witness :
  requests (snd (checkExistingSession serving_profile parse_2030 (fun _ => "{}")
                   (fun _ => Returned JNull) signed_out logged_in_world)) =
    [profile_request logged_in_world] /\
  exists user,
    profileToUser profile_example = Returned user /\
    fst (checkExistingSession serving_profile parse_2030 (fun _ => "{}")
           (fun _ => Returned JNull) signed_out logged_in_world) =
      Returned {| auth_user := user; auth_isLoading := false; auth_error := None |}.
Proof.
  destruct (proj1 (session_check serving_profile parse_2030 (fun _ => "{}")
                     (fun _ => Returned JNull) signed_out logged_in_world) eq_refl)
    as [Hrq [(resp & profile & user & Hf & _ & _ & Hj & Hu & Hres & _)
            |(err & Horigin & _)]].
  - split; [exact Hrq|]. exists user. split; [|exact Hres].
    revert Hf Hj Hu. vm_compute. intros [= <-] [= <-]. exact (fun H => H).
  - exfalso. revert Horigin. vm_compute.
    intros [H|(profile & [= <-] & H)]; discriminate H.
Defined.

(** ** The user made from a profile *)

Lemma before_at_prefix (s : string) : String.prefix (before_at s) s = true.
Proof.
  induction s as [|c s IH]; [reflexivity|]. cbn.
  destruct (Ascii.eqb c "@"); [reflexivity|]. cbn.
  by destruct (ascii_dec c c).
Qed.

Lemma includes_at (s : string) :
  includes "@" s =
  match s with
  | EmptyString => false
  | String c rest => Ascii.eqb "@" c || includes "@" rest
  end.
Proof.
  destruct s as [|c rest]; [reflexivity|]. cbn [includes String.prefix].
  destruct (ascii_dec "@" c) as [<-|Hne].
  - by destruct rest.
  - by destruct (Ascii.eqb_spec "@"%char c).
Qed.

Lemma before_at_free (s : string) : includes "@" (before_at s) = false.
Proof.
  induction s as [|c s IH]; [reflexivity|]. cbn [before_at].
  destruct (Ascii.eqb c "@") eqn:E; [reflexivity|].
  rewrite includes_at, IH. rewrite Ascii.eqb_sym, E. reflexivity.
Qed.

Lemma before_at_id (s : string) : includes "@" s = false -> before_at s = s.
Proof.
  induction s as [|c s IH]; [reflexivity|]. rewrite includes_at.
  intros H. apply orb_false_elim in H as [Hc Hs]. cbn [before_at].
  rewrite Ascii.eqb_sym, Hc. f_equal. by apply IH.
Qed.

(** X23: the user [profileToUser] makes.  For a profile whose [user] has a
    string [email], it returns the object with the profile's [id], [email],
    [full_name] and [credits], the role ["user"], and as [username] the
    part of the email before its first ["@"]: a prefix of the email that
    holds no ["@"], and the whole email when that has none.  When the
    email is anything but a string, the conversion throws a [TypeError]. *)
Theorem profile_username (profile u : JsValue) :
  js_get profile "user" = Returned u ->
  (forall email,
      js_get u "email" = Returned (JStr email) ->
      profileToUser profile =
        Returned (JObj [("id", default JUndefined
                                 (match u with JObj ps => own_property "id" ps | _ => None end));
                        ("email", JStr email);
                        ("full_name", default JUndefined
                                        (match u with
                                         | JObj ps => own_property "full_name" ps
                                         | _ => None end));
                        ("credits", default JUndefined
                                      (match profile with
                                       | JObj ps => own_property "credits" ps
                                       | _ => None end));
                        ("username", JStr (before_at email));
                        ("role", JStr "user")]) /\
      String.prefix (before_at email) email = true /\
      includes "@" (before_at email) = false /\
      (includes "@" email = false -> before_at email = email)) /\
  (forall v,
      js_get u "email" = Returned v -> (forall email, v <> JStr email) ->
      exists m, profileToUser profile = Thrown (TypeError m)).
Proof.
  intros Hu. split.
  - intros email He.
    split; [|split; [apply before_at_prefix|split; [apply before_at_free|apply before_at_id]]].
    unfold profileToUser. rewrite Hu. cbn [obind].
    destruct u as [| | | | | |ups]; try discriminate. rewrite He. cbn [obind].
    destruct profile as [| | | | | |pps]; try discriminate. reflexivity.
  - intros v Hv Hne. unfold profileToUser. rewrite Hu. cbn [obind].
    destruct u as [| |b|n|s|l|ups]; try discriminate;
      destruct profile as [| |b'|n'|s'|l'|pps]; try discriminate;
      cbn [js_get] in Hv |- *; injection Hv as Hv;
      try (subst v; cbn; eexists; reflexivity).
    cbn [obind]. rewrite Hv.
    destruct v; cbn; try (eexists; reflexivity). by destruct (Hne s).
Qed.

Lemma profile_username_witness :
  profileToUser
    (JObj [("user", JObj [("id", JStr "u1"); ("email", JStr "agent@voizmatic.com")]);
           ("credits", JNum 12)]) =
  Returned (JObj [("id", JStr "u1"); ("email", JStr "agent@voizmatic.com");
                  ("full_name", JUndefined); ("credits", JNum 12);
                  ("username", JStr "agent"); ("role", JStr "user")]).
Proof.
  refine (proj1 (proj1 (profile_username
            (JObj [("user", JObj [("id", JStr "u1"); ("email", JStr "agent@voizmatic.com")]);
                   ("credits", JNum 12)])
            (JObj [("id", JStr "u1"); ("email", JStr "agent@voizmatic.com")]) _)
          "agent@voizmatic.com" _)); reflexivity.
Defined.

(** ** The log text *)

Lemma log_entry_typed (ve : ValidationError) :
  log_entry (json_of_ValidationError ve) = Returned (log_text ve).
Proof.
  unfold log_entry, log_text, json_of_ValidationError. cbn.
  unfold Array_join. rewrite join_parts_segments. reflexivity.
Qed.

Lemma Array_map_log_typed (ves : list ValidationError) :
  Array_map log_entry (map json_of_ValidationError ves) = Returned (map log_text ves).
Proof.
  induction ves as [|ve ves IH]; [reflexivity|].
  cbn [map Array_map]. rewrite log_entry_typed, IH. reflexivity.
Qed.

Lemma formatErrorForLogging_typed (stack : JsValue) (e : VoizmaticApiError)
    (fields : option (list ValidationError)) :
  this_validationErrors e = option_map (map json_of_ValidationError) fields ->
  formatErrorForLogging stack (VoizmaticApiErrorOf e) =
  Returned (String.concat newline
              (("VoizmaticApiError: " ++ this_message e)
               :: status_lines e
               ++ match fields with
                  | Some ves => ["Validation Errors:" ++ newline
                                 ++ String.concat newline (map log_text ves)]
                  | None => []
                  end)).
Proof.
  intros Hv. unfold formatErrorForLogging, status_lines. rewrite Hv.
  destruct fields as [ves|]; cbn [option_map obind].
  - rewrite Array_map_log_typed. cbn [obind].
    destruct (this_status e) as [st|]; [destruct (st =? 0)|];
      (destruct (this_statusText e) as [t|]; [destruct (nonempty t) eqn:Ht|]);
      cbn [filter_Boolean nonempty String.append app]; rewrite ?Ht; reflexivity.
  - destruct (this_status e) as [st|]; [destruct (st =? 0)|];
      (destruct (this_statusText e) as [t|]; [destruct (nonempty t) eqn:Ht|]);
      cbn [filter_Boolean nonempty String.append app]; rewrite ?Ht; reflexivity.
Qed.

(** X24: the log text of a well-formed typed error.
    [formatErrorForLogging] does not throw on it and gives, one per line:
    the error kind with the message; the status unless it is absent or 0;
    the status text unless it is absent or empty; and, when validation
    errors are present (even an empty list), a heading followed by one line
    per field error showing its whole location joined by dots, its message
    and its kind.  [logError] appends exactly that text to the console,
    under ["[<context>]"], or ["[Error]"] when the context is absent or
    empty, and changes nothing else. *)
Theorem log_text_of_typed_error (stack : JsValue) (e : VoizmaticApiError)
    (fields : option (list ValidationError)) (context : option string) (w : World) :
  this_validationErrors e = option_map (map json_of_ValidationError) fields ->
  let text :=
    String.concat newline
      (("VoizmaticApiError: " ++ this_message e)
       :: status_lines e
       ++ match fields with
          | Some ves => ["Validation Errors:" ++ newline
                         ++ String.concat newline (map log_text ves)]
          | None => []
          end) in
  formatErrorForLogging stack (VoizmaticApiErrorOf e) = Returned text /\
  logError stack (VoizmaticApiErrorOf e) context w =
    (Returned tt,
     {| localStorage := localStorage w; clock := clock w; timers := timers w;
        console := console w ++
          [(match context with
            | Some c => if nonempty c then "[" ++ c ++ "]" else "[Error]"
            | None => "[Error]"
            end, PlainValue (JStr text))];
        requests := requests w; downloads := downloads w |}).
Proof.
  intros Hv text. subst text. split; [by apply formatErrorForLogging_typed|].
  unfold logError, bind, lift, console_error, console_warn.
  rewrite (formatErrorForLogging_typed _ _ _ Hv).
  destruct context as [c|]; [destruct c|]; reflexivity.
Qed.

Lemma log_text_of_typed_error_witness :
  formatErrorForLogging JUndefined (VoizmaticApiErrorOf phone_typed_error) =
  Returned ("VoizmaticApiError: phone: required" ++ newline ++
            "Status: 422" ++ newline ++
            "Validation Errors:" ++ newline ++
            "  - body.phone: required (missing)").
Proof.
  refine (proj1 (log_text_of_typed_error JUndefined phone_typed_error
                   (Some [phone_error]) None empty_world _)).
  reflexivity.
Defined.
